(** * Mental-Health-Multimodal-Assessment: scoring and aggregation core

    A shallow embedding of the scoring code of [src/app.py], the vocal
    aggregation of [src/facial.py] (its "vocal and linguistic" half) and the
    batch pipeline of [src/cardiovascular.py]; then of the audio analysis,
    the in-memory sessions with their real-time handlers, the submission of
    an assessment, the small helpers and the registration form.

    Conventions.
    - Python [str] values are [string]s; the texts are taken to be ASCII, so
      [str.lower] is the map [A-Z -> a-z] and every other byte is kept.  A
      password may be any text: it is held as the bytes of its UTF-8
      encoding, and [len] counts its characters, not its bytes.
    - Python [int] is [Z]; the counts of a [Counter] and the lengths of
      lists are [nat].
    - A sentiment polarity is a finite double, hence a rational: it is a [Q].
      The thresholds [0.3] and [-0.3] are written as [3/10]: the double
      nearest to [0.3] lies below [3/10] and the next double lies above it,
      so for a double [p] the test [p > 0.3] of the source and the test
      [3/10 < p] decide the same.
    - The HRV metrics are float64 numbers: [Float64] computes them with the
      primitive binary64 floats, every operation rounded, the sums taken in
      numpy's order of additions; infinities and NaN are among the results.
      The loader and the stress classification ([Cardio]) only ask whether
      the metrics are present and compare them with thresholds; there a
      heart rate or a metric is a real number.
    - An exception is a value: code under [try] runs in the [Result] monad
      and [except Exception] turns [Raise] into the handler's value. *)

From Stdlib Require Import List String Ascii Bool Arith ZArith QArith Lia.
From Stdlib Require Import DecimalString DecimalZ DecimalPos Qabs.
From Stdlib Require Import Reals Lra.
From Stdlib Require Floats Uint63.
Import ListNotations.

Open Scope string_scope.

(** ** Python string primitives *)

Module Text.

(** [c.lower()] on an ASCII character. *)
Definition lower_ascii (c : ascii) : ascii :=
  let n := nat_of_ascii c in
  if (65 <=? n)%nat && (n <=? 90)%nat then ascii_of_nat (n + 32) else c.

(** [s.lower()]. *)
Fixpoint lower (s : string) : string :=
  match s with
  | EmptyString => EmptyString
  | String c s' => String (lower_ascii c) (lower s')
  end.

(** [s.startswith(w)]. *)
Fixpoint startswith (w s : string) : bool :=
  match w, s with
  | EmptyString, _ => true
  | String _ _, EmptyString => false
  | String a w', String b s' => Ascii.eqb a b && startswith w' s'
  end.

(** [w in s]: [w] occurs in [s] as a contiguous substring. *)
Fixpoint contains (s w : string) : bool :=
  startswith w s ||
  match s with
  | EmptyString => false
  | String _ s' => contains s' w
  end.

(** [any(word in s for word in words)]. *)
Definition any_in (words : list string) (s : string) : bool :=
  existsb (contains s) words.

(** [sum(1 for word in words if word in s)]. *)
Fixpoint count_in (words : list string) (s : string) : Z :=
  match words with
  | [] => 0%Z
  | w :: ws => ((if contains s w then 1 else 0) + count_in ws s)%Z
  end.

(** Python's [str.isspace] on an ASCII character: tab, line feed, vertical
    tab, form feed, carriage return, the four separators 28..31 and space. *)
Definition is_space (c : ascii) : bool :=
  let n := nat_of_ascii c in
  ((9 <=? n)%nat && (n <=? 13)%nat) || ((28 <=? n)%nat && (n <=? 32)%nat).

(** [not s.strip()]: nothing is left once the white space is stripped. *)
Fixpoint is_blank (s : string) : bool :=
  match s with
  | EmptyString => true
  | String c s' => is_space c && is_blank s'
  end.

Definition is_upper (c : ascii) : bool :=
  let n := nat_of_ascii c in (65 <=? n)%nat && (n <=? 90)%nat.

Definition is_lower (c : ascii) : bool :=
  let n := nat_of_ascii c in (97 <=? n)%nat && (n <=? 122)%nat.

Definition upper_ascii (c : ascii) : ascii :=
  if is_lower c then ascii_of_nat (nat_of_ascii c - 32) else c.

(** [s.title()]: a cased character that follows an uncased one is put in
    upper case, every other cased character in lower case. *)
Fixpoint title_from (previous_is_cased : bool) (s : string) : string :=
  match s with
  | EmptyString => EmptyString
  | String c s' =>
      let cased := is_upper c || is_lower c in
      String (if cased
              then (if previous_is_cased then lower_ascii c else upper_ascii c)
              else c)
             (title_from cased s')
  end.

Definition title (s : string) : string := title_from false s.

(** ['\n'.join(lines)]. *)
Definition newline : string := String (ascii_of_nat 10) EmptyString.

Definition join_lines (lines : list string) : string :=
  String.concat newline lines.

(** The decimal digits of a number that is not negative. *)
Definition digits (n : Z) : string :=
  NilZero.string_of_uint (N.to_uint (Z.to_N n)).

Fixpoint zeros (n : nat) : string :=
  match n with
  | O => EmptyString
  | S n' => String "0" (zeros n')
  end.

(** A number known by its sign and by its magnitude in units of [10^-d],
    printed with [d] digits after the point, as the format specifications
    [:.1f] and [:.2f] print it. *)
Definition fixed_point (negative : bool) (scaled : Z) (d : nat) : string :=
  let unit := (10 ^ Z.of_nat d)%Z in
  let fraction := digits (scaled mod unit) in
  (if negative then "-" else "") ++ digits (scaled / unit) ++ "." ++
  zeros (d - String.length fraction) ++ fraction.

(** The integer nearest to a rational that is not negative, ties to even. *)
Definition round_half_even (q : Q) : Z :=
  let n := Qnum q in
  let d := Zpos (Qden q) in
  let f := (n / d)%Z in
  let r := (n mod d)%Z in
  if (2 * r <? d)%Z then f
  else if (d <? 2 * r)%Z then (f + 1)%Z
  else if Z.even f then f else (f + 1)%Z.

(** [f"{q:.2f}"]. *)
Definition format_2f (q : Q) : string :=
  fixed_point (Qnum q <? 0)%Z (round_half_even (Qabs q * 100)) 2.

(** The specification's reading of "occurs as a substring". *)
Definition occurs_in (w s : string) : Prop :=
  exists pre post, s = pre ++ w ++ post.

(** The specification's reading of "occurs case-insensitively": some
    substring of [s] equals [w] up to the case of its letters. *)
Definition occurs_ignoring_case (w s : string) : Prop :=
  exists pre u post, s = pre ++ u ++ post /\ lower u = lower w.

End Text.

(** ** The PHQ-9 answer scorer of [process_voice_assessment_submission] *)

Module Scoring.
Import Text.

(** The four keyword lists of lines 284-290 of [src/app.py]. *)
Definition bucket0 : list string := ["never"; "not at all"; "rarely"; "no"; "none"].
Definition bucket1 : list string := ["sometimes"; "occasionally"; "a few"; "once"].
Definition bucket2 : list string := ["often"; "frequently"; "many"; "several"].
Definition bucket3 : list string :=
  ["always"; "every day"; "constantly"; "all the time"; "daily"].

Record Sentiment : Type := mkSentiment { polarity : Q; subjectivity : Q }.

(** The specification's reading of "a bucket matches": one of its words
    occurs in the text, whatever the case of the letters. *)
Definition bucket_matches (bucket : list string) (text : string) : Prop :=
  exists w, In w bucket /\ occurs_ignoring_case w text.

Section WithSentimentCapability.

(** TextBlob's sentiment of a text; [None] stands for a raised exception. *)
Variable textblob_sentiment : string -> option Sentiment.

(** [analyze_sentiment] of the vocal and linguistic module. *)
Definition analyze_sentiment (text : string) : Sentiment :=
  if is_blank text then mkSentiment (2 # 10) (2 # 10)
  else match textblob_sentiment text with
       | Some s => s
       | None => mkSentiment 0 0
       end.

(** The [else] branch of the cascade (lines 294-300). *)
Definition sentiment_score (response_text : string) : Z :=
  let sentiment := analyze_sentiment response_text in
  if Qlt_le_dec (polarity sentiment) (- (3 # 10)) then 2%Z
  else if Qlt_le_dec (3 # 10) (polarity sentiment) then 0%Z
  else 1%Z.

(** The score of one answer (lines 280-300): the text is lowered first, then
    the [if]/[elif] chain runs. *)
Definition score_response (response : string) : Z :=
  let response_text := lower response in
  if any_in bucket0 response_text then 0%Z
  else if any_in bucket1 response_text then 1%Z
  else if any_in bucket2 response_text then 2%Z
  else if any_in bucket3 response_text then 3%Z
  else sentiment_score response_text.

(** The loop over [responses[:9]]: the item scores and their total. *)
Definition item_scores (responses : list string) : list Z :=
  map score_response (firstn 9 responses).

Definition phq9_total_of (responses : list string) : Z :=
  fold_left Z.add (item_scores responses) 0%Z.

End WithSentimentCapability.

(** A capability that answers polarity 0.0 for every text. *)
Definition neutral_sentiment (text : string) : option Sentiment :=
  Some (mkSentiment 0 0).

End Scoring.

(** ** Severity bands and the recommendation report ([generate_recommendations]) *)

Module Report.
Import Text.

Inductive Severity : Type :=
  | NoneMinimal | Mild | Moderate | ModeratelySevere | Severe.

(** The string the source stores for a band. *)
Definition severity_label (s : Severity) : string :=
  match s with
  | NoneMinimal => "None-Minimal"
  | Mild => "Mild"
  | Moderate => "Moderate"
  | ModeratelySevere => "Moderately Severe"
  | Severe => "Severe"
  end.

(** Modelled from the spec: the [Assessment] row of [models.py], which is
    not among the sources.  These are the fields [generate_recommendations]
    reads; by the data model of the specification the item scores and the
    total are integers, and a dominant emotion or a polarity that was never
    set is [None]. *)
Record Assessment : Type := mkAssessment {
  phq9_total : Z;
  phq9_q9 : Z;
  facial_dominant_emotion : option string;
  vocal_dominant_emotion : option string;
  sentiment_polarity : option Q
}.

(** Lines 525-534: "Determine severity". *)
Definition classify (phq9_score : Z) : Severity :=
  if (phq9_score <=? 4)%Z then NoneMinimal
  else if (phq9_score <=? 9)%Z then Mild
  else if (phq9_score <=? 14)%Z then Moderate
  else if (phq9_score <=? 19)%Z then ModeratelySevere
  else Severe.

Definition minimal_lines : list string :=
  ["✓ Your responses suggest minimal or no depression symptoms.";
   "Continue healthy habits: exercise, sleep (7-9 hours), social connections.";
   "Practice mindfulness and stress management techniques."].

Definition mild_lines : list string :=
  ["Your responses indicate mild depression symptoms.";
   "Lifestyle modifications:";
   "  • Regular physical activity (30 min, 5 days/week)";
   "  • Consistent sleep schedule";
   "  • Balanced diet and hydration";
   "  • Social engagement";
   "Monitor symptoms. Consult professional if they persist beyond 2 weeks."].

Definition moderate_lines : list string :=
  ["⚠️ Your responses suggest moderate depression.";
   "We recommend consulting a mental health professional.";
   "Treatment options:";
   "  • Cognitive Behavioral Therapy (CBT)";
   "  • Counseling or psychotherapy";
   "  • Lifestyle modifications";
   "  • Consider medication evaluation if recommended"].

Definition significant_lines : list string :=
  ["⚠️ IMPORTANT: Your responses indicate significant depression.";
   "Please seek professional help immediately:";
   "  • Contact a mental health professional";
   "  • Visit your primary care physician"].

(** The lines appended under [if assessment.phq9_q9 >= 1] (lines 569-572). *)
Definition crisis_warning : string :=
  "⚠️ You indicated thoughts of self-harm. This is serious.".

Definition crisis_block : list string :=
  [""; crisis_warning;
   "Please reach out immediately to someone you trust or call a crisis helpline."].

Definition wellness_lines : list string :=
  [""; "--- General Wellness Tips ---";
   "• Deep breathing exercises: 5-10 minutes daily";
   "• Limit caffeine and alcohol";
   "• Spend time in nature/sunlight";
   "• Journal your thoughts";
   "• Set small, achievable daily goals"].

(** Python truthiness of an optional string: [None] and [''] are false. *)
Definition truthy (o : option string) : option string :=
  match o with
  | Some EmptyString => None
  | other => other
  end.

(** [x in words] for a list of strings. *)
Definition member (x : string) (words : list string) : bool :=
  existsb (String.eqb x) words.

(** Lines 539-572: the guidance chosen by the total, a second [if]/[elif]
    chain with four branches. *)
Definition phq9_lines (assessment : Assessment) : list string :=
  let phq9_score := phq9_total assessment in
  if (phq9_score <=? 4)%Z then minimal_lines
  else if (phq9_score <=? 9)%Z then mild_lines
  else if (phq9_score <=? 14)%Z then moderate_lines
  else significant_lines ++
       (if (phq9_q9 assessment >=? 1)%Z then crisis_block else []).

(** Lines 575-582. *)
Definition facial_lines (assessment : Assessment) : list string :=
  match truthy (facial_dominant_emotion assessment) with
  | None => []
  | Some emotion =>
      [""; "--- Facial Expression Analysis ---";
       "Dominant emotion: " ++ title emotion] ++
      (if member emotion ["sad"; "angry"; "fear"; "disgust"]
       then ["Your facial expressions suggest emotional distress."] else [])
  end.

(** Lines 584-590. *)
Definition vocal_lines (assessment : Assessment) : list string :=
  match truthy (vocal_dominant_emotion assessment) with
  | None => []
  | Some emotion =>
      [""; "--- Voice Analysis ---"; "Vocal emotion: " ++ title emotion] ++
      (if member emotion ["sad"; "angry"; "fear"]
       then ["Your voice patterns indicate negative emotions."] else [])
  end.

(** Lines 592-600. *)
Definition language_lines (assessment : Assessment) : list string :=
  match sentiment_polarity assessment with
  | None => []
  | Some p =>
      [""; "--- Language Analysis ---"] ++
      (if Qlt_le_dec p (- (3 # 10)) then
         ["Your language shows negative sentiment (score: " ++ format_2f p ++ ")";
          "Consider talking with someone you trust about your feelings."]
       else if Qlt_le_dec (3 # 10) p then
         ["Your language shows positive sentiment (score: " ++ format_2f p ++ ")"]
       else [])
  end.

(** The list [recommendations] as it stands at the [return]. *)
Definition recommendations (assessment : Assessment) : list string :=
  phq9_lines assessment ++ facial_lines assessment ++
  vocal_lines assessment ++ language_lines assessment ++ wellness_lines.

Definition generate_recommendations (assessment : Assessment)
  : Severity * string :=
  (classify (phq9_total assessment), join_lines (recommendations assessment)).

(** A block of lines occurs in a report when its lines stand there one after
    the other. *)
Definition has_block (block report : list string) : Prop :=
  exists before after, report = (before ++ block ++ after)%list.

(** A total of 15 with the self-harm item at 1 and no other signal. *)
Definition total_15_item9_1 : Assessment := mkAssessment 15 1 None None None.

(** A total of 20 with the self-harm item at 1 and every block present. *)
Definition total_20_item9_1 : Assessment :=
  mkAssessment 20 1 (Some "sad") (Some "neutral") (Some (- (1 # 2))).

End Report.

(** ** The vocal timeline ([aggregate_vocal_emotions]) *)

Module Vocal.

(** [Counter]: a dict, so the keys stand in the order of their first
    insertion.  [counter_add] is one [counts[label] += 1]. *)
Fixpoint counter_add (label : string) (counts : list (string * nat))
  : list (string * nat) :=
  match counts with
  | [] => [(label, 1%nat)]
  | (k, n) :: rest =>
      if String.eqb k label then (k, S n) :: rest
      else (k, n) :: counter_add label rest
  end.

Definition Counter (timeline : list string) : list (string * nat) :=
  fold_left (fun counts label => counter_add label counts) timeline [].

(** [max(items, key=itemgetter(1))] run from a first candidate: a later item
    replaces the candidate only when its count is strictly greater. *)
Fixpoint max_by_count (best : string * nat) (items : list (string * nat))
  : string * nat :=
  match items with
  | [] => best
  | item :: rest =>
      max_by_count (if (snd best <? snd item)%nat then item else best) rest
  end.

(** [most_common(1)], which is [heapq.nlargest(1, ...)]: the list of the one
    maximal item, or the empty list for an empty counter. *)
Definition most_common_1 (counts : list (string * nat)) : list (string * nat) :=
  match counts with
  | [] => []
  | first :: rest => [max_by_count first rest]
  end.

(** [aggregate_vocal_emotions]; [None] stands for the [IndexError] of
    [...[0]] on an empty list. *)
Definition aggregate_vocal_emotions (vocal_timeline : list string)
  : option string :=
  match vocal_timeline with
  | [] => Some "neutral"
  | _ => option_map fst (hd_error (most_common_1 (Counter vocal_timeline)))
  end.

(** How often a label occurs in a timeline. *)
Definition occurrences (label : string) (timeline : list string) : nat :=
  count_occ string_dec timeline label.

(** [c] is the counter of the labels [seen]: its keys are distinct, every
    label seen is a key, and each count is the number of occurrences. *)
Definition counts_of (seen : list string) (c : list (string * nat)) : Prop :=
  NoDup (map fst c) /\
  (forall x m, In (x, m) c -> m = occurrences x seen) /\
  (forall x, In x seen -> In x (map fst c)).

End Vocal.

(** ** Keyword counts of a text event ([handle_analyze_text]) *)

Module Keywords.
Import Text.

Definition positive_words : list string :=
  ["good"; "happy"; "better"; "enjoy"; "love"; "great"; "excellent";
   "wonderful"; "positive"; "excited"; "glad"; "thankful"].

(** Line 474, as it is written in the source. *)
Definition negative_words : list string :=
  ["bad"; "sad"; "worse"; "hate"; "terrible"; "awful"; "depressed";
   "hopeless"; "never"; "nothing"; "nobody"; "tired"; "exhausted"; "lonely";
   "worthless"; "stupid"; "low"; "tired"; "despise"; "alone"].

Definition pos_count (text : string) : Z := count_in positive_words (lower text).
Definition neg_count (text : string) : Z := count_in negative_words (lower text).

(** The negative list as the specification gives it: nineteen words. *)
Definition spec_negative_words : list string :=
  ["bad"; "sad"; "worse"; "hate"; "terrible"; "awful"; "depressed";
   "hopeless"; "never"; "nothing"; "nobody"; "tired"; "exhausted"; "lonely";
   "worthless"; "stupid"; "low"; "despise"; "alone"].

(** The number of words of a list that occur, case-insensitively, in a
    text: the specification's count. *)
Definition spec_count (words : list string) (text : string) : Z :=
  Z.of_nat (List.length (filter (fun w => contains (lower text) w) words)).

End Keywords.

(** ** The heart-rate pipeline of [src/cardiovascular.py] *)

Module Cardio.
Import Text.

Open Scope R_scope.

(** *** The metrics in exact arithmetic

    What [calculate_hrv_metrics] computes when no operation rounds.  The
    program computes in float64: that is [Float64.calculate_hrv_metrics],
    which gives a result for the same arrays (see
    [calculate_hrv_metrics_presence]) and other numbers.  The definitions
    of this part serve the loader and the classification, which ask whether
    a result is present and compare its fields with thresholds. *)

Definition np_sum (a : list R) : R := fold_right Rplus 0 a.

Definition np_mean (a : list R) : R := np_sum a / INR (List.length a).

(** [np.diff]: [a[i+1] - a[i]]. *)
Fixpoint np_diff (a : list R) : list R :=
  match a with
  | x :: (y :: _) as rest => (y - x) :: np_diff rest
  | _ => []
  end.

(** [np.std], with its default [ddof=0]:
    [sqrt(mean(abs(a - a.mean()) ** 2))]. *)
Definition np_std (a : list R) : R :=
  let m := np_mean a in
  sqrt (np_mean (map (fun x => Rabs (x - m) ^ 2) a)).

(** [np.sum(np.abs(d) > 50)]: the number of [True] entries. *)
Definition count_above_50 (d : list R) : nat :=
  List.length (filter (fun x => if Rgt_dec (Rabs x) 50 then true else false) d).

(** [np.max] and [np.min] of an array with first element [x]. *)
Definition np_max (x : R) (rest : list R) : R := fold_left Rmax rest x.
Definition np_min (x : R) (rest : list R) : R := fold_left Rmin rest x.

Record HRVMetrics : Type := mkHRV {
  sdnn : R; rmssd : R; pnn50 : R;
  mean_hr : R; max_hr : R; min_hr : R; hr_range : R
}.

(** [calculate_hrv_metrics], in exact arithmetic. *)
Definition calculate_hrv_metrics (heart_rates : list R) : option HRVMetrics :=
  match heart_rates with
  | [] | [_] => None
  | first :: others =>
      let rr_intervals := map (fun h => 60000 / h) heart_rates in
      let successive_diffs := np_diff rr_intervals in
      let nn50 := count_above_50 successive_diffs in
      Some {| sdnn := np_std rr_intervals;
              rmssd := sqrt (np_mean (map (fun d => d ^ 2) successive_diffs));
              pnn50 := if (0 <? List.length successive_diffs)%nat
                       then INR nn50 / INR (List.length successive_diffs) * 100
                       else 0;
              mean_hr := np_mean heart_rates;
              max_hr := np_max first others;
              min_hr := np_min first others;
              hr_range := np_max first others - np_min first others |}
  end.

(** *** The stress classification of [analyze_cardiovascular_stress] *)

Inductive StressLevel : Type := High | ModerateStress | Low.

Definition stress_level_label (l : StressLevel) : string :=
  match l with High => "High" | ModerateStress => "Moderate" | Low => "Low" end.

Record StressResult : Type := mkStress {
  metrics : HRVMetrics;
  stress_score : Z;
  stress_level : StressLevel;
  stress_indicators : list string;
  data_points : nat
}.

(** *** The table read from the CSV file *)

(** A cell of a pandas column: a number, a string of an [object] column, or
    the missing value. *)
Inductive Cell : Type :=
  | Num (x : R)
  | Str (s : string)
  | NaN.

(** A data frame by columns, in the order of the header; every column has
    one cell for each row. *)
Definition DataFrame : Type := list (string * list Cell).

Inductive Exn : Type :=
  | KeyError (key : string)
  | ReadError.

Inductive Result (A : Type) : Type :=
  | Ok (a : A)
  | Raise (e : Exn).
Arguments Ok {A} a.
Arguments Raise {A} e.

Definition bind {A B : Type} (r : Result A) (k : A -> Result B) : Result B :=
  match r with
  | Ok a => k a
  | Raise e => Raise e
  end.

Local Notation "x <- r ;; k" := (bind r (fun x => k))
  (at level 61, r at next level, right associativity).

(** [try: body except Exception: return None]. *)
Definition try_or_none {A : Type} (body : Result A) : option A :=
  match body with
  | Ok a => Some a
  | Raise _ => None
  end.

(** [name in df.columns]. *)
Definition has_column (name : string) (df : DataFrame) : bool :=
  existsb (fun c => String.eqb (fst c) name) df.

(** [df[name]]. *)
Fixpoint get_column (name : string) (df : DataFrame) : Result (list Cell) :=
  match df with
  | [] => Raise (KeyError name)
  | (k, v) :: rest => if String.eqb k name then Ok v else get_column name rest
  end.

(** [df[name] = values]: an existing column is replaced in place, a new one
    is appended. *)
Fixpoint set_column (name : string) (values : list Cell) (df : DataFrame)
  : DataFrame :=
  match df with
  | [] => [(name, values)]
  | (k, v) :: rest =>
      if String.eqb k name then (k, values) :: rest
      else (k, v) :: set_column name values rest
  end.

(** The first column whose lowered name contains "heart" or "bpm"
    (the [for] loop of lines 11-14, left by [break]). *)
Fixpoint find_heart_column (cols : DataFrame) : option (list Cell) :=
  match cols with
  | [] => None
  | (col, v) :: rest =>
      if contains (lower col) "heart" || contains (lower col) "bpm"
      then Some v else find_heart_column rest
  end.

Definition notna (c : Cell) : bool :=
  match c with NaN => false | _ => true end.

(** The rows of a column kept by a boolean mask. *)
Fixpoint keep (mask : list bool) (v : list Cell) : list Cell :=
  match mask, v with
  | b :: mask', c :: v' => if b then c :: keep mask' v' else keep mask' v'
  | _, _ => []
  end.

(** [df.dropna(subset=[name])]. *)
Definition dropna (name : string) (df : DataFrame) : Result DataFrame :=
  col <- get_column name df ;;
  Ok (map (fun c => (fst c, keep (map notna col) (snd c))) df).

(** The numeric values of a column, once no cell is missing. *)
Fixpoint values (col : list Cell) : list R :=
  match col with
  | [] => []
  | Num x :: rest => x :: values rest
  | _ :: rest => values rest
  end.

(** The specification's rule of discovery: the name of the column holds
    "heart" or "bpm", whatever the case of the letters. *)
Definition names_heart_rate (col : string) : Prop :=
  occurs_ignoring_case "heart" col \/ occurs_ignoring_case "bpm" col.

(** No column is called "heart_rate" and none is discovered by the rule. *)
Definition no_heart_rate_column (df : DataFrame) : Prop :=
  forall c, In c df -> fst c <> "heart_rate" /\ ~ names_heart_rate (fst c).

(** [col] is the heart-rate column of [df]: the one called "heart_rate",
    else the first one the rule of discovery accepts. *)
Definition heart_rate_column (df : DataFrame) (col : list Cell) : Prop :=
  get_column "heart_rate" df = Ok col \/
  ((forall c, In c df -> fst c <> "heart_rate") /\
   exists before name after,
     df = (before ++ (name, col) :: after)%list /\ names_heart_rate name /\
     forall c, In c before -> ~ names_heart_rate (fst c)).

(** [len(df)]: the number of rows. *)
Definition len (df : DataFrame) : nat :=
  match df with
  | [] => 0%nat
  | (_, v) :: _ => List.length v
  end.

(** The integer nearest to a real that is not negative, ties to even. *)
Definition round_half_even_R (x : R) : Z :=
  let f := Int_part x in
  let r := frac_part x in
  if Rlt_dec r (1 / 2) then f
  else if Rlt_dec (1 / 2) r then (f + 1)%Z
  else if Z.even f then f else (f + 1)%Z.

(** [f"{x:.1f}"]. *)
Definition format_1f (x : R) : string :=
  fixed_point (if Rlt_dec x 0 then true else false)
              (round_half_even_R (Rabs x * 10)) 1.

(** The running pair [(stress_score, stress_indicators)]. *)
Definition Tally : Type := (Z * list string)%type.

(** Lines 67-71. *)
Definition mean_hr_step (m : HRVMetrics) (t : Tally) : Tally :=
  if Rgt_dec (mean_hr m) 90 then
    ((fst t + 3)%Z,
     (snd t ++ [("Elevated mean HR (" ++ format_1f (mean_hr m) ++ " BPM)")%string])%list)
  else if Rgt_dec (mean_hr m) 80 then ((fst t + 2)%Z, snd t)
  else t.

(** Lines 73-77. *)
Definition rmssd_step (m : HRVMetrics) (t : Tally) : Tally :=
  if Rlt_dec (rmssd m) 15 then
    ((fst t + 3)%Z,
     (snd t ++ [("Very low HRV (RMSSD: " ++ format_1f (rmssd m) ++ " ms)")%string])%list)
  else if Rlt_dec (rmssd m) 25 then ((fst t + 2)%Z, snd t)
  else t.

(** Lines 79-81. *)
Definition sdnn_step (m : HRVMetrics) (t : Tally) : Tally :=
  if Rlt_dec (sdnn m) 40 then
    ((fst t + 2)%Z,
     (snd t ++ [("Low SDNN (" ++ format_1f (sdnn m) ++ " ms)")%string])%list)
  else t.

(** Lines 83-88. *)
Definition level_of (score : Z) : StressLevel :=
  if (score >=? 7)%Z then High
  else if (score >=? 4)%Z then ModerateStress
  else Low.

(** Lines 64-96: the classification of a metrics record, with the number of
    samples it was computed from. *)
Definition classify_stress (m : HRVMetrics) (n : nat) : StressResult :=
  let t := sdnn_step m (rmssd_step m (mean_hr_step m (0%Z, []))) in
  {| metrics := m;
     stress_score := fst t;
     stress_level := level_of (fst t);
     stress_indicators := snd t;
     data_points := n |}.

Section WithFile.

(** [pd.read_csv]: the table of a path, or an exception (no such file, no
    rows that parse). *)
Variable read_csv : string -> Result DataFrame.

(** The number a string cell parses to, if any ([pd.to_numeric]). *)
Variable parse_number : string -> option R.

(** [pd.to_numeric(column, errors='coerce')] on one cell. *)
Definition to_numeric (c : Cell) : Cell :=
  match c with
  | Num x => Num x
  | Str s => match parse_number s with Some x => Num x | None => NaN end
  | NaN => NaN
  end.

(** Lines 10-14: a frame without a column "heart_rate" gets one, copied
    from the first column whose name holds "heart" or "bpm". *)
Definition discover_column (df : DataFrame) : DataFrame :=
  if has_column "heart_rate" df then df
  else match find_heart_column df with
       | Some v => set_column "heart_rate" v df
       | None => df
       end.

(** Lines 16-18: drop the missing cells, coerce, drop again. *)
Definition coerce_and_drop (df : DataFrame) : Result DataFrame :=
  df <- dropna "heart_rate" df ;;
  col <- get_column "heart_rate" df ;;
  let df := set_column "heart_rate" (map to_numeric col) df in
  dropna "heart_rate" df.

(** The body of the [try] of [load_heart_rate_data]. *)
Definition load_body (csv_path : string) : Result DataFrame :=
  df <- read_csv csv_path ;;
  coerce_and_drop (discover_column df).

(** The cells of a heart-rate column that are left at the end of
    [coerce_and_drop]. *)
Definition valid_cells (col : list Cell) : list Cell :=
  filter notna (map to_numeric (filter notna col)).

Definition load_heart_rate_data (csv_path : string) : option DataFrame :=
  try_or_none (load_body csv_path).

(** [analyze_cardiovascular_stress]: [Ok None] is the absent result,
    [Raise] an exception that reaches the caller. *)
Definition analyze_cardiovascular_stress (csv_path : string)
  : Result (option StressResult) :=
  match load_heart_rate_data csv_path with
  | None => Ok None
  | Some df =>
      if (len df =? 0)%nat then Ok None
      else
        col <- get_column "heart_rate" df ;;
        let heart_rates := values col in
        match calculate_hrv_metrics heart_rates with
        | None => Ok None
        | Some m => Ok (Some (classify_stress m (List.length heart_rates)))
        end
  end.

End WithFile.

(** *** Sample inputs *)

(** Mean HR 95, RMSSD 10 and SDNN 30. *)
Definition strained_metrics : HRVMetrics :=
  {| sdnn := 30; rmssd := 10; pnn50 := 0;
     mean_hr := 95; max_hr := 100; min_hr := 90; hr_range := 10 |}.

(** A table whose heart-rate column is found by its name and holds no
    number. *)
Definition table_without_numbers : DataFrame :=
  [("time", [Str "08:00"; Str "08:01"]); ("Heart BPM", [Str "n/a"; NaN])].

(** A file system with that table at every path but one. *)
Definition sample_read_csv (csv_path : string) : Result DataFrame :=
  if String.eqb csv_path "missing.csv" then Raise ReadError
  else Ok table_without_numbers.

(** A parser for which no string is a number. *)
Definition parse_nothing (s : string) : option R := None.

End Cardio.

(** ** The HRV metrics in float64 ([calculate_hrv_metrics]) *)

Module Float64.
Import PrimFloat.

Local Open Scope float_scope.

(** *** numpy on one-dimensional float64 arrays

    Every operation is the IEEE 754 binary64 one, rounded to nearest, ties
    to even: Rocq's primitive floats.  An array is the list of its
    elements. *)

(** The float64 of a count (a Python [int] or a numpy [int64] that is not
    negative), as a division by [len(a)] converts it.  Counts are below
    [2^63], the bound of numpy's sizes. *)
Definition float_of_nat (n : nat) : float :=
  of_uint63 (Uint63.of_Z (Z.of_nat n)).

(** The second branch of numpy's [pairwise_sum]
    ([numpy/_core/src/umath/loops_utils.h.src]), for 8 to 128 elements:
    eight running sums [r[0..7]] take the elements eight by eight, are added
    as [((r0+r1)+(r2+r3))+((r4+r5)+(r6+r7))], and the elements left over are
    added one by one. *)
Fixpoint pairwise_blocks (r0 r1 r2 r3 r4 r5 r6 r7 : float) (a : list float)
  : float :=
  match a with
  | a0 :: a1 :: a2 :: a3 :: a4 :: a5 :: a6 :: a7 :: a' =>
      pairwise_blocks (r0 + a0) (r1 + a1) (r2 + a2) (r3 + a3)
                      (r4 + a4) (r5 + a5) (r6 + a6) (r7 + a7) a'
  | _ => fold_left add a (((r0 + r1) + (r2 + r3)) + ((r4 + r5) + (r6 + r7)))
  end.

(** [pairwise_sum]: fewer than 8 elements are added from left to right,
    starting from 0; 8 to 128 elements by [pairwise_blocks]; a longer array
    is cut at [n2 = n/2 - (n/2) % 8] and the sums of the two parts are
    added.  [depth] bounds the number of nested cuts. *)
Fixpoint pairwise_sum_upto (depth : nat) (a : list float) : float :=
  let n := List.length a in
  if (n <? 8)%nat then fold_left add a 0
  else if (n <=? 128)%nat then
    match a with
    | a0 :: a1 :: a2 :: a3 :: a4 :: a5 :: a6 :: a7 :: a' =>
        pairwise_blocks a0 a1 a2 a3 a4 a5 a6 a7 a'
    | _ => 0
    end
  else
    match depth with
    | O => 0
    | S depth' =>
        let n2 := (n / 2)%nat in
        let n2 := (n2 - n2 mod 8)%nat in
        pairwise_sum_upto depth' (firstn n2 a) + pairwise_sum_upto depth' (skipn n2 a)
    end.

(** The length of the array is depth enough: see [pairwise_sum_cut]. *)
Definition pairwise_sum (a : list float) : float :=
  pairwise_sum_upto (List.length a) a.

(** [np.sum], that is [np.add.reduce]: the sum of the array is added to the
    initial value 0.  (Releases of numpy that start both sums from [-0.0]
    give the same number, but for the sign of a zero.) *)
Definition np_sum (a : list float) : float := 0 + pairwise_sum a.

(** [np.mean]: [np.add.reduce(a) / len(a)]. *)
Definition np_mean (a : list float) : float :=
  np_sum a / float_of_nat (List.length a).

(** [np.diff]: [a[i+1] - a[i]]. *)
Fixpoint np_diff (a : list float) : list float :=
  match a with
  | x :: (y :: _) as rest => (y - x) :: np_diff rest
  | _ => []
  end.

(** [np.std], with its default [ddof=0] ([_var] of [numpy/_core/_methods.py]):
    [x = a - mean(a)], [x = x * x], [sqrt(np.add.reduce(x) / len(a))]. *)
Definition np_std (a : list float) : float :=
  let arrmean := np_mean a in
  let x := map (fun v => v - arrmean) a in
  let x := map (fun v => v * v) x in
  sqrt (np_sum x / float_of_nat (List.length a)).

(** [np.sum(np.abs(d) > 50)]: the number of [True] entries. *)
Definition count_above_50 (d : list float) : nat :=
  List.length (filter (fun x => 50 <? abs x) d).

(** [np.maximum] and [np.minimum] of two numbers: a NaN on the left stays. *)
Definition maximum (a b : float) : float :=
  if (b <=? a) || is_nan a then a else b.
Definition minimum (a b : float) : float :=
  if (a <=? b) || is_nan a then a else b.

(** [np.max] and [np.min] of an array with first element [x]. *)
Definition np_max (x : float) (rest : list float) : float :=
  fold_left maximum rest x.
Definition np_min (x : float) (rest : list float) : float :=
  fold_left minimum rest x.

Record HRVMetrics : Type := mkHRV {
  sdnn : float; rmssd : float; pnn50 : float;
  mean_hr : float; max_hr : float; min_hr : float; hr_range : float
}.

(** [calculate_hrv_metrics] on a float64 array, the [values] of the column
    [heart_rate].  [60000 / heart_rates] divides 60000 by each element;
    [successive_diffs ** 2] is numpy's [square], the product of a number by
    itself; [nn50] and [len(successive_diffs)] become float64 in their
    division; [float(...)] keeps a float64 as it is. *)
Definition calculate_hrv_metrics (heart_rates : list float) : option HRVMetrics :=
  match heart_rates with
  | [] | [_] => None
  | first :: others =>
      let rr_intervals := map (fun h => 60000 / h) heart_rates in
      let successive_diffs := np_diff rr_intervals in
      let nn50 := count_above_50 successive_diffs in
      Some {| sdnn := np_std rr_intervals;
              rmssd := sqrt (np_mean (map (fun d => d * d) successive_diffs));
              pnn50 := if (0 <? List.length successive_diffs)%nat
                       then float_of_nat nn50
                            / float_of_nat (List.length successive_diffs) * 100
                       else 0;
              mean_hr := np_mean heart_rates;
              max_hr := np_max first others;
              min_hr := np_min first others;
              hr_range := np_max first others - np_min first others |}
  end.

(** *** The specification's formulas, evaluated in float64 *)

Definition spec_rr (heart_rates : list float) : list float :=
  map (fun h => 60000 / h) heart_rates.

(** The sum of the elements, in numpy's order, over their number. *)
Definition spec_mean (a : list float) : float :=
  np_sum a / float_of_nat (List.length a).

(** Population standard deviation: the square root of the mean of the
    squared distances to the mean. *)
Definition spec_population_std (a : list float) : float :=
  sqrt (spec_mean (map (fun x => (x - spec_mean a) * (x - spec_mean a)) a)).

(** The differences [a[i+1] - a[i]], by index. *)
Definition spec_successive (a : list float) : list float :=
  map (fun i => nth (S i) a 0 - nth i a 0) (seq 0 (List.length a - 1)).

Definition spec_rmssd (a : list float) : float :=
  sqrt (spec_mean (map (fun d => d * d) (spec_successive a))).

(** The share of the successive differences above 50 in absolute value,
    times 100. *)
Definition spec_pnn50 (a : list float) : float :=
  float_of_nat (List.length (filter (fun d => 50 <? abs d) (spec_successive a)))
  / float_of_nat (List.length (spec_successive a)) * 100.

(** [m] is an element of [a] that no element exceeds (that exceeds none). *)
Definition is_max (m : float) (a : list float) : Prop :=
  In m a /\ forall x, In x a -> (x <=? m) = true.
Definition is_min (m : float) (a : list float) : Prop :=
  In m a /\ forall x, In x a -> (m <=? x) = true.

(** No element of the array is a NaN. *)
Definition no_nan (a : list float) : Prop :=
  forall x, In x a -> is_nan x = false.

(** Whether [n] samples of [bpm] have SDNN, RMSSD and pNN50 equal to 0 and
    their mean equal to [bpm]. *)
Definition is_flat (bpm : float) (n : nat) : bool :=
  match calculate_hrv_metrics (repeat bpm n) with
  | Some m =>
      Leibniz.eqb (sdnn m) 0 && Leibniz.eqb (rmssd m) 0 &&
      Leibniz.eqb (pnn50 m) 0 && Leibniz.eqb (mean_hr m) bpm
  | None => false
  end.

(** *** The score of [analyze_cardiovascular_stress] on these metrics

    Lines 64-88 without the indicator texts.  A comparison with a NaN is
    false, so a metric that is a NaN adds nothing to the score. *)

Definition stress_score (m : HRVMetrics) : Z :=
  let stress_score := 0%Z in
  let stress_score :=
    if 90 <? mean_hr m then (stress_score + 3)%Z
    else if 80 <? mean_hr m then (stress_score + 2)%Z
    else stress_score in
  let stress_score :=
    if rmssd m <? 15 then (stress_score + 3)%Z
    else if rmssd m <? 25 then (stress_score + 2)%Z
    else stress_score in
  if sdnn m <? 40 then (stress_score + 2)%Z else stress_score.

Definition stress_level (m : HRVMetrics) : Cardio.StressLevel :=
  Cardio.level_of (stress_score m).

End Float64.

(** ** Vocal emotion of an audio chunk ([analyze_audio_chunk]) *)

Module Audio.
Import Text Cardio.

(** What a client may send as audio: a string (base64, possibly a data
    URL), raw bytes, or anything else (a missing field, a number, a list). *)
Inductive AudioBlob : Type :=
  | BlobStr (s : string)
  | BlobBytes (b : list Z)
  | BlobOther.

(** [s.split(",")[1]] for a string that contains a comma: the text between
    the first comma and the next one. *)
Fixpoint until_comma (s : string) : string :=
  match s with
  | EmptyString => EmptyString
  | String c s' => if Ascii.eqb c "," then EmptyString else String c (until_comma s')
  end.

Fixpoint after_comma (s : string) : string :=
  match s with
  | EmptyString => EmptyString
  | String c s' => if Ascii.eqb c "," then s' else after_comma s'
  end.

Definition second_field (s : string) : string := until_comma (after_comma s).

(** [np.frombuffer(audio_bytes, dtype=np.int16)]: signed 16-bit samples,
    low byte first as on a little-endian machine; a buffer of odd length
    raises [ValueError].  The kind of an exception is not kept here: every
    one is caught by the same [except Exception]. *)
Definition int16_of (lo hi : Z) : Z :=
  let u := (lo + 256 * hi)%Z in
  if (u <? 32768)%Z then u else (u - 65536)%Z.

Fixpoint frombuffer (bytes : list Z) : Result (list Z) :=
  match bytes with
  | [] => Ok []
  | [_] => Raise ReadError
  | lo :: hi :: rest =>
      match frombuffer rest with
      | Ok samples => Ok (int16_of lo hi :: samples)
      | Raise e => Raise e
      end
  end.

(** [.astype(np.float32)] then [audio_data /= 32768.0]: both exact. *)
Definition normalise (samples : list Z) : list Q :=
  map (fun z => (inject_Z z / 32768)%Q) samples.

(** A byte is a number from 0 to 255. *)
Definition is_byte (b : Z) : Prop := (0 <= b < 256)%Z.

Section WithModel.

(** The feature vector of the classifier. *)
Variable Features : Type.

(** [MODEL_LOADED]: whether the two model files were found at import. *)
Variable MODEL_LOADED : bool.

(** [base64.b64decode]. *)
Variable b64decode : string -> Result (list Z).

(** The 80 MFCC statistics librosa computes. *)
Variable mfcc_statistics : list Q -> Result Features.

(** [scaler.transform]. *)
Variable scaler_transform : Features -> Result Features.

(** [clf.predict(features)[0]]. *)
Variable clf_predict : Features -> Result string.

(** [extract_features_from_audio]: [None] after any exception. *)
Definition extract_features_from_audio (audio_data : list Q) : option Features :=
  try_or_none
    (match mfcc_statistics audio_data with
     | Ok features => if MODEL_LOADED then scaler_transform features else Ok features
     | Raise e => Raise e
     end).

(** [predict_vocal_emotion]. *)
Definition predict_vocal_emotion (features : option Features) : string :=
  match features with
  | None => "neutral"
  | Some f =>
      if negb MODEL_LOADED then "neutral"
      else match clf_predict f with
           | Ok label => lower label
           | Raise _ => "neutral"
           end
  end.

(** The body of the [try] of [analyze_audio_chunk]. *)
Definition analyze_body (audio_blob : AudioBlob) : Result string :=
  match
    match audio_blob with
    | BlobStr s => b64decode (if contains s "," then second_field s else s)
    | BlobBytes b => Ok b
    | BlobOther => Raise ReadError
    end
  with
  | Raise e => Raise e
  | Ok audio_bytes =>
      match frombuffer audio_bytes with
      | Raise e => Raise e
      | Ok samples =>
          Ok (predict_vocal_emotion (extract_features_from_audio (normalise samples)))
      end
  end.

(** [analyze_audio_chunk]. *)
Definition analyze_audio_chunk (audio_blob : AudioBlob) : string :=
  match analyze_body audio_blob with
  | Ok label => label
  | Raise _ => "neutral"
  end.

End WithModel.

End Audio.

(** ** The in-memory sessions and the real-time handlers of [src/app.py] *)

Module Sessions.
Import Text Cardio Audio.

(** [str(n)] for an integer. *)
Definition str_of_int (n : Z) : string := NilZero.string_of_int (Z.to_int n).

(** One entry of a facial timeline: the reading of a frame and the time
    stamp the client sent with it. *)
Record FacialEvent : Type := mkFacialEvent {
  dominant_emotion : string;
  confidence : Q;
  timestamp : Z
}.

(** The dict stored for a session by [create_session_data]. *)
Record SessionData : Type := mkSessionData {
  user_id : Z;
  start_time : Z;
  facial_timeline : list FacialEvent;
  vocal_timeline : list string;
  audio_chunks : list AudioBlob;
  transcribed_texts : list (option string);
  voice_responses : list string;
  has_cardiovascular : bool;
  cv_data : option Cardio.StressResult
}.

(** [active_sessions]: a dict from session ids to session data. *)
Definition Store : Type := list (string * SessionData).

(** [active_sessions.get(key)]. *)
Fixpoint get (key : string) (store : Store) : option SessionData :=
  match store with
  | [] => None
  | (k, v) :: rest => if String.eqb k key then Some v else get key rest
  end.

(** [active_sessions[key] = value]. *)
Fixpoint set (key : string) (value : SessionData) (store : Store) : Store :=
  match store with
  | [] => [(key, value)]
  | (k, v) :: rest =>
      if String.eqb k key then (k, value) :: rest
      else (k, v) :: set key value rest
  end.

(** [del active_sessions[key]] for a key that may be absent. *)
Fixpoint remove (key : string) (store : Store) : Store :=
  match store with
  | [] => []
  | (k, v) :: rest =>
      if String.eqb k key then remove key rest else (k, v) :: remove key rest
  end.

(** The keys are distinct, as in every dict. *)
Definition is_dict (store : Store) : Prop := NoDup (map fst store).

(** The session [create_session_data] stores. *)
Definition new_session (user : Z) (utcnow : Z) : SessionData :=
  {| user_id := user; start_time := utcnow;
     facial_timeline := []; vocal_timeline := []; audio_chunks := [];
     transcribed_texts := []; voice_responses := [];
     has_cardiovascular := false; cv_data := None |}.

(** [f"{user_id}_{int(time.time())}"]. *)
Definition session_id_of (user : Z) (seconds : Z) : string :=
  str_of_int user ++ "_" ++ str_of_int seconds.

(** [create_session_data]: [seconds] is [int(time.time())] and [utcnow]
    the reading of [datetime.utcnow()]. *)
Definition create_session_data (user seconds utcnow : Z) (store : Store)
  : string * Store :=
  let session_id := session_id_of user seconds in
  (session_id, set session_id (new_session user utcnow) store).

Definition get_session_data (session_id : string) (store : Store)
  : option SessionData := get session_id store.

Definition clear_session_data (session_id : string) (store : Store) : Store :=
  match get session_id store with
  | Some _ => remove session_id store
  | None => store
  end.

(** The payload of a real-time event: [data.get('session_id')], the frame,
    audio or text it carries, and [data.get('timestamp', 0)]. *)
Record EventData (Payload : Type) : Type := mkEvent {
  event_session : option string;
  event_payload : Payload;
  event_timestamp : Z
}.
Arguments mkEvent {Payload} _ _ _.
Arguments event_session {Payload} _.
Arguments event_payload {Payload} _.
Arguments event_timestamp {Payload} _.

(** What a handler sends back with [emit]. *)
Inductive Emission : Type :=
  | FacialEmotion (room emotion : string) (confidence : Q) (timestamp : Z)
  | VocalEmotion (room emotion : string) (timestamp : Z)
  | SentimentResult (room : string) (polarity subjectivity : Q)
                    (positive_words negative_words : Z) (timestamp : Z)
  | JoinedSession (session_id : string)
  | InvalidSession.

(** The guard [if not session_id or session_id not in active_sessions:
    return] read positively: the id and the data of the session the event
    is for. *)
Definition addressed (session_id : option string) (store : Store)
  : option (string * SessionData) :=
  match session_id with
  | None | Some EmptyString => None
  | Some id =>
      match get id store with
      | Some data => Some (id, data)
      | None => None
      end
  end.

Definition append_facial (e : FacialEvent) (s : SessionData) : SessionData :=
  {| user_id := user_id s; start_time := start_time s;
     facial_timeline := facial_timeline s ++ [e];
     vocal_timeline := vocal_timeline s; audio_chunks := audio_chunks s;
     transcribed_texts := transcribed_texts s;
     voice_responses := voice_responses s;
     has_cardiovascular := has_cardiovascular s; cv_data := cv_data s |}.

Definition append_vocal (label : string) (blob : AudioBlob) (s : SessionData)
  : SessionData :=
  {| user_id := user_id s; start_time := start_time s;
     facial_timeline := facial_timeline s;
     vocal_timeline := vocal_timeline s ++ [label];
     audio_chunks := audio_chunks s ++ [blob];
     transcribed_texts := transcribed_texts s;
     voice_responses := voice_responses s;
     has_cardiovascular := has_cardiovascular s; cv_data := cv_data s |}.

Definition append_text (text : option string) (s : SessionData) : SessionData :=
  {| user_id := user_id s; start_time := start_time s;
     facial_timeline := facial_timeline s;
     vocal_timeline := vocal_timeline s; audio_chunks := audio_chunks s;
     transcribed_texts := transcribed_texts s ++ [text];
     voice_responses := voice_responses s;
     has_cardiovascular := has_cardiovascular s; cv_data := cv_data s |}.

Section WithCapabilities.

(** The frame a client sends, and [analyze_base64_frame]: the dominant
    emotion and its confidence, nothing when no face is found, or an
    exception. *)
Variable Frame : Type.
Variable analyze_base64_frame : Frame -> Result (option (string * Q)).

(** [analyze_audio_chunk], with its model fixed. *)
Variable vocal_emotion_of : AudioBlob -> string.

(** TextBlob, as in the scorer. *)
Variable textblob_sentiment : string -> option Scoring.Sentiment.

(** [handle_join_assessment]. *)
Definition handle_join_assessment (session_id : option string) (store : Store)
  : Store * list Emission :=
  match addressed session_id store with
  | Some (id, _) => (store, [JoinedSession id])
  | None => (store, [InvalidSession])
  end.

(** [handle_video_frame]. *)
Definition handle_video_frame (data : EventData Frame) (store : Store)
  : Store * list Emission :=
  match addressed (event_session data) store with
  | None => (store, [])
  | Some (id, session_data) =>
      match analyze_base64_frame (event_payload data) with
      | Ok (Some (emotion, conf)) =>
          let result := mkFacialEvent emotion conf (event_timestamp data) in
          (set id (append_facial result session_data) store,
           [FacialEmotion id emotion conf (event_timestamp data)])
      | Ok None => (store, [])
      | Raise _ => (store, [])
      end
  end.

(** [handle_audio_chunk]. *)
Definition handle_audio_chunk (data : EventData AudioBlob) (store : Store)
  : Store * list Emission :=
  match addressed (event_session data) store with
  | None => (store, [])
  | Some (id, session_data) =>
      let vocal_emotion := vocal_emotion_of (event_payload data) in
      match vocal_emotion with
      | EmptyString => (store, [])
      | _ =>
          (set id (append_vocal vocal_emotion (event_payload data) session_data) store,
           [VocalEmotion id vocal_emotion (event_timestamp data)])
      end
  end.

(** [handle_analyze_text]: the text is stored first; a missing text then
    makes [analyze_sentiment] raise, and the handler's [except] ends it
    without an emission. *)
Definition handle_analyze_text (data : EventData (option string)) (store : Store)
  : Store * list Emission :=
  match addressed (event_session data) store with
  | None => (store, [])
  | Some (id, session_data) =>
      let store := set id (append_text (event_payload data) session_data) store in
      match event_payload data with
      | None => (store, [])
      | Some text =>
          let sentiment := Scoring.analyze_sentiment textblob_sentiment text in
          (store,
           [SentimentResult id (Scoring.polarity sentiment)
              (Scoring.subjectivity sentiment)
              (Keywords.pos_count text) (Keywords.neg_count text)
              (event_timestamp data)])
      end
  end.

(** What can happen to the store. *)
Inductive Event : Type :=
  | Created (user seconds utcnow : Z)
  | Joined (session_id : option string)
  | VideoFrame (data : EventData Frame)
  | AudioChunk (data : EventData AudioBlob)
  | AnalyzeText (data : EventData (option string))
  | Cleared (session_id : string).

Definition step (store : Store) (e : Event) : Store :=
  match e with
  | Created user seconds utcnow => snd (create_session_data user seconds utcnow store)
  | Joined session_id => fst (handle_join_assessment session_id store)
  | VideoFrame data => fst (handle_video_frame data store)
  | AudioChunk data => fst (handle_audio_chunk data store)
  | AnalyzeText data => fst (handle_analyze_text data store)
  | Cleared session_id => clear_session_data session_id store
  end.

(** The store after a sequence of events, from the empty dict. *)
Definition run (events : list Event) : Store := fold_left step events [].

(** The events served by the four real-time handlers. *)
Definition real_time (e : Event) : bool :=
  match e with
  | Created _ _ _ | Cleared _ => false
  | _ => true
  end.

(** The session id a real-time event carries. *)
Definition event_target (e : Event) : option string :=
  match e with
  | Joined session_id => session_id
  | VideoFrame data => event_session data
  | AudioChunk data => event_session data
  | AnalyzeText data => event_session data
  | Created user seconds _ => Some (session_id_of user seconds)
  | Cleared session_id => Some session_id
  end.

End WithCapabilities.

(** [later] is [earlier] with at most one more entry at the end of each
    timeline and nothing else changed. *)
Definition extends (earlier later : SessionData) : Prop :=
  user_id later = user_id earlier /\ start_time later = start_time earlier /\
  (exists f, facial_timeline later = (facial_timeline earlier ++ f)%list /\
             (List.length f <= 1)%nat) /\
  (exists v, vocal_timeline later = (vocal_timeline earlier ++ v)%list /\
             (List.length v <= 1)%nat) /\
  (exists a, audio_chunks later = (audio_chunks earlier ++ a)%list /\
             (List.length a <= 1)%nat) /\
  (exists t, transcribed_texts later = (transcribed_texts earlier ++ t)%list /\
             (List.length t <= 1)%nat).

(** A vocal label as the handlers store it: not empty, in lower case. *)
Definition clean_label (label : string) : Prop :=
  label <> "" /\ lower label = label.

(** What holds of every session a run of events can produce. *)
Definition session_ok (s : SessionData) : Prop :=
  List.length (vocal_timeline s) = List.length (audio_chunks s) /\
  voice_responses s = [] /\ has_cardiovascular s = false /\ cv_data s = None.

(** Every stored session is as [session_ok] says and holds clean vocal
    labels only. *)
Definition sessions_ok (store : Store) : Prop :=
  forall id s, get id store = Some s ->
    session_ok s /\ Forall clean_label (vocal_timeline s).

(** *** Sample inputs *)

(** A frame analyser that always reads a happy face. *)
Definition sees_happy (frame : unit) : Result (option (string * Q)) :=
  Ok (Some ("happy", 9 # 10)).

(** The audio analysis when the model files were not found. *)
Definition without_model : AudioBlob -> string :=
  analyze_audio_chunk unit false
    (fun _ => Raise ReadError) (fun _ => Ok tt) (fun f => Ok f)
    (fun _ => Ok "Sad").

(** User 7 starts a session at second 100, then a frame, an audio chunk and
    a text arrive for it. *)
Definition sample_events : list (Event unit) :=
  [Created unit 7 100 0;
   VideoFrame unit (mkEvent (Some "7_100") tt 1);
   AudioChunk unit (mkEvent (Some "7_100") BlobOther 2);
   AnalyzeText unit (mkEvent (Some "7_100") (Some "I am tired") 3)].

Definition sample_session : SessionData :=
  {| user_id := 7; start_time := 0;
     facial_timeline := [mkFacialEvent "happy" (9 # 10) 1];
     vocal_timeline := ["neutral"]; audio_chunks := [BlobOther];
     transcribed_texts := [Some "I am tired"]; voice_responses := [];
     has_cardiovascular := false; cv_data := None |}.

End Sessions.

(** ** Tables with as many cells in every column *)

Module Table.
Import Cardio.




End Table.

(** ** Small helpers of [src/app.py] and the caption of [process_frame] *)

Module Helpers.
Import Text.

(** [filename.rsplit('.', 1)[1]]: the text after the last dot; [None]
    stands for the [IndexError] of a name without a dot. *)
Fixpoint after_last_dot (filename : string) : option string :=
  match filename with
  | EmptyString => None
  | String c rest =>
      match after_last_dot rest with
      | Some extension => Some extension
      | None => if Ascii.eqb c "." then Some rest else None
      end
  end.

(** [allowed_file]: the [and] evaluates its right side only for a name with
    a dot. *)
Definition allowed_file (filename : string) (allowed_extensions : list string)
  : bool :=
  if contains filename "." then
    match after_last_dot filename with
    | Some extension => Report.member (lower extension) allowed_extensions
    | None => false
    end
  else false.

(** [max(emotions, key=emotions.get)] with [emotions[dominant_emotion]]:
    the first item of the dict that no later item beats; [None] stands for
    the [ValueError] of an empty dict. *)
Fixpoint max_by_score (best : string * Q) (items : list (string * Q))
  : string * Q :=
  match items with
  | [] => best
  | item :: rest =>
      max_by_score (if Qlt_le_dec (snd best) (snd item) then item else best) rest
  end.

Definition dominant (emotions : list (string * Q)) : option (string * Q) :=
  match emotions with
  | [] => None
  | first :: rest => Some (max_by_score first rest)
  end.

(** The text [process_frame] writes above a face:
    [f"{dominant_emotion}: {confidence:.2f}"]. *)
Definition caption (emotions : list (string * Q)) : option string :=
  match dominant emotions with
  | Some (emotion, conf) => Some (emotion ++ ": " ++ format_2f conf)
  | None => None
  end.

(** The figures of [dashboard] from the totals of the user's assessments,
    latest first: their number, the latest total and the average.  The
    average is the exact quotient, which Python rounds to a float. *)
Definition dashboard (totals : list Z) : nat * option Z * Q :=
  let total_assessments := List.length totals in
  if (0 <? total_assessments)%nat then
    (total_assessments, hd_error totals,
     (inject_Z (fold_left Z.add totals 0%Z)
      / inject_Z (Z.of_nat total_assessments))%Q)
  else (total_assessments, None, 0%Q).

End Helpers.

(** ** The submission of an assessment ([process_voice_assessment_submission]) *)

Module Submission.
Import Text Cardio Sessions.

(** The JSON of the form field [assessment_data]: the answers
    ([response_data.get('response', '')] of each entry) and the two time
    stamps in milliseconds, when they are there. *)
Record VoiceData : Type := mkVoiceData {
  responses : list string;
  startTime : option Z;
  endTime : option Z
}.

(** Truthiness of an optional number: [None] and [0] are false. *)
Definition nonzero (o : option Z) : option Z :=
  match o with
  | Some 0%Z => None
  | other => other
  end.

(** Lines 330-332: [int((endTime - startTime) / 1000)], which truncates
    towards zero; the float quotient is exact enough for the truncation
    below 2^53 milliseconds. *)
Definition duration_of (voice_data : VoiceData) : option Z :=
  match nonzero (startTime voice_data), nonzero (endTime voice_data) with
  | Some started, Some ended => Some (Z.quot (ended - started) 1000)
  | _, _ => None
  end.

(** [' '.join(...)]. *)
Definition full_transcript_of (answers : list string) : string :=
  String.concat " " answers.

(** The message flashed with a redirection to the assessment page. *)
Inductive Flash : Type := SessionExpired | NoAssessmentData | ProcessingError.

(** Where the request ends. *)
Inductive Outcome : Type :=
  | Results (assessment_id : Z)
  | BackToAssessment (message : Flash).

Section WithCollaborators.

(** What [aggregate_emotions] of the facial module returns, with the two
    entries the submission copies out of it. *)
Variable FacialResults : Type.
Variable results_dominant_emotion : FacialResults -> string.
Variable results_confidence : FacialResults -> Q.
Variable aggregate_emotions : list FacialEvent -> Result FacialResults.

Variable textblob_sentiment : string -> option Scoring.Sentiment.

(** [json.loads] of the form field, with the shape the code expects. *)
Variable json_loads : string -> Result VoiceData.

(** What reading [phq9_q9] gives when fewer than nine answers were scored:
    the number the model class puts there, or the exception of comparing
    nothing with 1. *)
Variable unset_phq9_q9 : Result Z.

(** The row built for the database. *)
Record AssessmentRow : Type := mkRow {
  row_user_id : Z;
  phq9_items : list Z;
  row_phq9_total : Z;
  facial_results : option FacialResults;
  row_vocal_dominant_emotion : option string;
  transcribed_text : option string;
  row_sentiment : option Scoring.Sentiment;
  session_duration : option Z;
  severity_level : Report.Severity;
  recommendations_text : string
}.

(** [db.session.add] and [db.session.commit]: the id of the new row. *)
Variable db_commit : AssessmentRow -> Result Z.

(** The view [generate_recommendations] has of the row.  Item 9 is read
    only under the last branch of the guidance (line 569), that is for a
    total above 14. *)
Definition recommend (total : Z) (items : list Z)
           (facial vocal : option string) (polarity : option Q)
  : Result (Report.Severity * string) :=
  if (total <=? 14)%Z then
    Ok (Report.generate_recommendations
          (Report.mkAssessment total 0 facial vocal polarity))
  else
    match
      match nth_error items 8 with
      | Some q9 => Ok q9
      | None => unset_phq9_q9
      end
    with
    | Ok q9 =>
        Ok (Report.generate_recommendations
              (Report.mkAssessment total q9 facial vocal polarity))
    | Raise e => Raise e
    end.

(** Lines 272-337: the row of a user from the decoded form and the data of
    the session. *)
Definition build_row (user : Z) (voice_data : VoiceData)
           (session_data : SessionData) : Result AssessmentRow :=
  let answers := responses voice_data in
  let items := Scoring.item_scores textblob_sentiment answers in
  let total := Scoring.phq9_total_of textblob_sentiment answers in
  match
    match facial_timeline session_data with
    | [] => Ok None
    | timeline =>
        match aggregate_emotions timeline with
        | Ok results => Ok (Some results)
        | Raise e => Raise e
        end
    end
  with
  | Raise e => Raise e
  | Ok facial =>
      match
        match vocal_timeline session_data with
        | [] => Ok None
        | timeline =>
            match Vocal.aggregate_vocal_emotions timeline with
            | Some label => Ok (Some label)
            | None => Raise ReadError
            end
        end
      with
      | Raise e => Raise e
      | Ok vocal =>
          let full_transcript := full_transcript_of answers in
          let sentiment :=
            match full_transcript with
            | EmptyString => None
            | _ => Some (Scoring.analyze_sentiment textblob_sentiment full_transcript)
            end in
          match
            recommend total items (option_map results_dominant_emotion facial)
                      vocal (option_map Scoring.polarity sentiment)
          with
          | Raise e => Raise e
          | Ok (severity, text) =>
              Ok {| row_user_id := user; phq9_items := items;
                    row_phq9_total := total; facial_results := facial;
                    row_vocal_dominant_emotion := vocal;
                    transcribed_text :=
                      match full_transcript with
                      | EmptyString => None
                      | _ => Some full_transcript
                      end;
                    row_sentiment := sentiment;
                    session_duration := duration_of voice_data;
                    severity_level := severity;
                    recommendations_text := text |}
          end
      end
  end.

(** The state a request works on: the sessions in memory and the session id
    kept in the user's cookie. *)
Record World : Type := mkWorld {
  active_sessions : Store;
  cookie : option string
}.

(** [process_voice_assessment_submission] for the user [user] and the form
    field [assessment_data]: where the request ends, the world after it and
    the row that was committed, if one was. *)
Definition process_voice_assessment_submission
           (user : Z) (assessment_data : option string) (w : World)
  : Outcome * World * option AssessmentRow :=
  match addressed (cookie w) (active_sessions w) with
  | None => (BackToAssessment SessionExpired, w, None)
  | Some (session_id, session_data) =>
      match assessment_data with
      | None | Some EmptyString => (BackToAssessment NoAssessmentData, w, None)
      | Some assessment_json =>
          match
            match json_loads assessment_json with
            | Raise e => Raise e
            | Ok voice_data =>
                match build_row user voice_data session_data with
                | Raise e => Raise e
                | Ok row =>
                    match db_commit row with
                    | Raise e => Raise e
                    | Ok assessment_id => Ok (row, assessment_id)
                    end
                end
            end
          with
          | Ok (row, assessment_id) =>
              (Results assessment_id,
               {| active_sessions :=
                    clear_session_data session_id (active_sessions w);
                  cookie := None |},
               Some row)
          | Raise _ => (BackToAssessment ProcessingError, w, None)
          end
      end
  end.

End WithCollaborators.

(** *** Sample inputs *)

(** A decoder that reads two answers and a session of one minute. *)
Definition sample_json_loads (assessment_json : string) : Result VoiceData :=
  Ok (mkVoiceData ["never"; "quite often"] (Some 1000%Z) (Some 61999%Z)).

(** The world after the sample events, with the cookie of user 7. *)
Definition sample_world : World :=
  {| active_sessions :=
       run unit sees_happy without_model Scoring.neutral_sentiment sample_events;
     cookie := Some "7_100" |}.

(** A submission in the sample world: the facial module answers with a
    pair, reading an unset item raises, and the commit returns the id 1. *)
Definition sample_submit (user : Z) (form : option string) (w : World)
  : Outcome * World * option (AssessmentRow (string * Q)) :=
  process_voice_assessment_submission (string * Q) fst
    (fun _ => Ok ("happy", 9 # 10)) Scoring.neutral_sentiment
    sample_json_loads (Raise ReadError) (fun _ => Ok 1%Z) user form w.

End Submission.

(** ** The validation of [register] *)

Module Register.
Import Text Cardio.

(** *** Regular expressions *)

Inductive Regex : Type :=
  | Void
  | Eps
  | Chr (class : ascii -> bool)
  | Seq (r1 r2 : Regex)
  | Alt (r1 r2 : Regex)
  | Star (r : Regex).

(** [r+] and [r{2,}]. *)
Definition Plus (r : Regex) : Regex := Seq r (Star r).
Definition TwoOrMore (r : Regex) : Regex := Seq r (Plus r).


Fixpoint nullable (r : Regex) : bool :=
  match r with
  | Void => false
  | Eps => true
  | Chr _ => false
  | Seq r1 r2 => nullable r1 && nullable r2
  | Alt r1 r2 => nullable r1 || nullable r2
  | Star _ => true
  end.

(** The derivative of an expression by a character. *)
Fixpoint deriv (c : ascii) (r : Regex) : Regex :=
  match r with
  | Void => Void
  | Eps => Void
  | Chr class => if class c then Eps else Void
  | Seq r1 r2 =>
      if nullable r1 then Alt (Seq (deriv c r1) r2) (deriv c r2)
      else Seq (deriv c r1) r2
  | Alt r1 r2 => Alt (deriv c r1) (deriv c r2)
  | Star r1 => Seq (deriv c r1) (Star r1)
  end.

(** Whether the whole string is a string of the expression. *)
Fixpoint fullmatch (r : Regex) (s : string) : bool :=
  match s with
  | EmptyString => nullable r
  | String c s' => fullmatch (deriv c r) s'
  end.

(** The string without its last character, when that is a line feed. *)
Fixpoint chop_newline (s : string) : option string :=
  match s with
  | EmptyString => None
  | String c EmptyString => if Ascii.eqb c (ascii_of_nat 10) then Some "" else None
  | String c s' => option_map (String c) (chop_newline s')
  end.

(** [re.match('^' r '$', s)] as a truth value: [$] holds at the end of the
    string and also just before a line feed that ends it. *)
Definition re_match (r : Regex) (s : string) : bool :=
  fullmatch r s ||
  match chop_newline s with
  | Some s' => fullmatch r s'
  | None => false
  end.

(** *** Character classes *)

Definition in_range (lo hi : nat) (c : ascii) : bool :=
  (lo <=? nat_of_ascii c)%nat && (nat_of_ascii c <=? hi)%nat.

Definition is_letter (c : ascii) : bool := in_range 97 122 c || in_range 65 90 c.
Definition is_alnum (c : ascii) : bool := is_letter c || in_range 48 57 c.

(** [[a-zA-Z0-9_]]. *)
Definition word_char (c : ascii) : bool := is_alnum c || Ascii.eqb c "_".

(** [[a-zA-Z0-9._%+-]]. *)
Definition local_char (c : ascii) : bool :=
  is_alnum c || Ascii.eqb c "." || Ascii.eqb c "_" || Ascii.eqb c "%" ||
  Ascii.eqb c "+" || Ascii.eqb c "-".

(** [[a-zA-Z0-9.-]]. *)
Definition domain_char (c : ascii) : bool :=
  is_alnum c || Ascii.eqb c "." || Ascii.eqb c "-".

(** [^[a-zA-Z0-9_]+$]. *)
Definition username_regex : Regex := Plus (Chr word_char).

(** [^[a-zA-Z0-9._%+-]+@[a-zA-Z0-9.-]+\.[a-zA-Z]{2,}$]. *)
Definition email_regex : Regex :=
  Seq (Plus (Chr local_char))
      (Seq (Chr (Ascii.eqb "@"))
           (Seq (Plus (Chr domain_char))
                (Seq (Chr (Ascii.eqb ".")) (TwoOrMore (Chr is_letter))))).

(** *** [len] of a [str]

    A text is held as the bytes of its UTF-8 encoding.  Its length is the
    number of its characters: each character is one byte that is not a
    continuation byte, followed by its continuation bytes [10xxxxxx], 128 to
    191.  For an ASCII text this is the number of bytes. *)

Definition is_continuation (c : ascii) : bool := in_range 128 191 c.

Fixpoint len (s : string) : nat :=
  match s with
  | EmptyString => 0
  | String c s' => (if is_continuation c then 0 else 1) + len s'
  end.

(** *** [str.strip] *)

Fixpoint lstrip (s : string) : string :=
  match s with
  | EmptyString => EmptyString
  | String c s' => if is_space c then lstrip s' else s
  end.

Fixpoint rstrip (s : string) : string :=
  match s with
  | EmptyString => EmptyString
  | String c s' =>
      match rstrip s' with
      | EmptyString => if is_space c then EmptyString else String c EmptyString
      | kept => String c kept
      end
  end.

Definition strip (s : string) : string := rstrip (lstrip s).

(** Every character of the string is in the class. *)
Fixpoint all_chars (class : ascii -> bool) (s : string) : bool :=
  match s with
  | EmptyString => true
  | String c s' => class c && all_chars class s'
  end.

(** *** The form *)

Record Form : Type := mkForm {
  form_username : string;
  form_email : string;
  form_password : string;
  form_confirm_password : string
}.

Section WithUsers.

(** [User.query.filter_by(username=...).first()] and the same by e-mail, as
    truth values. *)
Variable username_exists : string -> bool.
Variable email_exists : string -> bool.

(** [db.session.add(user)] and [db.session.commit()]. *)
Variable db_commit_user : string -> string -> string -> Result unit.

(** Lines 119-147: the list [errors]. *)
Definition validation_errors (form : Form) : list string :=
  let username := strip (form_username form) in
  let email := lower (strip (form_email form)) in
  let password := form_password form in
  let confirm_password := form_confirm_password form in
  ((if (len username <? 3)%nat
    then ["Username must be at least 3 characters long"] else []) ++
   (if (20 <? len username)%nat
    then ["Username must be less than 20 characters"] else []) ++
   (if negb (re_match username_regex username)
    then ["Username can only contain letters, numbers, and underscores"] else []) ++
   (if negb (re_match email_regex email)
    then ["Invalid email address"] else []) ++
   (if (len password <? 8)%nat
    then ["Password must be at least 8 characters long"] else []) ++
   (if negb (String.eqb password confirm_password)
    then ["Passwords do not match"] else []) ++
   (if username_exists username then ["Username already exists"] else []) ++
   (if email_exists email then ["Email already registered"] else []))%list.

(** Where a POST of the form ends. *)
Inductive Registration : Type :=
  | RedirectToLogin (username email : string)
  | RegisterPage (flashed : list string).

(** Lines 118-168, for a visitor who is not logged in. *)
Definition register (form : Form) : Registration :=
  match validation_errors form with
  | [] =>
      let username := strip (form_username form) in
      let email := lower (strip (form_email form)) in
      match db_commit_user username email (form_password form) with
      | Ok _ => RedirectToLogin username email
      | Raise _ => RegisterPage ["Registration failed. Please try again."]
      end
  | errors => RegisterPage errors
  end.

End WithUsers.


(** *** Sample inputs *)

Definition sample_form : Form :=
  mkForm "  mira_42 " " Mira@Example.ORG" "correct horse" "correct horse".

(** The seven characters [p a-umlaut s s w o-umlaut r], nine bytes. *)
Definition seven_characters : string :=
  String "p" (String (ascii_of_nat 195) (String (ascii_of_nat 164)
    (String "s" (String "s" (String "w" (String (ascii_of_nat 195)
      (String (ascii_of_nat 182) (String "r" EmptyString)))))))).

Definition short_password_form : Form :=
  mkForm "mira_42" "mira@example.org" seven_characters seven_characters.

Definition no_user (s : string) : bool := false.

Definition commit_ok (username email password : string) : Result unit := Ok tt.

End Register.

(** * Properties *)

(** ** Substring search *)

Section TextFacts.
Import Text.

Lemma startswith_iff (w s : string) :
  startswith w s = true <-> exists post, s = w ++ post.
Proof.
  revert s; induction w as [|a w IH]; intros s; simpl.
  - split; [intros _; now exists s | reflexivity].
  - destruct s as [|b s].
    + split; [discriminate | intros [post H]; discriminate].
    + rewrite andb_true_iff, Ascii.eqb_eq, IH. split.
      * intros [-> [post ->]]. now exists post.
      * intros [post H]. injection H as -> ->. split; [reflexivity | now exists post].
Qed.

Lemma contains_iff (s w : string) :
  contains s w = true <-> occurs_in w s.
Proof.
  unfold occurs_in. induction s as [|c s IH].
  - simpl. rewrite orb_false_r, startswith_iff. split.
    + intros [post H]. now exists "", post.
    + intros [[|a pre] [post H]]; [now exists post | discriminate].
  - cbn [contains]. rewrite orb_true_iff, startswith_iff, IH. split.
    + intros [[post H] | [pre [post H]]].
      * now exists "", post.
      * exists (String c pre), post. simpl. now rewrite H.
    + intros [[|a pre] [post H]].
      * left. now exists post.
      * right. injection H as _ H. now exists pre, post.
Qed.

Lemma lower_app (a b : string) : lower (a ++ b) = lower a ++ lower b.
Proof. induction a as [|c a IH]; simpl; [reflexivity | now rewrite IH]. Qed.

Lemma lower_split (s a b : string) :
  lower s = a ++ b -> exists a' b', s = a' ++ b' /\ lower a' = a /\ lower b' = b.
Proof.
  revert s; induction a as [|c a IH]; intros s H; simpl in H.
  - now exists "", s.
  - destruct s as [|d s]; [discriminate |]. simpl in H. injection H as Hc H.
    destruct (IH _ H) as [a' [b' [-> [Ha Hb]]]].
    exists (String d a'), b'. simpl. now rewrite Hc, Ha, Hb.
Qed.

Lemma lower_ascii_idem (c : ascii) : lower_ascii (lower_ascii c) = lower_ascii c.
Proof.
  destruct c as [[] [] [] [] [] [] [] []]; reflexivity.
Qed.

Lemma lower_idem (s : string) : lower (lower s) = lower s.
Proof.
  induction s as [|c s IH]; simpl; [reflexivity | now rewrite lower_ascii_idem, IH].
Qed.

(** The search of a lowered word in the lowered text is the
    case-insensitive search of the word in the text. *)
Lemma contains_lower_iff (s w : string) :
  contains (lower s) (lower w) = true <-> occurs_ignoring_case w s.
Proof.
  rewrite contains_iff. unfold occurs_in, occurs_ignoring_case. split.
  - intros [pre [post H]].
    destruct (lower_split _ _ _ H) as [pre' [rest [-> [Hpre Hrest]]]].
    destruct (lower_split _ _ _ Hrest) as [u [post' [-> [Hu Hpost]]]].
    now exists pre', u, post'.
  - intros [pre [u [post [-> Hu]]]].
    exists (lower pre), (lower post). now rewrite !lower_app, Hu.
Qed.

Lemma any_in_lower_iff (bucket : list string) (text : string) :
  Forall (fun w => lower w = w) bucket ->
  any_in bucket (lower text) = true <-> Scoring.bucket_matches bucket text.
Proof.
  intros Hlow. unfold any_in, Scoring.bucket_matches. rewrite existsb_exists.
  split; intros [w [Hin Hw]]; exists w; split; trivial;
    rewrite Forall_forall in Hlow; specialize (Hlow _ Hin).
  - apply contains_lower_iff. now rewrite Hlow.
  - apply contains_lower_iff in Hw. now rewrite Hlow in Hw.
Qed.

End TextFacts.

(** ** The answer scorer *)

Section ScoringFacts.
Import Text Scoring.

Variable sentiment : string -> option Sentiment.

Lemma buckets_are_lowered :
  Forall (fun w => lower w = w) (bucket0 ++ bucket1 ++ bucket2 ++ bucket3).
Proof. repeat constructor. Qed.

Lemma bucket_lowered (bucket : list string) :
  incl bucket (bucket0 ++ bucket1 ++ bucket2 ++ bucket3) ->
  Forall (fun w => lower w = w) bucket.
Proof.
  intros Hincl. apply Forall_forall. intros w Hw.
  exact (proj1 (Forall_forall _ _) buckets_are_lowered w (Hincl w Hw)).
Qed.

Lemma any_in_bucket_iff (bucket : list string) (text : string) :
  incl bucket (bucket0 ++ bucket1 ++ bucket2 ++ bucket3) ->
  any_in bucket (lower text) = true <-> bucket_matches bucket text.
Proof. intros H. apply any_in_lower_iff, bucket_lowered, H. Qed.

Lemma any_in_bucket_false (bucket : list string) (text : string) :
  incl bucket (bucket0 ++ bucket1 ++ bucket2 ++ bucket3) ->
  ~ bucket_matches bucket text -> any_in bucket (lower text) = false.
Proof.
  intros H Hno. destruct (any_in bucket (lower text)) eqn:E; [|reflexivity].
  exfalso. apply Hno. now apply any_in_bucket_iff.
Qed.

Lemma incl_bucket0 : incl bucket0 (bucket0 ++ bucket1 ++ bucket2 ++ bucket3).
Proof. apply incl_appl, incl_refl. Qed.
Lemma incl_bucket1 : incl bucket1 (bucket0 ++ bucket1 ++ bucket2 ++ bucket3).
Proof. apply incl_appr, incl_appl, incl_refl. Qed.
Lemma incl_bucket2 : incl bucket2 (bucket0 ++ bucket1 ++ bucket2 ++ bucket3).
Proof. apply incl_appr, incl_appr, incl_appl, incl_refl. Qed.
Lemma incl_bucket3 : incl bucket3 (bucket0 ++ bucket1 ++ bucket2 ++ bucket3).
Proof. apply incl_appr, incl_appr, incl_appr, incl_refl. Qed.

(** C1. For every answer, the four keyword buckets are tried in the order
    0, 1, 2, 3 by case-insensitive substring search, and the value of the
    first bucket with a word in the text is the score, whatever later
    buckets hold; "I never feel sad" scores 0. *)
Theorem score_response_first_bucket_wins (text : string) :
  (bucket_matches bucket0 text -> score_response sentiment text = 0%Z) /\
  (~ bucket_matches bucket0 text -> bucket_matches bucket1 text ->
     score_response sentiment text = 1%Z) /\
  (~ bucket_matches bucket0 text -> ~ bucket_matches bucket1 text ->
     bucket_matches bucket2 text -> score_response sentiment text = 2%Z) /\
  (~ bucket_matches bucket0 text -> ~ bucket_matches bucket1 text ->
     ~ bucket_matches bucket2 text -> bucket_matches bucket3 text ->
     score_response sentiment text = 3%Z) /\
  score_response sentiment "I never feel sad" = 0%Z.
Proof.
  unfold score_response. repeat split.
  - intros H0. apply (any_in_bucket_iff _ _ incl_bucket0) in H0. now rewrite H0.
  - intros N0 H1.
    rewrite (any_in_bucket_false _ _ incl_bucket0 N0).
    apply (any_in_bucket_iff _ _ incl_bucket1) in H1. now rewrite H1.
  - intros N0 N1 H2.
    rewrite (any_in_bucket_false _ _ incl_bucket0 N0),
            (any_in_bucket_false _ _ incl_bucket1 N1).
    apply (any_in_bucket_iff _ _ incl_bucket2) in H2. now rewrite H2.
  - intros N0 N1 N2 H3.
    rewrite (any_in_bucket_false _ _ incl_bucket0 N0),
            (any_in_bucket_false _ _ incl_bucket1 N1),
            (any_in_bucket_false _ _ incl_bucket2 N2).
    apply (any_in_bucket_iff _ _ incl_bucket3) in H3. now rewrite H3.
Qed.

(** C6, as amended. "I feel alright, nothing special" scores 0 whatever the
    polarity, since the bucket-0 word "no" is a substring of "nothing"; a
    text in which no bucket has a word takes the fallback (polarity below
    -0.3 gives 2, above 0.3 gives 0, otherwise 1), and so "I feel alright"
    with polarity 0.0 scores 1. *)
Theorem score_response_fallback (text : string) :
  let p := polarity (analyze_sentiment sentiment (lower text)) in
  score_response sentiment "I feel alright, nothing special" = 0%Z /\
  (~ bucket_matches bucket0 text -> ~ bucket_matches bucket1 text ->
   ~ bucket_matches bucket2 text -> ~ bucket_matches bucket3 text ->
     (p < - (3 # 10) -> score_response sentiment text = 2%Z) /\
     (3 # 10 < p -> score_response sentiment text = 0%Z) /\
     (- (3 # 10) <= p <= 3 # 10 -> score_response sentiment text = 1%Z)) /\
  (polarity (analyze_sentiment sentiment (lower "I feel alright")) == 0 ->
     score_response sentiment "I feel alright" = 1%Z).
Proof.
  intros p. split; [reflexivity | split].
  - intros N0 N1 N2 N3. unfold score_response.
    rewrite (any_in_bucket_false _ _ incl_bucket0 N0),
            (any_in_bucket_false _ _ incl_bucket1 N1),
            (any_in_bucket_false _ _ incl_bucket2 N2),
            (any_in_bucket_false _ _ incl_bucket3 N3).
    unfold sentiment_score. fold p.
    assert (Hlt : - (3 # 10) < 3 # 10) by reflexivity.
    destruct (Qlt_le_dec p (- (3 # 10))) as [L|L];
      [|destruct (Qlt_le_dec (3 # 10) p) as [G|G]]; repeat split; intros H;
      try reflexivity; exfalso.
    + apply (Qlt_irrefl p). eapply Qlt_trans; [exact L|].
      eapply Qlt_trans; [exact Hlt | exact H].
    + destruct H as [H _]. apply (Qlt_irrefl p). eapply Qlt_le_trans; eassumption.
    + apply (Qlt_irrefl p). eapply Qlt_le_trans; eassumption.
    + destruct H as [_ H]. apply (Qlt_irrefl p). eapply Qle_lt_trans; eassumption.
    + apply (Qlt_irrefl p). eapply Qlt_le_trans; eassumption.
    + apply (Qlt_irrefl p). eapply Qle_lt_trans; [eassumption|exact H].
  - intros H0. unfold score_response.
    change (any_in bucket0 (lower "I feel alright")) with false.
    change (any_in bucket1 (lower "I feel alright")) with false.
    change (any_in bucket2 (lower "I feel alright")) with false.
    change (any_in bucket3 (lower "I feel alright")) with false.
    cbv iota. unfold sentiment_score.
    set (q := polarity (analyze_sentiment sentiment (lower "I feel alright"))) in *.
    destruct (Qlt_le_dec q (- (3 # 10))) as [L|L].
    + exfalso. rewrite H0 in L. discriminate L.
    + destruct (Qlt_le_dec (3 # 10) q) as [G|G]; [|reflexivity].
      exfalso. rewrite H0 in G. discriminate G.
Qed.

End ScoringFacts.

(** An upper-case bucket-2 answer scores 2: no word of buckets 0 and 1
    occurs in it. *)
Lemma score_response_first_bucket_wins_witness :
  Scoring.score_response Scoring.neutral_sentiment "I OFTEN feel tired" = 2%Z.
Proof.
  apply (score_response_first_bucket_wins Scoring.neutral_sentiment "I OFTEN feel tired").
  - intros H. apply (any_in_bucket_iff _ _ incl_bucket0) in H. discriminate H.
  - intros H. apply (any_in_bucket_iff _ _ incl_bucket1) in H. discriminate H.
  - apply (any_in_bucket_iff _ _ incl_bucket2). reflexivity.
Defined.

(** C6, as the claim states it, fails: with polarity 0.0 the answer
    "I feel alright, nothing special" is caught by bucket 0 and scores 0,
    not 1. *)
Lemma score_response_nothing_special :
  Scoring.polarity
    (Scoring.analyze_sentiment Scoring.neutral_sentiment
       (Text.lower "I feel alright, nothing special")) == 0 /\
  Text.contains (Text.lower "I feel alright, nothing special") "no" = true /\
  Text.any_in Scoring.bucket0 (Text.lower "I feel alright, nothing special") = true /\
  Scoring.score_response Scoring.neutral_sentiment "I feel alright, nothing special" = 0%Z /\
  Scoring.score_response Scoring.neutral_sentiment "I feel alright, nothing special" <> 1%Z.
Proof. repeat split; discriminate. Qed.

Lemma score_response_fallback_witness :
  Scoring.score_response Scoring.neutral_sentiment "I feel alright" = 1%Z.
Proof.
  apply (score_response_fallback Scoring.neutral_sentiment "I feel alright").
  reflexivity.
Defined.

(** ** Severity bands and the crisis block *)

Section ReportFacts.
Import Text Report.

(** C2. The band of a total: at most 4 is None-Minimal, 5..9 Mild, 10..14
    Moderate, 15..19 Moderately Severe, anything above Severe; and the band
    at each of the eight boundary totals. *)
Theorem classify_bands (total : Z) :
  ((total <= 4)%Z -> classify total = NoneMinimal) /\
  ((5 <= total <= 9)%Z -> classify total = Mild) /\
  ((10 <= total <= 14)%Z -> classify total = Moderate) /\
  ((15 <= total <= 19)%Z -> classify total = ModeratelySevere) /\
  ((20 <= total)%Z -> classify total = Severe) /\
  classify 4 = NoneMinimal /\ classify 5 = Mild /\ classify 9 = Mild /\
  classify 10 = Moderate /\ classify 14 = Moderate /\
  classify 15 = ModeratelySevere /\ classify 19 = ModeratelySevere /\
  classify 20 = Severe /\
  severity_label (classify 4) = "None-Minimal" /\
  severity_label (classify 19) = "Moderately Severe".
Proof.
  unfold classify.
  repeat split; try reflexivity; intros H;
    destruct (Z.leb_spec total 4); destruct (Z.leb_spec total 9);
    destruct (Z.leb_spec total 14); destruct (Z.leb_spec total 19);
    try reflexivity; lia.
Qed.

Lemma crisis_not_in_facial (a : Assessment) :
  ~ In crisis_warning (facial_lines a).
Proof.
  unfold facial_lines. destruct (truthy (facial_dominant_emotion a)) as [e|];
    [|intros []].
  destruct (member e _); simpl; intuition discriminate.
Qed.

Lemma crisis_not_in_vocal (a : Assessment) :
  ~ In crisis_warning (vocal_lines a).
Proof.
  unfold vocal_lines. destruct (truthy (vocal_dominant_emotion a)) as [e|];
    [|intros []].
  destruct (member e _); simpl; intuition discriminate.
Qed.

Lemma crisis_not_in_language (a : Assessment) :
  ~ In crisis_warning (language_lines a).
Proof.
  unfold language_lines. destruct (sentiment_polarity a) as [p|]; [|intros []].
  generalize (format_2f p). intros s.
  destruct (Qlt_le_dec p _); [|destruct (Qlt_le_dec _ p)];
    simpl; intuition discriminate.
Qed.

Lemma crisis_not_in_wellness : ~ In crisis_warning wellness_lines.
Proof. simpl; intuition discriminate. Qed.

Lemma crisis_in_phq9_lines (a : Assessment) :
  In crisis_warning (phq9_lines a) <->
  (14 < phq9_total a)%Z /\ (1 <= phq9_q9 a)%Z.
Proof.
  unfold phq9_lines.
  destruct (Z.leb_spec (phq9_total a) 4);
    [|destruct (Z.leb_spec (phq9_total a) 9);
      [|destruct (Z.leb_spec (phq9_total a) 14)]].
  1-3: split; [simpl; intuition discriminate | lia].
  destruct (Z.geb_spec (phq9_q9 a) 1).
  - split; [lia | intros _; simpl; tauto].
  - split; [simpl; intuition discriminate | lia].
Qed.

Lemma has_block_In (x : string) (block report : list string) :
  In x block -> has_block block report -> In x report.
Proof.
  intros Hx [before [after ->]]. apply in_or_app. right.
  apply in_or_app. now left.
Qed.

(** C3, as amended. The report holds the crisis block exactly when the total
    is at least 15, that is the band is Moderately Severe or Severe, and the
    item-9 score is at least 1; in the bands None-Minimal, Mild and Moderate
    the block is absent. *)
Theorem crisis_block_iff (a : Assessment) :
  (has_block crisis_block (recommendations a) <->
     (classify (phq9_total a) = ModeratelySevere \/
      classify (phq9_total a) = Severe) /\ (1 <= phq9_q9 a)%Z) /\
  (classify (phq9_total a) = NoneMinimal \/ classify (phq9_total a) = Mild \/
   classify (phq9_total a) = Moderate ->
     ~ has_block crisis_block (recommendations a)).
Proof.
  assert (Hband : (14 < phq9_total a)%Z <->
            (classify (phq9_total a) = ModeratelySevere \/
             classify (phq9_total a) = Severe)).
  { unfold classify.
    destruct (Z.leb_spec (phq9_total a) 4); destruct (Z.leb_spec (phq9_total a) 9);
      destruct (Z.leb_spec (phq9_total a) 14);
      destruct (Z.leb_spec (phq9_total a) 19);
      split; intros Hx; try lia; try tauto;
      destruct Hx as [Hx|Hx]; discriminate Hx. }
  assert (Hiff : has_block crisis_block (recommendations a) <->
            (14 < phq9_total a)%Z /\ (1 <= phq9_q9 a)%Z).
  { split.
    - intros Hb. apply crisis_in_phq9_lines.
      assert (Hin : In crisis_warning (recommendations a)).
      { eapply has_block_In; [|exact Hb]. simpl. tauto. }
      unfold recommendations in Hin.
      repeat (apply in_app_or in Hin; destruct Hin as [Hin|Hin]); trivial.
      + now apply crisis_not_in_facial in Hin.
      + now apply crisis_not_in_vocal in Hin.
      + now apply crisis_not_in_language in Hin.
      + now apply crisis_not_in_wellness in Hin.
    - intros [Ht Hq]. unfold recommendations, phq9_lines.
      destruct (Z.leb_spec (phq9_total a) 4); [lia|].
      destruct (Z.leb_spec (phq9_total a) 9); [lia|].
      destruct (Z.leb_spec (phq9_total a) 14); [lia|].
      destruct (Z.geb_spec (phq9_q9 a) 1); [|lia].
      exists significant_lines. eexists. rewrite <- app_assoc. reflexivity. }
  split.
  - rewrite Hiff, Hband. tauto.
  - intros Hlow Hb. apply Hiff in Hb. destruct Hb as [Ht _].
    apply Hband in Ht. destruct Ht as [E|E]; rewrite E in Hlow;
      destruct Hlow as [H|[H|H]]; discriminate H.
Qed.

End ReportFacts.

(** C3, as the claim states it, fails: a total of 15 with item 9 at 1 is in
    the band Moderately Severe, not Severe, and its report holds the crisis
    block. *)
Lemma crisis_block_in_moderately_severe :
  Report.classify (Report.phq9_total Report.total_15_item9_1)
    = Report.ModeratelySevere /\
  Report.classify (Report.phq9_total Report.total_15_item9_1) <> Report.Severe /\
  Report.recommendations Report.total_15_item9_1
    = (Report.significant_lines ++ Report.crisis_block ++ Report.wellness_lines)%list /\
  Report.has_block Report.crisis_block
    (Report.recommendations Report.total_15_item9_1).
Proof.
  split; [reflexivity | split; [discriminate |]]. split; [reflexivity|].
  exists Report.significant_lines, Report.wellness_lines. reflexivity.
Qed.

Lemma crisis_block_iff_witness :
  Report.has_block Report.crisis_block
    (Report.recommendations Report.total_20_item9_1).
Proof.
  apply (crisis_block_iff Report.total_20_item9_1).
  split; [right; reflexivity | simpl; lia].
Defined.

(** ** The vocal timeline *)

Section VocalFacts.
Import Vocal.

Lemma keys_counter_add (label : string) (c : list (string * nat)) :
  exists extra, map fst (counter_add label c) = (map fst c ++ extra)%list.
Proof.
  induction c as [|[k n] c [extra IH]]; simpl.
  - now exists [label].
  - destruct (String.eqb k label); simpl.
    + exists []. now rewrite app_nil_r.
    + exists extra. now rewrite IH.
Qed.

Lemma in_keys_counter_add (x label : string) (c : list (string * nat)) :
  In x (map fst (counter_add label c)) <-> x = label \/ In x (map fst c).
Proof.
  induction c as [|[k n] c IH]; simpl.
  - intuition.
  - destruct (String.eqb_spec k label) as [->|Hne]; simpl.
    + intuition.
    + rewrite IH. intuition.
Qed.

Lemma NoDup_keys_counter_add (label : string) (c : list (string * nat)) :
  NoDup (map fst c) -> NoDup (map fst (counter_add label c)).
Proof.
  induction c as [|[k n] c IH]; simpl; intros Hnd.
  - constructor; [intros [] | constructor].
  - inversion Hnd as [|? ? Hk Hc]; subst.
    destruct (String.eqb_spec k label) as [->|Hne]; simpl.
    + now constructor.
    + constructor; [|now apply IH].
      rewrite in_keys_counter_add. intros [->|H]; [now apply Hne | now apply Hk].
Qed.

(** Where an item of the counter after one more label comes from. *)
Lemma in_counter_add (x label : string) (m : nat) (c : list (string * nat)) :
  NoDup (map fst c) -> In (x, m) (counter_add label c) ->
  (x <> label /\ In (x, m) c) \/
  (x = label /\ exists m', m = S m' /\ In (label, m') c) \/
  (x = label /\ m = 1%nat /\ ~ In label (map fst c)).
Proof.
  induction c as [|[k n] c IH]; simpl; intros Hnd Hin.
  - destruct Hin as [E|[]]. injection E as <- <-. right; right. intuition.
  - inversion Hnd as [|? ? Hk Hc]; subst.
    destruct (String.eqb_spec k label) as [->|Hne]; simpl in Hin.
    + destruct Hin as [E|Hin].
      * injection E as <- <-. right; left. split; [reflexivity|]. exists n. intuition.
      * destruct (string_dec x label) as [->|Hx].
        -- exfalso. apply Hk. change label with (fst (label, m)). now apply in_map.
        -- left. intuition.
    + destruct Hin as [E|Hin].
      * injection E as <- <-. left. intuition.
      * destruct (IH Hc Hin) as [[Hx H]|[[-> [m' [-> H]]]|[-> [-> H]]]].
        -- left. intuition.
        -- right; left. split; [reflexivity|]. exists m'. intuition.
        -- right; right. intuition.
Qed.

Lemma occurrences_snoc (x label : string) (seen : list string) :
  occurrences x (seen ++ [label]) =
  (occurrences x seen + if string_dec label x then 1 else 0)%nat.
Proof.
  unfold occurrences. rewrite count_occ_app. simpl.
  destruct (string_dec label x); reflexivity.
Qed.

Lemma counts_of_add (label : string) (seen : list string) (c : list (string * nat)) :
  counts_of seen c -> counts_of (seen ++ [label]) (counter_add label c).
Proof.
  intros [Hnd [Hcount Hkeys]]. repeat split.
  - now apply NoDup_keys_counter_add.
  - intros x m Hin. rewrite occurrences_snoc.
    destruct (in_counter_add _ _ _ _ Hnd Hin)
      as [[Hx H]|[[-> [m' [-> H]]]|[-> [-> H]]]].
    + destruct (string_dec label x) as [E|_]; [now symmetry in E|].
      rewrite Nat.add_0_r. now apply Hcount.
    + destruct (string_dec label label) as [_|N]; [|now destruct N].
      rewrite <- (Hcount _ _ H). lia.
    + destruct (string_dec label label) as [_|N]; [|now destruct N].
      assert (Hz : occurrences label seen = 0%nat).
      { apply count_occ_not_In. intros Hs. apply H, Hkeys, Hs. }
      now rewrite Hz.
  - intros x Hx. apply in_keys_counter_add. apply in_app_or in Hx.
    destruct Hx as [Hx|[->|[]]]; [right; now apply Hkeys | now left].
Qed.

Lemma counts_of_fold (l seen : list string) (c : list (string * nat)) :
  counts_of seen c -> counts_of (seen ++ l) (fold_left (fun counts label => counter_add label counts) l c).
Proof.
  revert seen c; induction l as [|label l IH]; intros seen c H; simpl.
  - now rewrite app_nil_r.
  - change (label :: l) with ([label] ++ l)%list. rewrite app_assoc.
    apply IH. now apply counts_of_add.
Qed.

Lemma counts_of_Counter (timeline : list string) :
  counts_of timeline (Counter timeline).
Proof.
  apply (counts_of_fold timeline [] []).
  repeat split; [constructor | intros x m [] | intros x []].
Qed.

Lemma keys_fold_prefix (l : list string) (c : list (string * nat)) :
  exists extra, map fst (fold_left (fun counts label => counter_add label counts) l c) = (map fst c ++ extra)%list.
Proof.
  revert c; induction l as [|label l IH]; intros c; simpl.
  - exists []. now rewrite app_nil_r.
  - destruct (IH (counter_add label c)) as [e1 H1].
    destruct (keys_counter_add label c) as [e2 H2].
    exists (e2 ++ e1)%list. now rewrite H1, H2, app_assoc.
Qed.

(** In a list that starts with [s], an element of [s] stands before an
    element that is not in [s]. *)
Lemma before_in_prefix (s extra ks1 ks2 : list string) (k y : string) :
  (ks1 ++ k :: ks2 = s ++ extra)%list -> ~ In k s -> In y s -> In y ks1.
Proof.
  revert ks1; induction s as [|a s IH]; intros ks1 E Hk Hy; [destruct Hy|].
  destruct ks1 as [|b ks1]; simpl in E; injection E as -> E.
  - exfalso. apply Hk. now left.
  - destruct Hy as [->|Hy]; [now left | right].
    apply IH; trivial. intros H. apply Hk. now right.
Qed.

(** A key of the counter that was not there at the start was first met in
    the timeline after every label that is not among the keys before it. *)
Lemma first_seen_split (l : list string) (c : list (string * nat))
      (ks1 ks2 : list string) (k : string) :
  map fst (fold_left (fun counts label => counter_add label counts) l c) = (ks1 ++ k :: ks2)%list -> ~ In k (map fst c) ->
  exists before after,
    l = (before ++ k :: after)%list /\ ~ In k before /\
    forall x, In x before -> In x ks1.
Proof.
  revert c; induction l as [|y l IH]; intros c E Hk; simpl in E.
  - exfalso. apply Hk. rewrite E. apply in_or_app. right. now left.
  - destruct (string_dec y k) as [->|Hne].
    + exists [], l. repeat split; [intros [] | intros x []].
    + assert (Hk' : ~ In k (map fst (counter_add y c))).
      { rewrite in_keys_counter_add. intros [->|H]; [now apply Hne | now apply Hk]. }
      destruct (IH _ E Hk') as [before [after [-> [Hnb Hin]]]].
      exists (y :: before), after. repeat split.
      * intros [H|H]; [now apply Hne | now apply Hnb].
      * intros x [<-|Hx]; [|now apply Hin].
        destruct (keys_fold_prefix (before ++ k :: after) (counter_add y c))
          as [extra Hp].
        rewrite E in Hp.
        apply (before_in_prefix _ _ _ _ _ _ Hp Hk').
        apply in_keys_counter_add. now left.
Qed.

Lemma max_by_count_ge (items : list (string * nat)) (best : string * nat) :
  (snd best <= snd (max_by_count best items))%nat.
Proof.
  revert best; induction items as [|item rest IH]; intros best; simpl; [lia|].
  destruct (Nat.ltb_spec (snd best) (snd item)).
  - specialize (IH item). lia.
  - apply IH.
Qed.

(** The item [max] returns splits the items: strictly smaller counts before
    it, no greater count after it. *)
Lemma max_by_count_split (items : list (string * nat)) (best : string * nat) :
  exists p q,
    best :: items = (p ++ max_by_count best items :: q)%list /\
    (forall x, In x p -> (snd x < snd (max_by_count best items))%nat) /\
    (forall x, In x q -> (snd x <= snd (max_by_count best items))%nat).
Proof.
  revert best; induction items as [|item rest IH]; intros best; simpl.
  - exists [], []. repeat split; intros x [].
  - destruct (Nat.ltb_spec (snd best) (snd item)) as [Hlt|Hge].
    + destruct (IH item) as [p [q [E [Hp Hq]]]].
      exists (best :: p), q. repeat split; trivial.
      * simpl. now rewrite E.
      * intros x [<-|Hx]; [|now apply Hp].
        pose proof (max_by_count_ge rest item). lia.
    + destruct (IH best) as [p [q [E [Hp Hq]]]].
      destruct p as [|b p]; simpl in E; injection E as Eb E.
      * exists [], (item :: q). repeat split.
        -- simpl. now rewrite <- Eb, E.
        -- intros x [].
        -- intros x [<-|Hx]; [rewrite <- Eb; lia | now apply Hq].
      * subst b. exists (best :: item :: p), q. repeat split.
        -- simpl. now rewrite <- E.
        -- intros x [<-|[<-|Hx]].
           ++ apply Hp. now left.
           ++ assert (snd best < snd (max_by_count best rest))%nat
                by (apply Hp; now left). lia.
           ++ apply Hp. now right.
        -- exact Hq.
Qed.

(** C7. The empty timeline gives "neutral"; a timeline that is not empty
    gives a label of the timeline that no label occurs more often than, and
    every label first met before it occurs strictly less often (ties go to
    the first-observed label); ["sad"; "sad"; "happy"] gives "sad". *)
Theorem aggregate_vocal_emotions_most_frequent :
  aggregate_vocal_emotions [] = Some "neutral" /\
  (forall timeline, timeline <> [] ->
     exists winner before after,
       aggregate_vocal_emotions timeline = Some winner /\
       timeline = (before ++ winner :: after)%list /\ ~ In winner before /\
       (forall label, (occurrences label timeline <= occurrences winner timeline)%nat) /\
       (forall label, In label before ->
          (occurrences label timeline < occurrences winner timeline)%nat)) /\
  aggregate_vocal_emotions ["sad"; "sad"; "happy"] = Some "sad".
Proof.
  split; [reflexivity | split; [|reflexivity]].
  intros timeline Hne.
  destruct (counts_of_Counter timeline) as [Hnd [Hcount Hkeys]].
  unfold aggregate_vocal_emotions, most_common_1.
  destruct timeline as [|t0 tl]; [now destruct Hne|].
  set (timeline := t0 :: tl) in *.
  destruct (Counter timeline) as [|first rest] eqn:EC.
  { exfalso. apply (Hkeys t0). now left. }
  destruct (max_by_count_split rest first) as [p [q [E [Hp Hq]]]].
  set (r := max_by_count first rest) in *.
  assert (Hr : In r (first :: rest)).
  { rewrite E. apply in_or_app. right. now left. }
  assert (Hrn : snd r = occurrences (fst r) timeline).
  { apply Hcount. now destruct r. }
  assert (Ekeys : map fst (fold_left (fun counts label => counter_add label counts) timeline []) = (map fst p ++ fst r :: map fst q)%list).
  { change (fold_left (fun counts label => counter_add label counts) timeline []) with (Counter timeline).
    rewrite EC, E, map_app. reflexivity. }
  destruct (first_seen_split timeline [] _ _ _ Ekeys) as [before [after [Et [Hnb Hin]]]];
    [intros []|].
  exists (fst r), before, after. repeat split; trivial.
  - intros label. rewrite <- Hrn.
    destruct (in_dec string_dec label timeline) as [Hl|Hl].
    + apply Hkeys in Hl. apply in_map_iff in Hl. destruct Hl as [[l m] [El Hl]].
      simpl in El; subst l. rewrite <- (Hcount _ _ Hl).
      rewrite E in Hl. apply in_app_or in Hl. destruct Hl as [Hl|[Hl|Hl]].
      * apply Nat.lt_le_incl. exact (Hp _ Hl).
      * rewrite Hl. simpl. lia.
      * exact (Hq _ Hl).
    + unfold occurrences. rewrite (count_occ_not_In string_dec timeline label) in Hl.
      rewrite Hl. lia.
  - intros label Hl. rewrite <- Hrn.
    apply Hin in Hl. apply in_map_iff in Hl. destruct Hl as [[l m] [El Hl]].
    simpl in El; subst l.
    assert (Hm : m = occurrences label timeline).
    { apply Hcount. rewrite E. apply in_or_app. now left. }
    rewrite <- Hm. exact (Hp _ Hl).
Qed.

End VocalFacts.

Lemma aggregate_vocal_emotions_witness :
  exists winner before after,
    Vocal.aggregate_vocal_emotions ["happy"; "sad"; "sad"; "happy"] = Some winner /\
    ["happy"; "sad"; "sad"; "happy"] = (before ++ winner :: after)%list /\
    ~ In winner before /\
    (forall label, (Vocal.occurrences label ["happy"; "sad"; "sad"; "happy"]
                    <= Vocal.occurrences winner ["happy"; "sad"; "sad"; "happy"])%nat) /\
    (forall label, In label before ->
       (Vocal.occurrences label ["happy"; "sad"; "sad"; "happy"]
        < Vocal.occurrences winner ["happy"; "sad"; "sad"; "happy"])%nat).
Proof.
  apply aggregate_vocal_emotions_most_frequent. discriminate.
Defined.

(** ** Keyword counts *)

Section KeywordFacts.
Import Text Keywords.

Lemma count_in_filter (words : list string) (s : string) :
  count_in words s = Z.of_nat (List.length (filter (fun w => contains s w) words)).
Proof.
  induction words as [|w ws IH]; [reflexivity|].
  cbn [count_in filter]. rewrite IH.
  destruct (contains s w); cbn [List.length]; lia.
Qed.

(** The positive count is the number of listed positive words that occur in
    the text, and so would the negative count be for a list without
    repetition. *)
Lemma pos_count_spec (text : string) :
  pos_count text = spec_count positive_words text.
Proof. apply count_in_filter. Qed.

(** C8, on the code. "tired" stands twice in [negative_words] (line 474 of
    [src/app.py]), so the negative count is the number of listed words that
    occur in the text plus one more when "tired" occurs: "I am tired"
    contains one listed word and counts 2. *)
Theorem neg_count_counts_tired_twice :
  (forall text,
     neg_count text =
     (spec_count spec_negative_words text +
      if contains (lower text) "tired" then 1 else 0)%Z) /\
  spec_count spec_negative_words "I am tired" = 1%Z /\
  neg_count "I am tired" = 2%Z /\
  count_occ string_dec negative_words "tired" = 2%nat.
Proof.
  split; [|repeat split].
  intros text. unfold neg_count, spec_count.
  rewrite <- count_in_filter. unfold negative_words, spec_negative_words.
  cbn [count_in]. destruct (contains (lower text) "tired"); lia.
Qed.

End KeywordFacts.

(** ** The stress classification *)

Section StressFacts.
Import Cardio.
Open Scope R_scope.

Lemma mean_hr_step_spec (m : HRVMetrics) (t : Tally) :
  exists a ia,
    mean_hr_step m t = ((fst t + a)%Z, (snd t ++ ia)%list) /\
    ((mean_hr m > 90 /\ a = 3%Z /\
      ia = [("Elevated mean HR (" ++ format_1f (mean_hr m) ++ " BPM)")%string]) \/
     (80 < mean_hr m <= 90 /\ a = 2%Z /\ ia = []) \/
     (mean_hr m <= 80 /\ a = 0%Z /\ ia = [])).
Proof.
  unfold mean_hr_step.
  destruct (Rgt_dec (mean_hr m) 90) as [H|H];
    [|destruct (Rgt_dec (mean_hr m) 80) as [H'|H']].
  - eexists _, _. split; [reflexivity|]. left. auto.
  - exists 2%Z, []. rewrite app_nil_r. split; [reflexivity|].
    right; left. repeat split; lra.
  - exists 0%Z, []. rewrite app_nil_r, Z.add_0_r. split; [now destruct t|].
    right; right. repeat split; lra.
Qed.

Lemma rmssd_step_spec (m : HRVMetrics) (t : Tally) :
  exists b ib,
    rmssd_step m t = ((fst t + b)%Z, (snd t ++ ib)%list) /\
    ((rmssd m < 15 /\ b = 3%Z /\
      ib = [("Very low HRV (RMSSD: " ++ format_1f (rmssd m) ++ " ms)")%string]) \/
     (15 <= rmssd m < 25 /\ b = 2%Z /\ ib = []) \/
     (25 <= rmssd m /\ b = 0%Z /\ ib = [])).
Proof.
  unfold rmssd_step.
  destruct (Rlt_dec (rmssd m) 15) as [H|H];
    [|destruct (Rlt_dec (rmssd m) 25) as [H'|H']].
  - eexists _, _. split; [reflexivity|]. left. auto.
  - exists 2%Z, []. rewrite app_nil_r. split; [reflexivity|].
    right; left. repeat split; lra.
  - exists 0%Z, []. rewrite app_nil_r, Z.add_0_r. split; [now destruct t|].
    right; right. repeat split; lra.
Qed.

Lemma sdnn_step_spec (m : HRVMetrics) (t : Tally) :
  exists c ic,
    sdnn_step m t = ((fst t + c)%Z, (snd t ++ ic)%list) /\
    ((sdnn m < 40 /\ c = 2%Z /\
      ic = [("Low SDNN (" ++ format_1f (sdnn m) ++ " ms)")%string]) \/
     (40 <= sdnn m /\ c = 0%Z /\ ic = [])).
Proof.
  unfold sdnn_step. destruct (Rlt_dec (sdnn m) 40) as [H|H].
  - eexists _, _. split; [reflexivity|]. left. auto.
  - exists 0%Z, []. rewrite app_nil_r, Z.add_0_r. split; [now destruct t|].
    right. repeat split; lra.
Qed.

(** C5. The score is the sum of three contributions, one for each signal:
    mean HR above 90 adds 3 with an indicator, else above 80 adds 2 without
    one; RMSSD below 15 adds 3 with an indicator, else below 25 adds 2
    without one; SDNN below 40 adds 2 with an indicator.  The level is High
    from 7, Moderate from 4 to 6, Low below.  With mean HR 95, RMSSD 10 and
    SDNN 30 the score is 8, the level High and there are three indicators. *)
Theorem classify_stress_three_signals (m : HRVMetrics) (n : nat) :
  let result := classify_stress m n in
  (exists a b c ia ib ic,
     stress_score result = (a + b + c)%Z /\
     stress_indicators result = (ia ++ ib ++ ic)%list /\
     ((mean_hr m > 90 /\ a = 3%Z /\
       ia = [("Elevated mean HR (" ++ format_1f (mean_hr m) ++ " BPM)")%string]) \/
      (80 < mean_hr m <= 90 /\ a = 2%Z /\ ia = []) \/
      (mean_hr m <= 80 /\ a = 0%Z /\ ia = [])) /\
     ((rmssd m < 15 /\ b = 3%Z /\
       ib = [("Very low HRV (RMSSD: " ++ format_1f (rmssd m) ++ " ms)")%string]) \/
      (15 <= rmssd m < 25 /\ b = 2%Z /\ ib = []) \/
      (25 <= rmssd m /\ b = 0%Z /\ ib = [])) /\
     ((sdnn m < 40 /\ c = 2%Z /\
       ic = [("Low SDNN (" ++ format_1f (sdnn m) ++ " ms)")%string]) \/
      (40 <= sdnn m /\ c = 0%Z /\ ic = []))) /\
  ((7 <= stress_score result)%Z -> stress_level result = High) /\
  ((4 <= stress_score result < 7)%Z -> stress_level result = ModerateStress) /\
  ((stress_score result < 4)%Z -> stress_level result = Low) /\
  (mean_hr m = 95 -> rmssd m = 10 -> sdnn m = 30 ->
     stress_score result = 8%Z /\ stress_level result = High /\
     List.length (stress_indicators result) = 3%nat).
Proof.
  intros result. subst result. unfold classify_stress. cbn [stress_score stress_level stress_indicators].
  destruct (mean_hr_step_spec m (0%Z, [])) as [a [ia [Ea Ha]]].
  destruct (rmssd_step_spec m (mean_hr_step m (0%Z, []))) as [b [ib [Eb Hb]]].
  destruct (sdnn_step_spec m
              (rmssd_step m (mean_hr_step m (0%Z, []))))
    as [c [ic [Ec Hc]]].
  rewrite Ec, Eb, Ea. cbn [fst snd app Z.add].
  assert (Hlevel : forall s : Z,
            ((7 <= s)%Z -> level_of s = High) /\
            ((4 <= s < 7)%Z -> level_of s = ModerateStress) /\
            ((s < 4)%Z -> level_of s = Low)).
  { intros s. unfold level_of.
    destruct (Z.geb_spec s 7); destruct (Z.geb_spec s 4);
      repeat split; intros; try reflexivity; lia. }
  split; [|split; [|split; [|split]]]; try apply Hlevel.
  - exists a, b, c, ia, ib, ic. repeat split; trivial. now rewrite app_assoc.
  - intros Hm Hr Hs.
    assert (a = 3%Z /\ List.length ia = 1%nat) as [-> La].
    { destruct Ha as [[_ [-> ->]]|[[H _]|[H _]]]; [now split | lra | lra]. }
    assert (b = 3%Z /\ List.length ib = 1%nat) as [-> Lb].
    { destruct Hb as [[_ [-> ->]]|[[H _]|[H _]]]; [now split | lra | lra]. }
    assert (c = 2%Z /\ List.length ic = 1%nat) as [-> Lc].
    { destruct Hc as [[_ [-> ->]]|[H _]]; [now split | lra]. }
    repeat split. rewrite !length_app, La, Lb, Lc. reflexivity.
Qed.

(** C10. The stress score is at most 8 and never 1 (nor negative), and the
    level High is reached only with SDNN below 40. *)
Theorem stress_score_bounds (m : HRVMetrics) (n : nat) :
  let result := classify_stress m n in
  (0 <= stress_score result <= 8)%Z /\
  stress_score result <> 1%Z /\
  (stress_level result = High -> (7 <= stress_score result)%Z /\ sdnn m < 40).
Proof.
  intros result. subst result.
  unfold classify_stress, sdnn_step, rmssd_step, mean_hr_step, level_of.
  cbn [stress_score stress_level].
  destruct (Rgt_dec (mean_hr m) 90); [|destruct (Rgt_dec (mean_hr m) 80)];
    (destruct (Rlt_dec (rmssd m) 15); [|destruct (Rlt_dec (rmssd m) 25)]);
    destruct (Rlt_dec (sdnn m) 40); cbn;
    repeat split; try lia; try discriminate; try assumption; intros _; lia.
Qed.

End StressFacts.

Lemma classify_stress_three_signals_witness :
  Cardio.stress_score (Cardio.classify_stress Cardio.strained_metrics 5) = 8%Z /\
  Cardio.stress_level (Cardio.classify_stress Cardio.strained_metrics 5)
    = Cardio.High /\
  List.length
    (Cardio.stress_indicators
       (Cardio.classify_stress Cardio.strained_metrics 5)) = 3%nat.
Proof.
  apply (classify_stress_three_signals Cardio.strained_metrics 5); reflexivity.
Defined.

Lemma stress_score_bounds_witness :
  (0 <= Cardio.stress_score
          (Cardio.classify_stress Cardio.strained_metrics 5) <= 8)%Z.
Proof.
  apply (stress_score_bounds Cardio.strained_metrics 5).
Defined.

(** ** The HRV metrics in float64 *)

Section SpecFloatFacts.
Import SpecFloat FloatOps FloatAxioms PrimFloat.

(** *** The order of the floats that are not NaN *)

Lemma SFleb_refl (x : spec_float) : x <> S754_nan -> SFleb x x = true.
Proof.
  unfold SFleb, SFcompare. destruct x as [s|s| |s m e]; intros H.
  - reflexivity.
  - now destruct s.
  - now destruct H.
  - rewrite Z.compare_refl, Pos.compare_cont_refl. now destruct s.
Qed.

Lemma SFleb_total (x y : spec_float) :
  x <> S754_nan -> y <> S754_nan -> SFleb y x = false -> SFleb x y = true.
Proof.
  unfold SFleb, SFcompare.
  destruct x as [sx|sx| |sx mx ex], y as [sy|sy| |sy my ey]; intros Hx Hy;
    try (now destruct Hx); try (now destruct Hy);
    try destruct sx; try destruct sy; try discriminate; try reflexivity;
    change (Pos.compare_cont Eq) with Pos.compare;
    destruct (Z.compare_spec ex ey); destruct (Z.compare_spec ey ex); try lia;
    try discriminate; try reflexivity;
    destruct (Pos.compare_spec mx my); destruct (Pos.compare_spec my mx); try lia;
    cbn; try discriminate; try reflexivity.
Qed.

Lemma SFleb_trans (x y z : spec_float) :
  SFleb x y = true -> SFleb y z = true -> SFleb x z = true.
Proof.
  unfold SFleb, SFcompare.
  destruct x as [sx|sx| |sx mx ex], y as [sy|sy| |sy my ey], z as [sz|sz| |sz mz ez];
    try destruct sx; try destruct sy; try destruct sz;
    try discriminate; try reflexivity;
    change (Pos.compare_cont Eq) with Pos.compare;
    destruct (Z.compare_spec ex ey); destruct (Z.compare_spec ey ez);
    destruct (Z.compare_spec ex ez); try lia;
    try discriminate; try reflexivity;
    destruct (Pos.compare_spec mx my); destruct (Pos.compare_spec my mz);
    destruct (Pos.compare_spec mx mz); try lia;
    cbn; try discriminate; try reflexivity.
Qed.

(** *** Rounding a positive number *)

Lemma iter_pos_nat {A : Type} (f : A -> A) (n : positive) (x : A) :
  iter_pos f n x = Nat.iter (Pos.to_nat n) f x.
Proof.
  revert x; induction n as [n IH|n IH|]; intros x; cbn [iter_pos].
  - rewrite !IH, Pos2Nat.inj_xI, Nat.iter_succ_r.
    replace (2 * Pos.to_nat n)%nat with (Pos.to_nat n + Pos.to_nat n)%nat by lia.
    now rewrite Nat.iter_add.
  - rewrite !IH, Pos2Nat.inj_xO.
    replace (2 * Pos.to_nat n)%nat with (Pos.to_nat n + Pos.to_nat n)%nat by lia.
    now rewrite Nat.iter_add.
  - reflexivity.
Qed.

(** One shift to the right of a mantissa of two digits or more. *)
Lemma shr_1_positive (q : positive) (r s : bool) :
  (1 < Pos.to_nat (digits2_pos q))%nat ->
  exists q' r' s',
    shr_1 (Build_shr_record (Zpos q) r s) = Build_shr_record (Zpos q') r' s' /\
    Pos.to_nat (digits2_pos q') = (Pos.to_nat (digits2_pos q) - 1)%nat.
Proof.
  destruct q as [p|p|]; cbn [shr_1 digits2_pos]; intros H.
  - eexists _, _, _. split; [reflexivity|]. rewrite Pos2Nat.inj_succ. lia.
  - eexists _, _, _. split; [reflexivity|]. rewrite Pos2Nat.inj_succ. lia.
  - simpl in H. lia.
Qed.

Lemma shr_iter_positive (k : nat) (q : positive) (r s : bool) :
  (k < Pos.to_nat (digits2_pos q))%nat ->
  exists q' r' s',
    Nat.iter k shr_1 (Build_shr_record (Zpos q) r s)
    = Build_shr_record (Zpos q') r' s' /\
    Pos.to_nat (digits2_pos q') = (Pos.to_nat (digits2_pos q) - k)%nat.
Proof.
  induction k as [|k IH]; intros H.
  - exists q, r, s. split; [reflexivity | lia].
  - destruct IH as [q1 [r1 [s1 [E D]]]]; [lia|].
    rewrite Nat.iter_succ, E.
    destruct (shr_1_positive q1 r1 s1) as [q2 [r2 [s2 [E2 D2]]]]; [lia|].
    exists q2, r2, s2. split; [exact E2 | lia].
Qed.

(** [shr_fexp] keeps a mantissa positive, and the sum of its number of
    digits and of the exponent, when the number is not below the least
    subnormal. *)
Lemma shr_fexp_positive (q : positive) (e : Z) (l : location) :
  (emin < Zpos (digits2_pos q) + e)%Z ->
  exists q' r' s' e',
    shr_fexp prec emax (Zpos q) e l = (Build_shr_record (Zpos q') r' s', e') /\
    (Zpos (digits2_pos q') + e' = Zpos (digits2_pos q) + e)%Z.
Proof.
  intros H. unfold shr_fexp, shr. cbn [Zdigits2].
  destruct (shr_record_of_loc (Zpos q) l) as [m0 r0 s0] eqn:E0.
  assert (Em : m0 = Zpos q) by (destruct l as [|[]]; simpl in E0; congruence).
  subst m0.
  destruct (fexp prec emax (Zpos (digits2_pos q) + e) - e)%Z as [|n|n] eqn:En.
  - exists q, r0, s0, e. split; [reflexivity | lia].
  - rewrite iter_pos_nat.
    assert (Hn : (Zpos n < Zpos (digits2_pos q))%Z).
    { unfold fexp, SpecFloat.emin, prec, emax in *. lia. }
    destruct (shr_iter_positive (Pos.to_nat n) q r0 s0) as [q' [r' [s' [E D]]]];
      [lia|].
    exists q', r', s', (e + Zpos n)%Z. split; [now rewrite E | lia].
  - exists q, r0, s0, e. split; [reflexivity | lia].
Qed.

Lemma digits2_pos_succ (q : positive) :
  (Zpos (digits2_pos q) <= Zpos (digits2_pos (Pos.succ q)))%Z.
Proof.
  induction q as [q IH|q IH|]; cbn [Pos.succ digits2_pos]; lia.
Qed.

(** Rounding to nearest keeps a positive mantissa positive. *)
Lemma round_nearest_even_positive (q : positive) (l : location) :
  exists q',
    round_nearest_even (Zpos q) l = Zpos q' /\
    (Zpos (digits2_pos q) <= Zpos (digits2_pos q'))%Z.
Proof.
  assert (Hs : exists q', (Zpos q + 1)%Z = Zpos q' /\
                          (Zpos (digits2_pos q) <= Zpos (digits2_pos q'))%Z).
  { exists (Pos.succ q). split; [lia | apply digits2_pos_succ]. }
  assert (H0 : exists q', Zpos q = Zpos q' /\
                          (Zpos (digits2_pos q) <= Zpos (digits2_pos q'))%Z).
  { exists q. split; [reflexivity | lia]. }
  destruct l as [|[]]; cbn [round_nearest_even]; trivial.
  destruct (Z.even (Zpos q)); trivial.
Qed.

(** A number that is not below the least subnormal rounds to a finite number
    that is not zero, or to an infinity. *)
Lemma binary_round_aux_positive (sx : bool) (q : positive) (e : Z) (l : location) :
  (emin < Zpos (digits2_pos q) + e)%Z ->
  (exists m e', binary_round_aux prec emax sx (Zpos q) e l = S754_finite sx m e') \/
  binary_round_aux prec emax sx (Zpos q) e l = S754_infinity sx.
Proof.
  intros H. unfold binary_round_aux.
  destruct (shr_fexp_positive q e l H) as [q1 [r1 [s1 [e1 [E1 D1]]]]].
  rewrite E1. cbn [shr_m].
  destruct (round_nearest_even_positive q1
              (loc_of_shr_record (Build_shr_record (Zpos q1) r1 s1)))
    as [q2 [E2 D2]].
  rewrite E2.
  destruct (shr_fexp_positive q2 e1 loc_Exact) as [q3 [r3 [s3 [e3 [E3 D3]]]]];
    [lia|].
  rewrite E3. cbn [shr_m].
  destruct (e3 <=? emax - prec)%Z; [left; eauto | now right].
Qed.

(** The float of a positive integer is a positive number or the positive
    infinity. *)
Lemma binary_normalize_positive (p : positive) :
  (exists m e,
     binary_normalize prec emax (Zpos p) 0 false = S754_finite false m e) \/
  binary_normalize prec emax (Zpos p) 0 false = S754_infinity false.
Proof.
  cbn [binary_normalize]. unfold binary_round, shl_align.
  destruct (fexp prec emax (Z.pos (digits2_pos p) + 0) - 0)%Z as [|d|d] eqn:Ed;
    apply binary_round_aux_positive;
    unfold fexp, SpecFloat.emin, prec, emax in *; lia.
Qed.

(** *** The primitive floats *)

Lemma not_nan_SF (x : float) : is_nan x = false -> Prim2SF x <> S754_nan.
Proof.
  unfold is_nan. rewrite eqb_spec. intros H E. rewrite E in H. discriminate H.
Qed.

Lemma leb_refl (x : float) : is_nan x = false -> (x <=? x)%float = true.
Proof. intros H. rewrite leb_spec. now apply SFleb_refl, not_nan_SF. Qed.

Lemma leb_total (x y : float) :
  is_nan x = false -> is_nan y = false ->
  (y <=? x)%float = false -> (x <=? y)%float = true.
Proof.
  rewrite !leb_spec. intros Hx Hy. apply SFleb_total; now apply not_nan_SF.
Qed.

Lemma leb_trans (x y z : float) :
  (x <=? y)%float = true -> (y <=? z)%float = true -> (x <=? z)%float = true.
Proof. rewrite !leb_spec. apply SFleb_trans. Qed.

Lemma finite_SF (x : float) :
  is_finite x = true ->
  (exists s, Prim2SF x = S754_zero s) \/
  (exists s m e, Prim2SF x = S754_finite s m e).
Proof.
  unfold is_finite, is_nan, is_infinity. rewrite !eqb_spec, abs_spec.
  destruct (Prim2SF x) as [s|s| |s m e]; intros H.
  - left. now exists s.
  - destruct s; vm_compute in H; discriminate H.
  - discriminate H.
  - right. now exists s, m, e.
Qed.

(** A finite number minus itself is 0. *)
Lemma sub_diag (x : float) : is_finite x = true -> (x - x)%float = 0%float.
Proof.
  intros H. apply Prim2SF_inj. rewrite sub_spec.
  destruct (finite_SF x H) as [[s ->]|[s [m [e ->]]]].
  - now destruct s.
  - unfold SF64sub, SFsub. rewrite Z.sub_diag. reflexivity.
Qed.

(** A rounded number has the sign it was given, or is a NaN. *)
Lemma binary_round_aux_sign (sx : bool) (m e : Z) (l : location) :
  binary_round_aux prec emax sx m e l = S754_nan \/
  binary_round_aux prec emax sx m e l = S754_zero sx \/
  binary_round_aux prec emax sx m e l = S754_infinity sx \/
  exists m' e', binary_round_aux prec emax sx m e l = S754_finite sx m' e'.
Proof.
  unfold binary_round_aux.
  destruct (shr_fexp prec emax m e l) as [mrs' e'].
  destruct (shr_fexp prec emax _ e' loc_Exact) as [mrs'' e''].
  destruct (shr_m mrs'') as [|p|p]; [now right; left | | now left].
  destruct (e'' <=? emax - prec)%Z; [|now right; right; left].
  right; right; right. now exists p, e''.
Qed.

(** A square root is never below 0: it is a NaN, a zero or above 0. *)
Lemma sqrt_not_negative (x : float) : (sqrt x <? 0)%float = false.
Proof.
  rewrite ltb_spec, sqrt_spec. change (Prim2SF 0) with (S754_zero false).
  unfold SF64sqrt, SFsqrt.
  destruct (Prim2SF x) as [s|[]| |[] m e]; try reflexivity.
  destruct (SFsqrt_core_binary prec emax (Zpos m) e) as [[mz ez] lz].
  destruct (binary_round_aux_sign false mz ez lz) as [->|[->|[->|[m' [e' ->]]]]];
    reflexivity.
Qed.

End SpecFloatFacts.

Section Float64Facts.
Import SpecFloat FloatOps FloatAxioms PrimFloat Float64.
Open Scope float_scope.

(** *** Counts as floats *)

(** Zero over a count that is not zero is zero. *)
Lemma zero_div_count (k : nat) :
  (0 < k)%nat -> (Z.of_nat k < 2 ^ 63)%Z -> 0 / float_of_nat k = 0.
Proof.
  intros H0 H63. apply Prim2SF_inj. unfold float_of_nat.
  rewrite div_spec, of_uint63_spec, Uint63.of_Z_spec.
  rewrite Z.mod_small by (change Uint63.wB with (2 ^ 63)%Z; lia).
  destruct (Z.of_nat k) as [|p|p] eqn:Ek; try lia.
  destruct (binary_normalize_positive p) as [[m [e ->]]| ->]; reflexivity.
Qed.

(** *** Sums of zeros *)

Lemma fold_add_zeros (k : nat) : fold_left add (repeat 0 k) 0 = 0.
Proof. induction k as [|k IH]; [reflexivity | exact IH]. Qed.

Lemma pairwise_blocks_zeros (k : nat) :
  pairwise_blocks 0 0 0 0 0 0 0 0 (repeat 0 k) = 0.
Proof.
  induction k as [k IH] using lt_wf_ind.
  destruct k as [|[|[|[|[|[|[|[|k]]]]]]]]; try reflexivity.
  cbn [repeat pairwise_blocks]. change (0 + 0) with 0. apply IH. lia.
Qed.

Lemma zeros_are_repeat (a : list float) :
  (forall x, In x a -> x = 0) -> a = repeat 0 (List.length a).
Proof.
  induction a as [|x a IH]; intros H; [reflexivity|].
  cbn [List.length repeat]. rewrite <- IH by (intros y Hy; apply H; now right).
  f_equal. apply H. now left.
Qed.

Lemma pairwise_sum_upto_zeros (depth : nat) (a : list float) :
  (forall x, In x a -> x = 0) -> pairwise_sum_upto depth a = 0.
Proof.
  revert a; induction depth as [|depth IH]; intros a H;
    cbn [pairwise_sum_upto];
    (destruct (List.length a <? 8)%nat eqn:E8;
     [rewrite (zeros_are_repeat a H); apply fold_add_zeros|]);
    (destruct (List.length a <=? 128)%nat eqn:E128;
     [rewrite (zeros_are_repeat a H);
      apply Nat.ltb_ge in E8;
      destruct (List.length a) as [|[|[|[|[|[|[|[|k]]]]]]]]; try lia;
      cbn [repeat]; apply pairwise_blocks_zeros|]).
  - reflexivity.
  - rewrite !IH; [reflexivity| |];
      intros x Hx; apply H;
      rewrite <- (firstn_skipn
                    (List.length a / 2 - (List.length a / 2) mod 8) a);
      apply in_or_app; [now right | now left].
Qed.

Lemma np_sum_zeros (k : nat) : np_sum (repeat 0 k) = 0.
Proof.
  unfold np_sum, pairwise_sum. rewrite pairwise_sum_upto_zeros; [reflexivity|].
  intros x Hx. now apply repeat_spec in Hx.
Qed.

Lemma np_mean_zeros (k : nat) :
  (0 < k)%nat -> (Z.of_nat k < 2 ^ 63)%Z -> np_mean (repeat 0 k) = 0.
Proof.
  intros H0 H63. unfold np_mean.
  rewrite np_sum_zeros, repeat_length. now apply zero_div_count.
Qed.

(** *** The depth of the cuts *)

Lemma cut_point_bounds (n : nat) :
  (128 < n)%nat -> (0 < n / 2 - (n / 2) mod 8 < n)%nat.
Proof.
  intros H.
  pose proof (Nat.div_mod_eq n 2) as E.
  pose proof (Nat.mod_upper_bound n 2) as U.
  pose proof (Nat.mod_upper_bound (n / 2) 8) as U8.
  lia.
Qed.

(** Any depth from the length of the array on gives the same sum. *)
Lemma pairwise_sum_upto_enough (depth : nat) (a : list float) :
  (List.length a <= depth)%nat ->
  pairwise_sum_upto depth a = pairwise_sum a.
Proof.
  unfold pairwise_sum.
  assert (H : forall d1 d2 b, (List.length b <= d1)%nat -> (List.length b <= d2)%nat ->
                pairwise_sum_upto d1 b = pairwise_sum_upto d2 b).
  { induction d1 as [|d1 IH]; intros d2 b H1 H2.
    - destruct b; [|simpl in H1; lia]. now destruct d2.
    - destruct d2 as [|d2].
      + destruct b; [|simpl in H2; lia]. reflexivity.
      + cbn [pairwise_sum_upto].
        destruct (List.length b <? 8)%nat; [reflexivity|].
        destruct (List.length b <=? 128)%nat eqn:E128; [reflexivity|].
        apply Nat.leb_gt in E128.
        set (n2 := (List.length b / 2 - (List.length b / 2) mod 8)%nat).
        assert (Hn2 : (0 < n2 < List.length b)%nat) by now apply cut_point_bounds.
        f_equal; apply IH;
          rewrite ?length_firstn, ?length_skipn; lia. }
  intros Hd. now apply H.
Qed.

(** The array of more than 128 elements is cut in two, as [pairwise_sum]
    does it. *)
Lemma pairwise_sum_cut (a : list float) :
  (128 < List.length a)%nat ->
  let n2 := (List.length a / 2 - (List.length a / 2) mod 8)%nat in
  pairwise_sum a = pairwise_sum (firstn n2 a) + pairwise_sum (skipn n2 a).
Proof.
  intros H n2. unfold pairwise_sum at 1.
  destruct (List.length a) as [|n] eqn:En; [lia|].
  cbn [pairwise_sum_upto]. rewrite En.
  destruct (S n <? 8)%nat eqn:E8; [apply Nat.ltb_lt in E8; lia|].
  destruct (S n <=? 128)%nat eqn:E128; [apply Nat.leb_le in E128; lia|].
  fold n2. assert (Hn2 : (0 < n2 < S n)%nat) by (apply cut_point_bounds; lia).
  f_equal; apply pairwise_sum_upto_enough;
    rewrite ?length_firstn, ?length_skipn; lia.
Qed.

(** *** Successive differences *)

Lemma np_diff_by_index (a : list float) : np_diff a = spec_successive a.
Proof.
  unfold spec_successive. induction a as [|x a IH]; [reflexivity|].
  destruct a as [|y a]; [reflexivity|].
  change (np_diff (x :: y :: a)) with ((y - x) :: np_diff (y :: a)).
  rewrite IH. cbn [List.length Nat.sub]. rewrite Nat.sub_0_r.
  cbn [seq map nth]. f_equal.
  rewrite <- seq_shift, map_map. reflexivity.
Qed.

Lemma np_diff_length (a : list float) :
  List.length (np_diff a) = (List.length a - 1)%nat.
Proof.
  rewrite np_diff_by_index. unfold spec_successive.
  now rewrite length_map, length_seq.
Qed.

Lemma np_diff_constant (x : float) (n : nat) :
  is_finite x = true -> np_diff (repeat x n) = repeat 0 (n - 1).
Proof.
  intros Hx. induction n as [|n IH]; [reflexivity|].
  destruct n as [|n]; [reflexivity|].
  change (repeat x (S (S n))) with (x :: x :: repeat x n).
  change (np_diff (x :: x :: repeat x n)) with ((x - x) :: np_diff (repeat x (S n))).
  rewrite IH, (sub_diag x Hx). cbn [Nat.sub]. now rewrite Nat.sub_0_r.
Qed.

Lemma count_above_50_of_zeros (n : nat) : count_above_50 (repeat 0 n) = 0%nat.
Proof.
  unfold count_above_50. induction n as [|n IH]; [reflexivity | exact IH].
Qed.

(** *** The greatest and the least element *)

Lemma maximum_cases (x y : float) : maximum x y = x \/ maximum x y = y.
Proof. unfold maximum. destruct ((y <=? x) || is_nan x); auto. Qed.

Lemma minimum_cases (x y : float) : minimum x y = x \/ minimum x y = y.
Proof. unfold minimum. destruct ((x <=? y) || is_nan x); auto. Qed.

Lemma maximum_bounds (x y : float) :
  is_nan x = false -> is_nan y = false ->
  (x <=? maximum x y) = true /\ (y <=? maximum x y) = true.
Proof.
  intros Hx Hy. unfold maximum. rewrite Hx, orb_false_r.
  destruct (y <=? x) eqn:E.
  - split; [now apply leb_refl | exact E].
  - split; [now apply leb_total | now apply leb_refl].
Qed.

Lemma minimum_bounds (x y : float) :
  is_nan x = false -> is_nan y = false ->
  (minimum x y <=? x) = true /\ (minimum x y <=? y) = true.
Proof.
  intros Hx Hy. unfold minimum. rewrite Hx, orb_false_r.
  destruct (x <=? y) eqn:E.
  - split; [now apply leb_refl | exact E].
  - split; [now apply leb_total | now apply leb_refl].
Qed.

Lemma np_max_greatest (rest : list float) (x : float) :
  no_nan (x :: rest) -> is_max (np_max x rest) (x :: rest).
Proof.
  unfold np_max. revert x; induction rest as [|y rest IH]; intros x Hn.
  - split; [now left | intros z [<-|[]]; apply leb_refl, Hn; now left].
  - cbn [fold_left].
    assert (Hx : is_nan x = false) by (apply Hn; now left).
    assert (Hy : is_nan y = false) by (apply Hn; right; now left).
    destruct (maximum_bounds x y Hx Hy) as [Bx By].
    destruct (IH (maximum x y)) as [Hin Hle].
    { intros z [<-|Hz]; [|apply Hn; right; now right].
      destruct (maximum_cases x y) as [->| ->]; assumption. }
    split.
    + destruct Hin as [E|Hin]; [|right; now right].
      rewrite <- E. destruct (maximum_cases x y) as [->| ->];
        [now left | right; now left].
    + intros z [<-|[<-|Hz]].
      * eapply leb_trans; [exact Bx | apply Hle; now left].
      * eapply leb_trans; [exact By | apply Hle; now left].
      * apply Hle. now right.
Qed.

Lemma np_min_least (rest : list float) (x : float) :
  no_nan (x :: rest) -> is_min (np_min x rest) (x :: rest).
Proof.
  unfold np_min. revert x; induction rest as [|y rest IH]; intros x Hn.
  - split; [now left | intros z [<-|[]]; apply leb_refl, Hn; now left].
  - cbn [fold_left].
    assert (Hx : is_nan x = false) by (apply Hn; now left).
    assert (Hy : is_nan y = false) by (apply Hn; right; now left).
    destruct (minimum_bounds x y Hx Hy) as [Bx By].
    destruct (IH (minimum x y)) as [Hin Hle].
    { intros z [<-|Hz]; [|apply Hn; right; now right].
      destruct (minimum_cases x y) as [->| ->]; assumption. }
    split.
    + destruct Hin as [E|Hin]; [|right; now right].
      rewrite <- E. destruct (minimum_cases x y) as [->| ->];
        [now left | right; now left].
    + intros z [<-|[<-|Hz]].
      * eapply leb_trans; [apply Hle; now left | exact Bx].
      * eapply leb_trans; [apply Hle; now left | exact By].
      * apply Hle. now right.
Qed.

Lemma np_max_is_sample (rest : list float) (x : float) :
  In (np_max x rest) (x :: rest).
Proof.
  unfold np_max. revert x; induction rest as [|y rest IH]; intros x;
    [now left|].
  cbn [fold_left]. destruct (IH (maximum x y)) as [E|Hin]; [|right; now right].
  rewrite <- E. destruct (maximum_cases x y) as [->| ->];
    [now left | right; now left].
Qed.

Lemma np_min_is_sample (rest : list float) (x : float) :
  In (np_min x rest) (x :: rest).
Proof.
  unfold np_min. revert x; induction rest as [|y rest IH]; intros x;
    [now left|].
  cbn [fold_left]. destruct (IH (minimum x y)) as [E|Hin]; [|right; now right].
  rewrite <- E. destruct (minimum_cases x y) as [->| ->];
    [now left | right; now left].
Qed.

(** *** The metrics *)

(** The float64 computation and the exact one give a result for the same
    arrays: those of 2 elements or more. *)
Lemma calculate_hrv_metrics_presence (heart_rates : list float) (exact : list R) :
  List.length exact = List.length heart_rates ->
  (calculate_hrv_metrics heart_rates = None <->
   Cardio.calculate_hrv_metrics exact = None).
Proof.
  destruct heart_rates as [|x [|y l]], exact as [|x' [|y' l']];
    simpl; intros H; try discriminate H; split; intros E;
    try reflexivity; discriminate E.
Qed.

(** The metrics of a constant series whose interval is finite. *)
Lemma constant_series_metrics (bpm : float) (n : nat) :
  (2 <= n)%nat -> (Z.of_nat n < 2 ^ 63)%Z -> is_finite (60000 / bpm) = true ->
  exists m,
    calculate_hrv_metrics (repeat bpm n) = Some m /\
    rmssd m = 0 /\ pnn50 m = 0 /\
    (np_mean (repeat (60000 / bpm) n) = 60000 / bpm -> sdnn m = 0).
Proof.
  intros Hn H63 Hfin. destruct n as [|[|n]]; try lia.
  eexists. split; [reflexivity|]. cbn [rmssd sdnn pnn50].
  change (bpm :: bpm :: repeat bpm n) with (repeat bpm (S (S n))).
  rewrite map_repeat, (np_diff_constant _ _ Hfin), map_repeat.
  cbn [Nat.sub]. change (0 * 0) with 0. repeat split.
  - rewrite np_mean_zeros by lia. reflexivity.
  - rewrite count_above_50_of_zeros, repeat_length. cbn [Nat.ltb Nat.leb].
    change (float_of_nat 0) with 0. rewrite zero_div_count by lia. reflexivity.
  - intros Hmean. unfold np_std. rewrite Hmean, !map_repeat, (sub_diag _ Hfin).
    change (0 * 0) with 0. rewrite np_sum_zeros, repeat_length.
    rewrite zero_div_count by lia. reflexivity.
Qed.


(** Up to 1000 samples of 60 bpm: the intervals are 1000 each, their sums
    are exact, and the three measures of variability are 0. *)
Lemma sixty_is_flat (n : nat) : (2 <= n <= 1000)%nat -> is_flat 60 n = true.
Proof.
  intros H.
  assert (A : forallb (is_flat 60) (seq 2 999) = true) by (vm_compute; reflexivity).
  rewrite forallb_forall in A. apply A. apply in_seq. lia.
Qed.

(** C4. In float64, [calculate_hrv_metrics] gives no result for fewer than
    2 samples.  For 2 samples or more it gives, every operation rounded:
    SDNN, the population standard deviation of the intervals 60000/h; RMSSD,
    the square root of the mean squared successive difference; pNN50, the
    number of successive differences above 50 in absolute value over their
    number, times 100; the mean of the heart rates, their greatest and least
    element when none is a NaN, and the range.  A constant series of 2
    samples or more whose interval 60000/bpm is finite has RMSSD and pNN50
    equal to 0, and SDNN equal to 0 when the computed mean of the intervals
    is the interval itself; all three are 0 for 2 to 1000 samples of
    60 bpm. *)
Theorem calculate_hrv_metrics_float64 :
  (forall heart_rates, (List.length heart_rates < 2)%nat ->
     calculate_hrv_metrics heart_rates = None) /\
  (forall heart_rates, (2 <= List.length heart_rates)%nat ->
     exists m,
       calculate_hrv_metrics heart_rates = Some m /\
       sdnn m = spec_population_std (spec_rr heart_rates) /\
       rmssd m = spec_rmssd (spec_rr heart_rates) /\
       pnn50 m = spec_pnn50 (spec_rr heart_rates) /\
       mean_hr m = spec_mean heart_rates /\
       (no_nan heart_rates ->
        is_max (max_hr m) heart_rates /\ is_min (min_hr m) heart_rates) /\
       hr_range m = max_hr m - min_hr m) /\
  (forall bpm n,
     (2 <= n)%nat -> (Z.of_nat n < 2 ^ 63)%Z -> is_finite (60000 / bpm) = true ->
     exists m,
       calculate_hrv_metrics (repeat bpm n) = Some m /\
       rmssd m = 0 /\ pnn50 m = 0 /\
       (np_mean (repeat (60000 / bpm) n) = 60000 / bpm -> sdnn m = 0)) /\
  (forall n, (2 <= n <= 1000)%nat ->
     exists m,
       calculate_hrv_metrics (repeat 60 n) = Some m /\
       rmssd m = 0 /\ sdnn m = 0 /\ pnn50 m = 0 /\ mean_hr m = 60).
Proof.
  split; [|split; [|split]].
  - intros [|x [|y l]] H; simpl in H; try reflexivity; lia.
  - intros heart_rates H. destruct heart_rates as [|x [|y l]]; simpl in H; try lia.
    eexists. split; [reflexivity|].
    cbn [sdnn rmssd pnn50 mean_hr max_hr min_hr hr_range].
    fold (spec_rr (x :: y :: l)). repeat split.
    + unfold np_std, spec_population_std, spec_mean, np_mean.
      now rewrite map_map, length_map.
    + unfold spec_rmssd, spec_mean, np_mean. now rewrite np_diff_by_index.
    + unfold spec_pnn50, count_above_50. rewrite <- np_diff_by_index.
      rewrite np_diff_length. unfold spec_rr. rewrite length_map.
      reflexivity.
    + now apply (np_max_greatest (y :: l) x).
    + now apply (np_max_greatest (y :: l) x).
    + now apply (np_min_least (y :: l) x).
    + now apply (np_min_least (y :: l) x).
  - apply constant_series_metrics.
  - intros n Hn. pose proof (sixty_is_flat n Hn) as F. unfold is_flat in F.
    destruct (calculate_hrv_metrics (repeat 60 n)) as [m|]; [|discriminate F].
    rewrite !andb_true_iff, !Leibniz.eqb_spec in F.
    exists m. intuition.
Qed.

Lemma calculate_hrv_metrics_float64_witness :
  calculate_hrv_metrics [72] = None /\
  (exists m,
     calculate_hrv_metrics [60; 75; 90] = Some m /\
     mean_hr m = spec_mean [60; 75; 90] /\
     is_max (max_hr m) [60; 75; 90] /\ is_min (min_hr m) [60; 75; 90]) /\
  (exists m,
     calculate_hrv_metrics (repeat 45 2) = Some m /\
     rmssd m = 0 /\ pnn50 m = 0 /\ sdnn m = 0) /\
  (exists m,
     calculate_hrv_metrics (repeat 60 3) = Some m /\
     rmssd m = 0 /\ sdnn m = 0 /\ pnn50 m = 0 /\ mean_hr m = 60).
Proof.
  split; [|split; [|split]].
  - apply (proj1 calculate_hrv_metrics_float64). simpl. lia.
  - destruct (proj1 (proj2 calculate_hrv_metrics_float64) [60; 75; 90])
      as [m [E [_ [_ [_ [Hmean [Hbounds _]]]]]]]; [simpl; lia|].
    exists m. split; [exact E|]. split; [exact Hmean|].
    apply Hbounds. intros x [<-|[<-|[<-|[]]]]; reflexivity.
  - destruct (proj1 (proj2 (proj2 calculate_hrv_metrics_float64)) 45 2%nat)
      as [m [E [Hr [Hp Hs]]]]; [lia | simpl; lia | reflexivity |].
    exists m. repeat split; trivial. apply Hs. reflexivity.
  - apply (proj2 (proj2 (proj2 calculate_hrv_metrics_float64)) 3%nat). lia.
Defined.

(** Three samples of 70 bpm: the computed mean of the three equal intervals
    60000/70 is not the interval, and SDNN is [2^-43], not 0. *)
Lemma constant_series_sdnn_is_not_zero :
  exists m,
    calculate_hrv_metrics [70; 70; 70] = Some m /\
    rmssd m = 0 /\ pnn50 m = 0 /\
    sdnn m = 0x1p-43 /\
    (sdnn m =? 0) = false.
Proof. eexists. split; [reflexivity|]. repeat split. Qed.

(** Three samples of 0 bpm: the intervals are infinite, and SDNN and RMSSD
    are NaN. *)
Example calculate_hrv_metrics_of_zero_rates :
  exists m,
    calculate_hrv_metrics [0; 0; 0] = Some m /\
    is_nan (sdnn m) = true /\
    is_nan (rmssd m) = true /\
    pnn50 m = 0.
Proof. eexists. split; [reflexivity|]. repeat split. Qed.

End Float64Facts.

(** ** Loading the heart-rate table *)

Section LoadFacts.
Import Text Cardio.

Variable read_csv : string -> Result DataFrame.
Variable parse_number : string -> option R.

Lemma get_column_map (name : string) (g : list Cell -> list Cell) (df : DataFrame) :
  get_column name (map (fun c => (fst c, g (snd c))) df) =
  match get_column name df with
  | Ok v => Ok (g v)
  | Raise e => Raise e
  end.
Proof.
  induction df as [|[k v] df IH]; simpl; [reflexivity|].
  destruct (String.eqb k name); [reflexivity | exact IH].
Qed.

Lemma get_set_column (name : string) (v : list Cell) (df : DataFrame) :
  get_column name (set_column name v df) = Ok v.
Proof.
  induction df as [|[k w] df IH]; simpl.
  - now rewrite String.eqb_refl.
  - destruct (String.eqb k name) eqn:E; simpl; rewrite E; [reflexivity | exact IH].
Qed.

Lemma get_column_missing (name : string) (df : DataFrame) :
  (forall c, In c df -> fst c <> name) ->
  get_column name df = Raise (KeyError name).
Proof.
  induction df as [|[k v] df IH]; intros H; simpl; [reflexivity|].
  destruct (String.eqb_spec k name) as [E|_].
  - exfalso. apply (H (k, v)); [now left | exact E].
  - apply IH. intros c Hc. apply H. now right.
Qed.

Lemma has_column_false (name : string) (df : DataFrame) :
  (forall c, In c df -> fst c <> name) -> has_column name df = false.
Proof.
  intros H. unfold has_column. destruct (existsb _ df) eqn:E; [|reflexivity].
  apply existsb_exists in E. destruct E as [c [Hc Hn]].
  apply String.eqb_eq in Hn. now destruct (H c Hc).
Qed.

Lemma get_column_has (name : string) (df : DataFrame) (col : list Cell) :
  get_column name df = Ok col -> has_column name df = true.
Proof.
  induction df as [|[k v] df IH]; simpl; [discriminate|].
  destruct (String.eqb k name); [reflexivity | exact IH].
Qed.

Lemma names_heart_rate_iff (col : string) :
  contains (lower col) "heart" || contains (lower col) "bpm" = true <->
  names_heart_rate col.
Proof.
  unfold names_heart_rate. rewrite orb_true_iff.
  rewrite <- (contains_lower_iff col "heart"), <- (contains_lower_iff col "bpm").
  reflexivity.
Qed.

Lemma find_heart_column_none (df : DataFrame) :
  (forall c, In c df -> ~ names_heart_rate (fst c)) -> find_heart_column df = None.
Proof.
  induction df as [|[k v] df IH]; intros H; simpl; [reflexivity|].
  destruct (contains (lower k) "heart" || contains (lower k) "bpm") eqn:E.
  - exfalso. apply (H (k, v)); [now left | now apply names_heart_rate_iff].
  - apply IH. intros c Hc. apply H. now right.
Qed.

Lemma find_heart_column_first (before after : DataFrame) (name : string)
      (col : list Cell) :
  names_heart_rate name ->
  (forall c, In c before -> ~ names_heart_rate (fst c)) ->
  find_heart_column (before ++ (name, col) :: after)%list = Some col.
Proof.
  intros Hname. induction before as [|[k v] before IH]; intros H; simpl.
  - apply names_heart_rate_iff in Hname. now rewrite Hname.
  - destruct (contains (lower k) "heart" || contains (lower k) "bpm") eqn:E.
    + exfalso. apply (H (k, v)); [now left | now apply names_heart_rate_iff].
    + apply IH. intros c Hc. apply H. now right.
Qed.

Lemma discover_column_found (df : DataFrame) (col : list Cell) :
  heart_rate_column df col ->
  get_column "heart_rate" (discover_column df) = Ok col.
Proof.
  unfold discover_column.
  intros [H | [Hno [before [name [after [-> [Hname Hbefore]]]]]]].
  - now rewrite (get_column_has _ _ _ H).
  - rewrite (has_column_false _ _ Hno).
    rewrite (find_heart_column_first _ _ _ _ Hname Hbefore).
    apply get_set_column.
Qed.

Lemma discover_column_none (df : DataFrame) :
  no_heart_rate_column df ->
  get_column "heart_rate" (discover_column df) = Raise (KeyError "heart_rate").
Proof.
  intros H. unfold discover_column.
  rewrite has_column_false by (intros c Hc; apply (H c Hc)).
  rewrite find_heart_column_none by (intros c Hc; apply (H c Hc)).
  apply get_column_missing. intros c Hc. apply (H c Hc).
Qed.

Lemma keep_notna (col : list Cell) : keep (map notna col) col = filter notna col.
Proof.
  induction col as [|c col IH]; simpl; [reflexivity|].
  destruct (notna c); now rewrite IH.
Qed.

Lemma coerce_and_drop_found (df : DataFrame) (col : list Cell) :
  get_column "heart_rate" df = Ok col ->
  exists df',
    coerce_and_drop parse_number df = Ok df' /\
    get_column "heart_rate" df' = Ok (valid_cells parse_number col).
Proof.
  intros H. unfold coerce_and_drop, dropna. rewrite H. cbn [bind].
  rewrite get_column_map, H. cbn [bind]. rewrite get_set_column. cbn [bind].
  eexists; split; [reflexivity|].
  rewrite get_column_map, get_set_column, !keep_notna. reflexivity.
Qed.

Lemma coerce_and_drop_missing (df : DataFrame) (e : Exn) :
  get_column "heart_rate" df = Raise e ->
  coerce_and_drop parse_number df = Raise e.
Proof.
  intros H. unfold coerce_and_drop, dropna. now rewrite H.
Qed.

Lemma valid_cells_none (col : list Cell) :
  Forall (fun c => to_numeric parse_number c = NaN) col ->
  valid_cells parse_number col = [].
Proof.
  unfold valid_cells. induction 1 as [|c col Hc _ IH]; [reflexivity|].
  cbn [filter]. destruct (notna c); [|exact IH].
  cbn [map filter]. rewrite Hc. exact IH.
Qed.

(** What the analysis returns once the table is read, by the heart-rate
    column of the table. *)
Lemma analyze_after_read (csv_path : string) (df : DataFrame) :
  read_csv csv_path = Ok df ->
  (forall e, get_column "heart_rate" (discover_column df) = Raise e ->
     analyze_cardiovascular_stress read_csv parse_number csv_path = Ok None) /\
  (forall col, get_column "heart_rate" (discover_column df) = Ok col ->
     exists r,
       analyze_cardiovascular_stress read_csv parse_number csv_path = Ok r /\
       (valid_cells parse_number col = [] -> r = None)).
Proof.
  intros Hread.
  unfold analyze_cardiovascular_stress, load_heart_rate_data, load_body.
  rewrite Hread. cbn [bind]. split.
  - intros e H. now rewrite (coerce_and_drop_missing _ _ H).
  - intros col H. destruct (coerce_and_drop_found _ _ H) as [df' [E G]].
    rewrite E. cbn [try_or_none].
    destruct (len df' =? 0)%nat; [now exists None|].
    rewrite G. cbn [bind].
    destruct (calculate_hrv_metrics (values (valid_cells parse_number col))) as [m|] eqn:Em.
    + eexists; split; [reflexivity|]. intros Hv. rewrite Hv in Em. discriminate Em.
    + now exists None.
Qed.

(** C9. The analysis never hands an exception to its caller.  Its result is
    absent when the file cannot be read, when no column is called
    "heart_rate" and none has "heart" or "bpm" in its name, and when no cell
    of the heart-rate column is a number after coercion. *)
Theorem analyze_cardiovascular_stress_fails_closed (csv_path : string) :
  let analysis :=
    analyze_cardiovascular_stress read_csv parse_number csv_path in
  (exists r, analysis = Ok r) /\
  (forall e, read_csv csv_path = Raise e -> analysis = Ok None) /\
  (forall df, read_csv csv_path = Ok df -> no_heart_rate_column df ->
     analysis = Ok None) /\
  (forall df col, read_csv csv_path = Ok df -> heart_rate_column df col ->
     Forall (fun c => to_numeric parse_number c = NaN) col ->
     analysis = Ok None).
Proof.
  intros analysis. subst analysis.
  assert (Hraise : forall e, read_csv csv_path = Raise e ->
            analyze_cardiovascular_stress read_csv parse_number csv_path
            = Ok None).
  { intros e H.
    unfold analyze_cardiovascular_stress, load_heart_rate_data, load_body.
    now rewrite H. }
  split; [|split; [exact Hraise | split]].
  - destruct (read_csv csv_path) as [df|e] eqn:Hread; [|exists None; now apply (Hraise e)].
    destruct (analyze_after_read _ _ Hread) as [Hmiss Hfound].
    destruct (get_column "heart_rate" (discover_column df)) as [col|e] eqn:G.
    + destruct (Hfound col eq_refl) as [r [E _]]. now exists r.
    + exists None. now apply (Hmiss e).
  - intros df Hread Hno.
    apply (proj1 (analyze_after_read _ _ Hread) (KeyError "heart_rate")).
    now apply discover_column_none.
  - intros df col Hread Hcol Hnan.
    destruct (proj2 (analyze_after_read _ _ Hread) col (discover_column_found _ _ Hcol))
      as [r [E Hr]].
    rewrite E, Hr; [reflexivity | now apply valid_cells_none].
Qed.

End LoadFacts.

Lemma analyze_cardiovascular_stress_witness :
  Cardio.analyze_cardiovascular_stress Cardio.sample_read_csv
    Cardio.parse_nothing "missing.csv" = Cardio.Ok None /\
  Cardio.analyze_cardiovascular_stress Cardio.sample_read_csv
    Cardio.parse_nothing "heart.csv" = Cardio.Ok None.
Proof.
  split.
  - apply (analyze_cardiovascular_stress_fails_closed Cardio.sample_read_csv
             Cardio.parse_nothing "missing.csv") with (e := Cardio.ReadError).
    reflexivity.
  - apply (analyze_cardiovascular_stress_fails_closed Cardio.sample_read_csv
             Cardio.parse_nothing "heart.csv")
      with (df := Cardio.table_without_numbers)
           (col := [Cardio.Str "n/a"; Cardio.NaN]).
    + reflexivity.
    + right. split.
      * intros c [<-|[<-|[]]]; discriminate.
      * exists [("time", [Cardio.Str "08:00"; Cardio.Str "08:01"])], "Heart BPM", [].
        split; [reflexivity | split].
        -- apply names_heart_rate_iff. reflexivity.
        -- intros c [<-|[]] H. apply names_heart_rate_iff in H. discriminate H.
    + repeat constructor.
Defined.

(** ** Sample runs *)

Example score_quite_often :
  Scoring.score_response Scoring.neutral_sentiment "Quite OFTEN, I think" = 2%Z.
Proof. reflexivity. Qed.

Example score_never_beats_always :
  Scoring.score_response Scoring.neutral_sentiment "Always, never daily" = 0%Z.
Proof. reflexivity. Qed.

Example score_blank_answer :
  Scoring.score_response (fun _ => None) "   " = 1%Z.
Proof. reflexivity. Qed.

Example total_of_three_answers :
  Scoring.phq9_total_of Scoring.neutral_sentiment
    ["every day"; "I feel alright"; "rarely"] = 4%Z.
Proof. reflexivity. Qed.

Example vocal_tie_goes_to_first_seen :
  Vocal.aggregate_vocal_emotions ["happy"; "sad"; "sad"; "happy"] = Some "happy".
Proof. reflexivity. Qed.

Example vocal_counter :
  Vocal.Counter ["happy"; "sad"; "sad"; "happy"; "sad"]
  = [("happy", 2%nat); ("sad", 3%nat)].
Proof. reflexivity. Qed.

Example pos_count_sample : Keywords.pos_count "Good, I am GLAD" = 2%Z.
Proof. reflexivity. Qed.

Example neg_count_sample : Keywords.neg_count "sad and lonely" = 2%Z.
Proof. reflexivity. Qed.

Example title_sample : Text.title "sad and HAPPY-go lucky1x" = "Sad And Happy-Go Lucky1X".
Proof. reflexivity. Qed.

Example format_2f_sample :
  Text.format_2f (- (1 # 2)) = "-0.50" /\ Text.format_2f (1 # 8) = "0.12" /\
  Text.format_2f (12345 # 1000) = "12.34".
Proof. repeat split. Qed.

Example report_of_total_15 :
  snd (Report.generate_recommendations Report.total_15_item9_1)
  = Text.join_lines
      (Report.significant_lines ++ Report.crisis_block ++ Report.wellness_lines)%list.
Proof. reflexivity. Qed.

(** * Further properties of the scoring code *)

Section ScoreRangeFacts.
Import Text Scoring.

Variable sentiment : string -> option Sentiment.

Lemma score_response_values (text : string) :
  In (score_response sentiment text) [0%Z; 1%Z; 2%Z; 3%Z].
Proof.
  unfold score_response, sentiment_score.
  destruct (any_in bucket0 _); [simpl; tauto|].
  destruct (any_in bucket1 _); [simpl; tauto|].
  destruct (any_in bucket2 _); [simpl; tauto|].
  destruct (any_in bucket3 _); [simpl; tauto|].
  destruct (Qlt_le_dec _ _); [simpl; tauto|].
  destruct (Qlt_le_dec _ _); simpl; tauto.
Qed.

Lemma fold_add_from (l : list Z) (acc : Z) :
  fold_left Z.add l acc = (acc + fold_left Z.add l 0)%Z.
Proof.
  revert acc; induction l as [|x l IH]; intros acc; simpl; [lia|].
  rewrite IH, (IH x). lia.
Qed.

Lemma sum_of_scores_bounds (scores : list Z) :
  Forall (fun s => (0 <= s <= 3)%Z) scores ->
  (0 <= fold_left Z.add scores 0 <= 3 * Z.of_nat (List.length scores))%Z.
Proof.
  induction 1 as [|x l Hx _ IH]; [simpl; lia|].
  cbn [fold_left List.length]. rewrite fold_add_from. lia.
Qed.

Lemma item_scores_in_range (responses : list string) :
  Forall (fun s => (0 <= s <= 3)%Z) (item_scores sentiment responses).
Proof.
  unfold item_scores. apply Forall_forall. intros s Hs.
  apply in_map_iff in Hs. destruct Hs as [text [<- _]].
  pose proof (score_response_values text) as H. simpl in H.
  destruct H as [H|[H|[H|[H|[]]]]]; rewrite <- H; lia.
Qed.

Lemma length_item_scores (responses : list string) :
  List.length (item_scores sentiment responses) = Nat.min 9 (List.length responses).
Proof. unfold item_scores. now rewrite length_map, length_firstn. Qed.

Lemma phq9_total_bounds (responses : list string) :
  (0 <= phq9_total_of sentiment responses
     <= 3 * Z.of_nat (Nat.min 9 (List.length responses)))%Z.
Proof.
  unfold phq9_total_of. rewrite <- length_item_scores.
  apply sum_of_scores_bounds, item_scores_in_range.
Qed.

(** X1. Every item score is 0, 1, 2 or 3; at most nine items are scored;
    the total lies between 0 and three times the number of scored items,
    hence between 0 and 27. *)
Theorem phq9_scores_in_range (responses : list string) :
  Forall (fun s => In s [0%Z; 1%Z; 2%Z; 3%Z]) (item_scores sentiment responses) /\
  List.length (item_scores sentiment responses) = Nat.min 9 (List.length responses) /\
  (0 <= phq9_total_of sentiment responses
     <= 3 * Z.of_nat (Nat.min 9 (List.length responses)))%Z /\
  (phq9_total_of sentiment responses <= 27)%Z.
Proof.
  split; [|split; [apply length_item_scores | split; [apply phq9_total_bounds|]]].
  - unfold item_scores. apply Forall_forall. intros s Hs.
    apply in_map_iff in Hs. destruct Hs as [text [<- _]].
    apply score_response_values.
  - pose proof (phq9_total_bounds responses). lia.
Qed.

(** X2. Answers after the ninth change neither the item scores nor the
    total. *)
Theorem answers_after_the_ninth_are_ignored (responses extra : list string) :
  (9 <= List.length responses)%nat ->
  item_scores sentiment (responses ++ extra) = item_scores sentiment responses /\
  phq9_total_of sentiment (responses ++ extra) = phq9_total_of sentiment responses.
Proof.
  intros H.
  assert (E : item_scores sentiment (responses ++ extra)%list
              = item_scores sentiment responses).
  { unfold item_scores. rewrite firstn_app.
    replace (9 - List.length responses)%nat with 0%nat by lia.
    cbn [firstn]. now rewrite app_nil_r. }
  split; [exact E|]. unfold phq9_total_of. now rewrite E.
Qed.

(** *** Blank answers *)

Lemma lower_ascii_space (c : ascii) : is_space c = true -> lower_ascii c = c.
Proof.
  destruct c as [[] [] [] [] [] [] [] []]; try reflexivity; discriminate.
Qed.

Lemma is_blank_lower (s : string) : is_blank s = true -> lower s = s.
Proof.
  induction s as [|c s IH]; [reflexivity|]. simpl.
  rewrite andb_true_iff. intros [Hc Hs]. now rewrite lower_ascii_space, IH.
Qed.

Lemma is_blank_app (a b : string) :
  is_blank (a ++ b) = is_blank a && is_blank b.
Proof.
  induction a as [|c a IH]; [reflexivity|]. simpl. now rewrite IH, andb_assoc.
Qed.

Lemma blank_contains_blank (s w : string) :
  is_blank s = true -> contains s w = true -> is_blank w = true.
Proof.
  intros Hs Hw. apply contains_iff in Hw. destruct Hw as [pre [post ->]].
  rewrite !is_blank_app, !andb_true_iff in Hs. tauto.
Qed.

Lemma blank_matches_no_bucket (bucket : list string) (s : string) :
  Forall (fun w => is_blank w = false) bucket ->
  is_blank s = true -> any_in bucket s = false.
Proof.
  intros Hb Hs. unfold any_in. destruct (existsb _ bucket) eqn:E; [|reflexivity].
  apply existsb_exists in E. destruct E as [w [Hin Hw]].
  rewrite Forall_forall in Hb. specialize (Hb w Hin).
  now rewrite (blank_contains_blank _ _ Hs Hw) in Hb.
Qed.

Lemma blank_scores_1 (text : string) :
  is_blank text = true -> score_response sentiment text = 1%Z.
Proof.
  intros Hb. unfold score_response. rewrite (is_blank_lower _ Hb).
  rewrite !blank_matches_no_bucket; trivial; try (repeat constructor).
  unfold sentiment_score, analyze_sentiment. rewrite Hb. reflexivity.
Qed.

(** X3. An answer that is empty or made of white space scores 1, whatever
    the sentiment capability would say; so a submission of blank answers
    totals the number of scored items. *)
Theorem blank_answers_score_1 (responses : list string) :
  Forall (fun text => is_blank text = true) responses ->
  Forall (fun s => s = 1%Z) (item_scores sentiment responses) /\
  phq9_total_of sentiment responses = Z.of_nat (Nat.min 9 (List.length responses)).
Proof.
  intros Hb.
  assert (H1 : Forall (fun s => s = 1%Z) (item_scores sentiment responses)).
  { unfold item_scores. apply Forall_forall. intros s Hs.
    apply in_map_iff in Hs. destruct Hs as [text [<- Hin]].
    apply blank_scores_1. rewrite Forall_forall in Hb. apply Hb.
    rewrite <- (firstn_skipn 9 responses). apply in_or_app. now left. }
  split; [exact H1|]. unfold phq9_total_of. rewrite <- length_item_scores.
  induction H1 as [|x l -> _ IH]; [reflexivity|].
  cbn [fold_left List.length]. rewrite fold_add_from, IH. lia.
Qed.

(** X4. The band a submission can reach is limited by the number of
    answers: Mild needs 2 answers, Moderate 4, Moderately Severe 5 and
    Severe 7. *)
Theorem band_needs_enough_answers (responses : list string) :
  let band := Report.classify (phq9_total_of sentiment responses) in
  (band = Report.Mild -> (2 <= List.length responses)%nat) /\
  (band = Report.Moderate -> (4 <= List.length responses)%nat) /\
  (band = Report.ModeratelySevere -> (5 <= List.length responses)%nat) /\
  (band = Report.Severe -> (7 <= List.length responses)%nat).
Proof.
  intros band. subst band. pose proof (phq9_total_bounds responses) as Hb.
  unfold Report.classify.
  destruct (Z.leb_spec (phq9_total_of sentiment responses) 4);
    destruct (Z.leb_spec (phq9_total_of sentiment responses) 9);
    destruct (Z.leb_spec (phq9_total_of sentiment responses) 14);
    destruct (Z.leb_spec (phq9_total_of sentiment responses) 19);
    repeat split; intros E; try discriminate E; lia.
Qed.

End ScoreRangeFacts.

Lemma answers_after_the_ninth_witness :
  Scoring.phq9_total_of Scoring.neutral_sentiment
    (repeat "often" 9 ++ ["always"; "always"])
  = Scoring.phq9_total_of Scoring.neutral_sentiment (repeat "often" 9).
Proof.
  apply (answers_after_the_ninth_are_ignored Scoring.neutral_sentiment
           (repeat "often" 9) ["always"; "always"]).
  simpl. lia.
Defined.

Lemma blank_answers_witness :
  Scoring.phq9_total_of Scoring.neutral_sentiment (repeat "  " 9) = 9%Z.
Proof.
  apply (blank_answers_score_1 Scoring.neutral_sentiment (repeat "  " 9)).
  repeat constructor.
Defined.

(** * Further properties of the report *)

Section ReportShapeFacts.
Import Text Report.

Lemma string_app_assoc (a b c : string) : (a ++ b) ++ c = a ++ b ++ c.
Proof. induction a as [|x a IH]; simpl; [reflexivity | now rewrite IH]. Qed.

Lemma join_lines_app (l1 l2 : list string) :
  l1 <> [] -> l2 <> [] ->
  join_lines (l1 ++ l2) = join_lines l1 ++ newline ++ join_lines l2.
Proof.
  unfold join_lines. intros H1 H2. induction l1 as [|x l1 IH]; [now destruct H1|].
  destruct l1 as [|y l1].
  - destruct l2 as [|z l2]; [now destruct H2 | reflexivity].
  - change (((x :: y :: l1) ++ l2)%list) with (x :: ((y :: l1) ++ l2))%list.
    change (String.concat newline (x :: ((y :: l1) ++ l2)%list))
      with (x ++ newline ++ String.concat newline ((y :: l1) ++ l2)%list).
    rewrite IH by discriminate.
    change (String.concat newline (x :: y :: l1))
      with (x ++ newline ++ String.concat newline (y :: l1)).
    now rewrite !string_app_assoc.
Qed.

Lemma phq9_lines_not_empty (a : Assessment) : phq9_lines a <> [].
Proof.
  unfold phq9_lines.
  destruct (_ <=? 4)%Z; [discriminate|].
  destruct (_ <=? 9)%Z; [discriminate|].
  destruct (_ <=? 14)%Z; discriminate.
Qed.

(** X5. Whatever the assessment, the report text starts with the guidance
    chosen by the total and ends with a line break followed by the block of
    general wellness tips. *)
Theorem report_ends_with_wellness (a : Assessment) :
  (exists tail,
     snd (generate_recommendations a) = join_lines (phq9_lines a) ++ tail) /\
  (exists head,
     snd (generate_recommendations a)
     = head ++ newline ++ join_lines wellness_lines).
Proof.
  unfold generate_recommendations, recommendations. cbn [snd]. split.
  - exists (newline ++ join_lines (facial_lines a ++ vocal_lines a ++
                                   language_lines a ++ wellness_lines)).
    apply join_lines_app; [apply phq9_lines_not_empty|].
    intros E. apply app_eq_nil in E. destruct E as [_ E].
    apply app_eq_nil in E. destruct E as [_ E].
    apply app_eq_nil in E. destruct E as [_ E]. discriminate E.
  - exists (join_lines (phq9_lines a ++ facial_lines a ++ vocal_lines a ++
                        language_lines a)).
    rewrite <- join_lines_app.
    + now rewrite <- !app_assoc.
    + intros E. apply app_eq_nil in E. now apply (phq9_lines_not_empty a).
    + discriminate.
Qed.

Lemma in_recommendations (line : string) (a : Assessment) :
  In line (recommendations a) <->
  In line (phq9_lines a) \/ In line (facial_lines a) \/ In line (vocal_lines a) \/
  In line (language_lines a) \/ In line wellness_lines.
Proof. unfold recommendations. now rewrite !in_app_iff. Qed.

Ltac absent_from_phq9 :=
  unfold phq9_lines;
  repeat match goal with
         | |- context [if ?b then _ else _] => destruct b
         end; simpl; intuition discriminate.

Ltac absent_from_facial a :=
  unfold facial_lines; destruct (truthy (facial_dominant_emotion a)) as [?e|];
  [generalize (title e); intros ?t; destruct (member e _)|];
  simpl; intuition discriminate.

Ltac absent_from_vocal a :=
  unfold vocal_lines; destruct (truthy (vocal_dominant_emotion a)) as [?e|];
  [generalize (title e); intros ?t; destruct (member e _)|];
  simpl; intuition discriminate.

Ltac absent_from_language a :=
  unfold language_lines; destruct (sentiment_polarity a) as [?p|];
  [generalize (format_2f p); intros ?t;
   destruct (Qlt_le_dec p _); [|destruct (Qlt_le_dec _ p)]|];
  simpl; intuition discriminate.

Lemma truthy_some (o : option string) (e : string) :
  truthy o = Some e <-> o = Some e /\ e <> "".
Proof.
  destruct o as [[|c s]|]; simpl; split.
  - discriminate.
  - intros [E N]. injection E as <-. now destruct N.
  - intros E. injection E as <-. split; [reflexivity | discriminate].
  - now intros [E _].
  - discriminate.
  - now intros [E _].
Qed.

(** X6. The three optional blocks appear exactly when their field is set:
    the facial header when the facial emotion is a non-empty string, the
    voice header when the vocal emotion is a non-empty string, the language
    header when a polarity was computed.  The facial distress line appears
    exactly for the emotions sad, angry, fear and disgust, the vocal one for
    sad, angry and fear. *)
Theorem optional_blocks_presence (a : Assessment) :
  (In "--- Facial Expression Analysis ---" (recommendations a) <->
     exists e, facial_dominant_emotion a = Some e /\ e <> "") /\
  (In "--- Voice Analysis ---" (recommendations a) <->
     exists e, vocal_dominant_emotion a = Some e /\ e <> "") /\
  (In "--- Language Analysis ---" (recommendations a) <->
     sentiment_polarity a <> None) /\
  (In "Your facial expressions suggest emotional distress." (recommendations a) <->
     exists e, facial_dominant_emotion a = Some e /\
               In e ["sad"; "angry"; "fear"; "disgust"]) /\
  (In "Your voice patterns indicate negative emotions." (recommendations a) <->
     exists e, vocal_dominant_emotion a = Some e /\ In e ["sad"; "angry"; "fear"]).
Proof.
  assert (Hmem : forall e words, member e words = true <-> In e words).
  { intros e words. unfold member. rewrite existsb_exists. split.
    - intros [w [Hin Hw]]. apply String.eqb_eq in Hw. now subst.
    - intros Hin. exists e. split; [exact Hin | apply String.eqb_refl]. }
  repeat split.
  - intros H. apply in_recommendations in H.
    destruct H as [H|[H|[H|[H|H]]]].
    + exfalso. revert H. absent_from_phq9.
    + unfold facial_lines in H.
      destruct (truthy (facial_dominant_emotion a)) as [e|] eqn:E; [|destruct H].
      exists e. now apply truthy_some.
    + exfalso. revert H. absent_from_vocal a.
    + exfalso. revert H. absent_from_language a.
    + exfalso. revert H. simpl. intuition discriminate.
  - intros [e He]. apply truthy_some in He. apply in_recommendations.
    right; left. unfold facial_lines. rewrite He. simpl. tauto.
  - intros H. apply in_recommendations in H.
    destruct H as [H|[H|[H|[H|H]]]].
    + exfalso. revert H. absent_from_phq9.
    + exfalso. revert H. absent_from_facial a.
    + unfold vocal_lines in H.
      destruct (truthy (vocal_dominant_emotion a)) as [e|] eqn:E; [|destruct H].
      exists e. now apply truthy_some.
    + exfalso. revert H. absent_from_language a.
    + exfalso. revert H. simpl. intuition discriminate.
  - intros [e He]. apply truthy_some in He. apply in_recommendations.
    right; right; left. unfold vocal_lines. rewrite He. simpl. tauto.
  - intros H. apply in_recommendations in H.
    destruct H as [H|[H|[H|[H|H]]]].
    + exfalso. revert H. absent_from_phq9.
    + exfalso. revert H. absent_from_facial a.
    + exfalso. revert H. absent_from_vocal a.
    + unfold language_lines in H.
      destruct (sentiment_polarity a); [discriminate | destruct H].
    + exfalso. revert H. simpl. intuition discriminate.
  - intros H. apply in_recommendations. right; right; right; left.
    unfold language_lines. destruct (sentiment_polarity a); [|now destruct H].
    simpl. tauto.
  - intros H. apply in_recommendations in H.
    destruct H as [H|[H|[H|[H|H]]]].
    + exfalso. revert H. absent_from_phq9.
    + unfold facial_lines in H.
      destruct (truthy (facial_dominant_emotion a)) as [e|] eqn:E; [|destruct H].
      apply truthy_some in E. exists e. split; [apply E|].
      destruct (member e _) eqn:M; [now apply Hmem|].
      exfalso. revert H. generalize (title e). intros t. simpl. intuition discriminate.
    + exfalso. revert H. absent_from_vocal a.
    + exfalso. revert H. absent_from_language a.
    + exfalso. revert H. simpl. intuition discriminate.
  - intros [e [He Hin]]. apply in_recommendations. right; left.
    assert (Hne : e <> "").
    { intros ->. simpl in Hin. intuition discriminate. }
    unfold facial_lines. rewrite (proj2 (truthy_some _ _) (conj He Hne)).
    rewrite (proj2 (Hmem _ _) Hin). simpl. tauto.
  - intros H. apply in_recommendations in H.
    destruct H as [H|[H|[H|[H|H]]]].
    + exfalso. revert H. absent_from_phq9.
    + exfalso. revert H. absent_from_facial a.
    + unfold vocal_lines in H.
      destruct (truthy (vocal_dominant_emotion a)) as [e|] eqn:E; [|destruct H].
      apply truthy_some in E. exists e. split; [apply E|].
      destruct (member e _) eqn:M; [now apply Hmem|].
      exfalso. revert H. generalize (title e). intros t. simpl. intuition discriminate.
    + exfalso. revert H. absent_from_language a.
    + exfalso. revert H. simpl. intuition discriminate.
  - intros [e [He Hin]]. apply in_recommendations. right; right; left.
    assert (Hne : e <> "").
    { intros ->. simpl in Hin. intuition discriminate. }
    unfold vocal_lines. rewrite (proj2 (truthy_some _ _) (conj He Hne)).
    rewrite (proj2 (Hmem _ _) Hin). simpl. tauto.
Qed.

End ReportShapeFacts.

(** * Further properties of the keyword counts *)

Section KeywordCountFacts.
Import Text Keywords.

Lemma occurs_in_trans (w s t : string) :
  occurs_in w s -> occurs_in s t -> occurs_in w t.
Proof.
  intros [p1 [q1 ->]] [p2 [q2 ->]]. exists (p2 ++ p1), (q1 ++ q2).
  now rewrite !string_app_assoc.
Qed.

Lemma occurs_in_lower (s t : string) :
  occurs_in s t -> occurs_in (lower s) (lower t).
Proof.
  intros [p [q ->]]. exists (lower p), (lower q). now rewrite !lower_app.
Qed.

Lemma count_in_bounds (words : list string) (s : string) :
  (0 <= count_in words s <= Z.of_nat (List.length words))%Z.
Proof.
  induction words as [|w ws IH]; [simpl; lia|].
  cbn [count_in List.length]. destruct (contains s w); lia.
Qed.

Lemma count_in_monotone (words : list string) (s t : string) :
  occurs_in s t -> (count_in words s <= count_in words t)%Z.
Proof.
  intros Hst. induction words as [|w ws IH]; [simpl; lia|].
  cbn [count_in]. destruct (contains s w) eqn:E.
  - apply contains_iff in E.
    rewrite (proj2 (contains_iff t w) (occurs_in_trans _ _ _ E Hst)). lia.
  - destruct (contains t w); lia.
Qed.

(** X7. The positive count lies between 0 and 12 and the negative count
    between 0 and 20; and a text that contains another text counts at least
    as many keywords of each kind. *)
Theorem keyword_counts_bounded_and_monotone (text longer : string) :
  occurs_in text longer ->
  (0 <= pos_count text <= 12)%Z /\ (0 <= neg_count text <= 20)%Z /\
  (pos_count text <= pos_count longer)%Z /\
  (neg_count text <= neg_count longer)%Z.
Proof.
  intros H. unfold pos_count, neg_count. repeat split.
  - apply (count_in_bounds positive_words).
  - apply (count_in_bounds positive_words).
  - apply (count_in_bounds negative_words).
  - apply (count_in_bounds negative_words).
  - apply count_in_monotone, occurs_in_lower, H.
  - apply count_in_monotone, occurs_in_lower, H.
Qed.

End KeywordCountFacts.

Lemma keyword_counts_witness :
  (Keywords.neg_count "so sad" <= Keywords.neg_count "I am so sad and Lonely")%Z.
Proof.
  apply (keyword_counts_bounded_and_monotone "so sad" "I am so sad and Lonely").
  exists "I am ", " and Lonely". reflexivity.
Defined.

(** * Further properties of the heart-rate pipeline *)

Section HRVRangeFacts.
Import Cardio.
Open Scope R_scope.

(** X10. The score never goes down when the mean heart rate goes up and
    RMSSD and SDNN go down. *)
Theorem stress_score_monotone (m m' : HRVMetrics) (k k' : nat) :
  mean_hr m <= mean_hr m' -> rmssd m' <= rmssd m -> sdnn m' <= sdnn m ->
  (stress_score (classify_stress m k) <= stress_score (classify_stress m' k'))%Z.
Proof.
  intros Hm Hr Hs.
  unfold classify_stress, sdnn_step, rmssd_step, mean_hr_step.
  cbn [stress_score].
  destruct (Rgt_dec (mean_hr m) 90); [|destruct (Rgt_dec (mean_hr m) 80)];
    (destruct (Rgt_dec (mean_hr m') 90); [|destruct (Rgt_dec (mean_hr m') 80)]);
    try (exfalso; lra);
    (destruct (Rlt_dec (rmssd m) 15); [|destruct (Rlt_dec (rmssd m) 25)]);
    (destruct (Rlt_dec (rmssd m') 15); [|destruct (Rlt_dec (rmssd m') 25)]);
    try (exfalso; lra);
    destruct (Rlt_dec (sdnn m) 40); destruct (Rlt_dec (sdnn m') 40);
    try (exfalso; lra); cbn; lia.
Qed.

End HRVRangeFacts.

Lemma stress_score_monotone_witness :
  (Cardio.stress_score
     (Cardio.classify_stress
        (Cardio.mkHRV 50 30 0 70 75 65 10) 5)
   <= Cardio.stress_score (Cardio.classify_stress Cardio.strained_metrics 5))%Z.
Proof.
  apply stress_score_monotone; simpl; lra.
Defined.

(** * The metrics and the score in float64 *)

Section SteadyRateFacts.
Import PrimFloat Float64.
Open Scope float_scope.

(** X8. For two samples or more, SDNN and RMSSD are never below 0 (they are
    0, above 0 or NaN), the maximum and the minimum are samples, and when no
    sample is a NaN the minimum is not above the maximum.  The computed mean
    is not always between them: three samples of 60.2 bpm have a mean above
    their maximum. *)
Theorem hrv_metrics_float64_ranges :
  (forall heart_rates, (2 <= List.length heart_rates)%nat ->
     exists m,
       calculate_hrv_metrics heart_rates = Some m /\
       (sdnn m <? 0) = false /\ (rmssd m <? 0) = false /\
       In (max_hr m) heart_rates /\ In (min_hr m) heart_rates /\
       (no_nan heart_rates -> (min_hr m <=? max_hr m) = true)) /\
  (exists m,
     calculate_hrv_metrics
       [0x1.e19999999999ap+5; 0x1.e19999999999ap+5; 0x1.e19999999999ap+5]
     = Some m /\
     (max_hr m <? mean_hr m) = true).
Proof.
  split.
  - intros heart_rates H. destruct heart_rates as [|x [|y l]]; simpl in H; try lia.
    eexists. split; [reflexivity|].
    cbn [sdnn rmssd max_hr min_hr]. repeat split.
    + apply sqrt_not_negative.
    + apply sqrt_not_negative.
    + apply (np_max_is_sample (y :: l) x).
    + apply (np_min_is_sample (y :: l) x).
    + intros Hn.
      destruct (np_max_greatest (y :: l) x Hn) as [_ Hmax].
      destruct (np_min_least (y :: l) x Hn) as [_ Hmin].
      apply leb_trans with x; [apply Hmin | apply Hmax]; now left.
  - eexists. split; reflexivity.
Qed.

Lemma hrv_metrics_float64_ranges_witness :
  exists m,
    calculate_hrv_metrics [60; 75; 90] = Some m /\
    (sdnn m <? 0) = false /\ (rmssd m <? 0) = false /\
    (min_hr m <=? max_hr m) = true.
Proof.
  destruct (proj1 hrv_metrics_float64_ranges [60; 75; 90])
    as [m [E [Hs [Hr [_ [_ Hb]]]]]]; [simpl; lia|].
  exists m. repeat split; trivial.
  apply Hb. intros x [<-|[<-|[<-|[]]]]; reflexivity.
Defined.

Lemma stress_score_bounds_float64 (m : HRVMetrics) : (0 <= stress_score m <= 8)%Z.
Proof.
  unfold stress_score.
  destruct (90 <? mean_hr m); [|destruct (80 <? mean_hr m)];
    (destruct (rmssd m <? 15); [|destruct (rmssd m <? 25)]);
    destruct (sdnn m <? 40); lia.
Qed.

(** X11. In float64, a perfectly steady heart rate whose interval 60000/bpm
    is finite has RMSSD 0, which adds 3: its score is 3 or more.  When the
    computed mean of the intervals is the interval itself, SDNN is 0 too,
    the score is 5 or more and the level is not Low.  A rate of 0 has
    infinite intervals: SDNN and RMSSD are NaN, no test holds, the score is
    0 and the level Low. *)
Theorem steady_heart_rate_score :
  (forall bpm n,
     (2 <= n)%nat -> (Z.of_nat n < 2 ^ 63)%Z -> is_finite (60000 / bpm) = true ->
     exists m,
       calculate_hrv_metrics (repeat bpm n) = Some m /\
       (3 <= stress_score m <= 8)%Z /\
       (np_mean (repeat (60000 / bpm) n) = 60000 / bpm ->
        (5 <= stress_score m)%Z /\ stress_level m <> Cardio.Low)) /\
  (exists m,
     calculate_hrv_metrics [0; 0; 0] = Some m /\
     is_nan (sdnn m) = true /\ is_nan (rmssd m) = true /\
     stress_score m = 0%Z /\ stress_level m = Cardio.Low).
Proof.
  split.
  - intros bpm n Hn H63 Hfin.
    destruct (constant_series_metrics bpm n Hn H63 Hfin) as [m [E [Hr [_ Hs]]]].
    exists m. split; [exact E|].
    assert (H3 : (3 <= stress_score m)%Z).
    { unfold stress_score. rewrite Hr. change (0 <? 15) with true.
      destruct (90 <? mean_hr m); [|destruct (80 <? mean_hr m)];
        destruct (sdnn m <? 40); lia. }
    split; [split; [exact H3 | apply stress_score_bounds_float64]|].
    intros Hmean.
    assert (H5 : (5 <= stress_score m)%Z).
    { unfold stress_score. rewrite Hr, (Hs Hmean).
      change (0 <? 15) with true. change (0 <? 40) with true.
      destruct (90 <? mean_hr m); [|destruct (80 <? mean_hr m)]; lia. }
    split; [exact H5|]. unfold stress_level, Cardio.level_of.
    destruct (stress_score m >=? 7)%Z eqn:E7; [discriminate|].
    destruct (stress_score m >=? 4)%Z eqn:E4; [discriminate|]. lia.
  - eexists. split; [reflexivity|]. repeat split.
Qed.

Lemma steady_heart_rate_score_witness :
  exists m,
    calculate_hrv_metrics (repeat 60 3) = Some m /\
    (3 <= stress_score m <= 8)%Z /\
    (5 <= stress_score m)%Z /\ stress_level m <> Cardio.Low.
Proof.
  destruct (proj1 steady_heart_rate_score 60 3%nat) as [m [E [H H5]]];
    [lia | simpl; lia | reflexivity |].
  exists m. split; [exact E|]. split; [exact H|]. apply H5. reflexivity.
Defined.

End SteadyRateFacts.

(** * Properties of the audio analysis *)

Section AudioFacts.
Import Text Cardio Audio.

Lemma int16_of_range (lo hi : Z) :
  is_byte lo -> is_byte hi -> (-32768 <= int16_of lo hi < 32768)%Z.
Proof.
  unfold is_byte, int16_of. intros Hlo Hhi.
  destruct (Z.ltb_spec (lo + 256 * hi) 32768); lia.
Qed.

Lemma list_two_by_two (P : list Z -> Prop) :
  P [] -> (forall x, P [x]) -> (forall x y l, P l -> P (x :: y :: l)) ->
  forall l, P l.
Proof.
  intros H0 H1 H2 l.
  assert (H : P l /\ forall x, P (x :: l)).
  { induction l as [|y l [IH IHx]]; [now split|]. split; [apply IHx|].
    intros x. now apply H2. }
  apply H.
Qed.

Lemma frombuffer_even (bytes : list Z) :
  Nat.even (List.length bytes) = true <-> exists samples, frombuffer bytes = Ok samples.
Proof.
  induction bytes as [|x|lo hi rest IH] using list_two_by_two.
  - split; [intros _; now exists [] | reflexivity].
  - split; [discriminate | intros [s H]; discriminate H].
  - change (Nat.even (List.length (lo :: hi :: rest)))
      with (Nat.even (List.length rest)).
    cbn [frombuffer]. rewrite IH.
    destruct (frombuffer rest) as [s|e]; split.
    + intros _. now eexists.
    + intros _. now exists s.
    + intros [s H]. discriminate H.
    + intros [s H]. discriminate H.
Qed.

Lemma frombuffer_samples (bytes : list Z) (samples : list Z) :
  Forall is_byte bytes -> frombuffer bytes = Ok samples ->
  List.length bytes = (2 * List.length samples)%nat /\
  Forall (fun z => (-32768 <= z < 32768)%Z) samples.
Proof.
  revert samples.
  induction bytes as [|x|lo hi rest IH] using list_two_by_two; intros samples Hb H.
  - injection H as <-. split; [reflexivity | constructor].
  - discriminate H.
  - cbn [frombuffer] in H. destruct (frombuffer rest) as [s|e] eqn:E; [|discriminate H].
    injection H as <-.
    inversion Hb as [|? ? Hlo Hb']; subst. inversion Hb' as [|? ? Hhi Hrest]; subst.
    destruct (IH s Hrest eq_refl) as [Hlen Hs].
    split; [simpl; lia|]. constructor; [now apply int16_of_range | exact Hs].
Qed.

(** X13. A buffer of bytes decodes to samples exactly when its length is
    even; there is then one sample for two bytes and every normalised
    sample lies in [-1, 1). *)
Theorem pcm_samples_are_normalised (bytes : list Z) :
  Forall is_byte bytes ->
  (Nat.even (List.length bytes) = true <->
     exists samples, frombuffer bytes = Ok samples) /\
  (forall samples, frombuffer bytes = Ok samples ->
     List.length bytes = (2 * List.length samples)%nat /\
     List.length (normalise samples) = List.length samples /\
     Forall (fun q => (- (1) <= q)%Q /\ (q < 1)%Q) (normalise samples)).
Proof.
  intros Hb. split; [apply frombuffer_even|].
  intros samples H. destruct (frombuffer_samples _ _ Hb H) as [Hlen Hs].
  split; [exact Hlen|]. unfold normalise. split; [apply length_map|].
  apply Forall_forall. intros q Hq. apply in_map_iff in Hq.
  destruct Hq as [z [<- Hz]]. rewrite Forall_forall in Hs. specialize (Hs z Hz).
  unfold Qle, Qlt, Qdiv, Qmult, Qinv, inject_Z. simpl. lia.
Qed.

Variable Features : Type.
Variable MODEL_LOADED : bool.
Variable b64decode : string -> Result (list Z).
Variable mfcc_statistics : list Q -> Result Features.
Variable scaler_transform : Features -> Result Features.
Variable clf_predict : Features -> Result string.

Let analyze : AudioBlob -> string :=
  analyze_audio_chunk Features MODEL_LOADED b64decode mfcc_statistics
    scaler_transform clf_predict.

Lemma predict_vocal_emotion_lower (features : option Features) :
  lower (predict_vocal_emotion Features MODEL_LOADED clf_predict features)
  = predict_vocal_emotion Features MODEL_LOADED clf_predict features.
Proof.
  unfold predict_vocal_emotion. destruct features as [f|]; [|reflexivity].
  destruct (negb MODEL_LOADED); [reflexivity|].
  destruct (clf_predict f); [apply lower_idem | reflexivity].
Qed.

Lemma analyze_audio_chunk_lower (blob : AudioBlob) : lower (analyze blob) = analyze blob.
Proof.
  unfold analyze, analyze_audio_chunk, analyze_body.
  destruct (match blob with
            | BlobStr s => b64decode (if contains s "," then second_field s else s)
            | BlobBytes b => Ok b
            | BlobOther => Raise ReadError
            end) as [bytes|e]; [|reflexivity].
  destruct (frombuffer bytes); [apply predict_vocal_emotion_lower | reflexivity].
Qed.

(** X12. [analyze_audio_chunk] answers with a label in lower case.  The
    label is "neutral" whenever the model is not loaded, when the blob is
    neither a string nor bytes, when the bytes are odd in number, when the
    base64 text does not decode or when the classifier raises. *)
Theorem analyze_audio_chunk_falls_back_to_neutral (blob : AudioBlob) :
  lower (analyze blob) = analyze blob /\
  (MODEL_LOADED = false -> analyze blob = "neutral") /\
  (blob = BlobOther -> analyze blob = "neutral") /\
  (forall b, blob = BlobBytes b -> Nat.even (List.length b) = false ->
     analyze blob = "neutral") /\
  (forall s e, blob = BlobStr s ->
     b64decode (if contains s "," then second_field s else s) = Raise e ->
     analyze blob = "neutral") /\
  ((forall f, exists e, clf_predict f = Raise e) -> analyze blob = "neutral").
Proof.
  split; [apply analyze_audio_chunk_lower|].
  unfold analyze, analyze_audio_chunk, analyze_body.
  repeat split.
  - intros ->.
    destruct (match blob with
              | BlobStr s => b64decode (if contains s "," then second_field s else s)
              | BlobBytes b => Ok b
              | BlobOther => Raise ReadError
              end) as [bytes|e]; [|reflexivity].
    destruct (frombuffer bytes); [|reflexivity].
    unfold predict_vocal_emotion. now destruct (extract_features_from_audio _ _ _ _ _).
  - now intros ->.
  - intros b -> Hodd.
    destruct (frombuffer b) as [s|e] eqn:E; [|reflexivity].
    assert (Nat.even (List.length b) = true) by (apply frombuffer_even; now exists s).
    congruence.
  - intros s e -> H. now rewrite H.
  - intros Hclf.
    destruct (match blob with
              | BlobStr s => b64decode (if contains s "," then second_field s else s)
              | BlobBytes b => Ok b
              | BlobOther => Raise ReadError
              end) as [bytes|e]; [|reflexivity].
    destruct (frombuffer bytes); [|reflexivity].
    unfold predict_vocal_emotion.
    destruct (extract_features_from_audio _ _ _ _ _) as [f|]; [|reflexivity].
    destruct (negb MODEL_LOADED); [reflexivity|].
    destruct (Hclf f) as [e ->]. reflexivity.
Qed.

End AudioFacts.

Lemma pcm_samples_witness :
  exists samples,
    Audio.frombuffer [0; 128; 255; 127]%Z = Cardio.Ok samples /\
    Forall (fun q => (- (1) <= q)%Q /\ (q < 1)%Q) (Audio.normalise samples).
Proof.
  exists [(-32768)%Z; 32767%Z]. split; [reflexivity|].
  apply (pcm_samples_are_normalised [0; 128; 255; 127]%Z).
  - repeat constructor; unfold Audio.is_byte; lia.
  - reflexivity.
Defined.

(** * Properties of the session store *)

Section StoreFacts.
Import Text Sessions.

Lemma get_set_same (key : string) (value : SessionData) (store : Store) :
  get key (set key value store) = Some value.
Proof.
  induction store as [|[k v] store IH]; simpl.
  - now rewrite String.eqb_refl.
  - destruct (String.eqb k key) eqn:E; simpl; rewrite E; [reflexivity | exact IH].
Qed.

Lemma get_set_other (key other : string) (value : SessionData) (store : Store) :
  other <> key -> get other (set key value store) = get other store.
Proof.
  intros Hne. induction store as [|[k v] store IH]; simpl.
  - destruct (String.eqb_spec key other) as [E|_]; [now destruct Hne | reflexivity].
  - destruct (String.eqb_spec k key) as [->|Hk]; simpl.
    + destruct (String.eqb_spec key other) as [E|_]; [now destruct Hne | reflexivity].
    + destruct (String.eqb k other); [reflexivity | exact IH].
Qed.

Lemma get_remove_same (key : string) (store : Store) :
  get key (remove key store) = None.
Proof.
  induction store as [|[k v] store IH]; simpl; [reflexivity|].
  destruct (String.eqb k key) eqn:E; simpl; [exact IH | now rewrite E].
Qed.

Lemma get_remove_other (key other : string) (store : Store) :
  other <> key -> get other (remove key store) = get other store.
Proof.
  intros Hne. induction store as [|[k v] store IH]; simpl; [reflexivity|].
  destruct (String.eqb_spec k key) as [->|Hk]; simpl.
  - destruct (String.eqb_spec key other) as [E|_]; [now destruct Hne | exact IH].
  - destruct (String.eqb k other); [reflexivity | exact IH].
Qed.

Lemma keys_set_present (key : string) (value old : SessionData) (store : Store) :
  get key store = Some old -> map fst (set key value store) = map fst store.
Proof.
  induction store as [|[k v] store IH]; simpl; [discriminate|].
  destruct (String.eqb k key) eqn:E; simpl; [reflexivity|].
  intros H. now rewrite IH.
Qed.

(** X14. A session that was just created is found under its id with empty
    timelines; clearing it makes its id unknown again; neither operation
    changes what is stored under another id, and clearing an unknown id
    changes nothing. *)
Theorem session_store_round_trip (user seconds utcnow : Z) (store : Store) :
  let id := fst (create_session_data user seconds utcnow store) in
  let created := snd (create_session_data user seconds utcnow store) in
  id = session_id_of user seconds /\
  get_session_data id created = Some (new_session user utcnow) /\
  (forall other, other <> id -> get_session_data other created
                                = get_session_data other store) /\
  get_session_data id (clear_session_data id created) = None /\
  (forall other, other <> id ->
     get_session_data other (clear_session_data id created)
     = get_session_data other store) /\
  (forall unknown, get_session_data unknown store = None ->
     clear_session_data unknown store = store).
Proof.
  cbn [create_session_data fst snd]. unfold get_session_data, clear_session_data.
  repeat split.
  - apply get_set_same.
  - intros other Hne. now apply get_set_other.
  - rewrite get_set_same. apply get_remove_same.
  - intros other Hne. rewrite get_set_same.
    rewrite get_remove_other by exact Hne. now apply get_set_other.
  - intros unknown H. now rewrite H.
Qed.

(** *** Session ids *)

Lemma no_underscore_uint (d : Decimal.uint) :
  contains (NilEmpty.string_of_uint d) "_" = false.
Proof. induction d; simpl; trivial. Qed.

Lemma no_underscore_int (n : Z) : contains (str_of_int n) "_" = false.
Proof.
  unfold str_of_int, NilZero.string_of_int, NilZero.string_of_uint.
  destruct (Z.to_int n) as [d|d]; destruct d; simpl; trivial;
    apply no_underscore_uint.
Qed.

Lemma str_of_int_inj (n n' : Z) : str_of_int n = str_of_int n' -> n = n'.
Proof.
  unfold str_of_int. intros H. apply DecimalZ.to_int_inj.
  assert (Hn : forall z, Z.to_int z <> Decimal.Pos Decimal.Nil /\
                         Z.to_int z <> Decimal.Neg Decimal.Nil).
  { intros [|p|p]; simpl; split; try discriminate; intros E; injection E as E;
      now apply DecimalPos.Unsigned.to_uint_nonnil in E. }
  assert (E : Some (Z.to_int n) = Some (Z.to_int n')).
  { rewrite <- (NilZero.isi (Z.to_int n)), <- (NilZero.isi (Z.to_int n'));
      try apply Hn. now rewrite H. }
  now injection E.
Qed.

Lemma split_at_first_underscore (a b c d : string) :
  contains a "_" = false -> contains c "_" = false ->
  a ++ "_" ++ b = c ++ "_" ++ d -> a = c /\ b = d.
Proof.
  revert c; induction a as [|x a IH]; intros c Ha Hc H.
  - destruct c as [|y c]; simpl in H.
    + injection H as H. now split.
    + injection H as <- _. simpl in Hc. discriminate Hc.
  - destruct c as [|y c]; simpl in H.
    + injection H as -> _. simpl in Ha. discriminate Ha.
    + injection H as <- H.
      cbn [contains] in Ha, Hc. apply orb_false_iff in Ha, Hc.
      destruct Ha as [_ Ha], Hc as [_ Hc].
      destruct (IH c Ha Hc H) as [-> ->]. now split.
Qed.

(** X15. Two sessions get the same id exactly when the same user starts
    them within the same second; the later creation then puts a fresh
    session in the place of whatever was stored under that id. *)
Theorem session_id_collision (user user' seconds seconds' : Z) :
  (session_id_of user seconds = session_id_of user' seconds' <->
     user = user' /\ seconds = seconds') /\
  (session_id_of user seconds = session_id_of user' seconds' ->
   forall utcnow store,
     get_session_data (session_id_of user seconds)
       (snd (create_session_data user' seconds' utcnow store))
     = Some (new_session user' utcnow)).
Proof.
  assert (Hiff : session_id_of user seconds = session_id_of user' seconds' <->
                 user = user' /\ seconds = seconds').
  { split; [|now intros [-> ->]].
    unfold session_id_of. intros H.
    apply split_at_first_underscore in H; try apply no_underscore_int.
    destruct H as [Hu Hs]. split; now apply str_of_int_inj. }
  split; [exact Hiff|].
  intros E utcnow store. apply Hiff in E. destruct E as [<- <-].
  cbn [create_session_data snd]. apply get_set_same.
Qed.

End StoreFacts.

(** * Properties of the real-time handlers *)

Section HandlerFacts.
Import Text Cardio Audio Sessions.

Variable Frame : Type.
Variable analyze_base64_frame : Frame -> Result (option (string * Q)).
Variable vocal_emotion_of : AudioBlob -> string.
Variable textblob_sentiment : string -> option Scoring.Sentiment.

Lemma addressed_some (session_id : option string) (store : Store)
      (id : string) (data : SessionData) :
  addressed session_id store = Some (id, data) ->
  session_id = Some id /\ id <> "" /\ get id store = Some data.
Proof.
  unfold addressed. destruct session_id as [[|c s]|]; try discriminate.
  destruct (get (String c s) store) as [d|] eqn:E; [|discriminate].
  intros H. injection H as <- <-. repeat split; [discriminate | exact E].
Qed.

Lemma addressed_none (session_id : option string) (store : Store) :
  addressed session_id store = None <->
  (forall id, session_id = Some id -> id = "" \/ get id store = None).
Proof.
  unfold addressed. destruct session_id as [[|c s]|].
  - split; [intros _ id E; injection E as <-; now left | reflexivity].
  - destruct (get (String c s) store) as [d|] eqn:E; split.
    + discriminate.
    + intros H. destruct (H _ eq_refl) as [H'|H']; [discriminate H'|].
      rewrite E in H'. discriminate H'.
    + intros _ id H. injection H as <-. now right.
    + reflexivity.
  - split; [intros _ id E; discriminate E | reflexivity].
Qed.

(** X16. An event without a session id, with an empty one or with the id of
    no stored session changes nothing and sends nothing back; joining such a
    session is answered with the error message. *)
Theorem unknown_session_is_ignored (session_id : option string) (store : Store) :
  (forall id, session_id = Some id -> id = "" \/ get id store = None) ->
  (forall frame t,
     handle_video_frame Frame analyze_base64_frame
       (mkEvent session_id frame t) store = (store, [])) /\
  (forall blob t,
     handle_audio_chunk vocal_emotion_of (mkEvent session_id blob t) store
     = (store, [])) /\
  (forall text t,
     handle_analyze_text textblob_sentiment (mkEvent session_id text t) store
     = (store, [])) /\
  handle_join_assessment session_id store = (store, [InvalidSession]).
Proof.
  intros H. apply addressed_none in H.
  unfold handle_video_frame, handle_audio_chunk, handle_analyze_text,
    handle_join_assessment. cbn [event_session]. rewrite H. repeat split.
Qed.

Lemma extends_refl (s : SessionData) : extends s s.
Proof.
  unfold extends. repeat split; exists []; rewrite app_nil_r; auto.
Qed.

Lemma set_addressed (id other : string) (old new : SessionData) (store : Store) :
  get id store = Some old -> extends old new ->
  map fst (set id new store) = map fst store /\
  forall s, get other store = Some s ->
    exists s', get other (set id new store) = Some s' /\ extends s s' /\
               (id <> other -> s' = s).
Proof.
  intros Hget Hext. split; [eapply keys_set_present, Hget|].
  intros s Hs. destruct (string_dec other id) as [->|Hne].
  - rewrite get_set_same. exists new. rewrite Hget in Hs. injection Hs as <-.
    split; [reflexivity | split; [exact Hext | now intros []]].
  - rewrite get_set_other by exact Hne. exists s.
    split; [exact Hs | split; [apply extends_refl | reflexivity]].
Qed.

Lemma unchanged_store (other : string) (store : Store) (target : option string) :
  map fst store = map fst store /\
  forall s, get other store = Some s ->
    exists s', get other store = Some s' /\ extends s s' /\
               (target <> Some other -> s' = s).
Proof.
  split; [reflexivity|]. intros s Hs. exists s.
  split; [exact Hs | split; [apply extends_refl | reflexivity]].
Qed.

(** X17. A real-time event neither adds nor removes a session; it leaves
    every session but the one it names as it is, and to that one it adds at
    most one entry at the end of each timeline. *)
Theorem real_time_events_only_append
        (e : Event Frame) (store : Store) (id : string) :
  real_time Frame e = true ->
  let after := step Frame analyze_base64_frame vocal_emotion_of
                 textblob_sentiment store e in
  map fst after = map fst store /\
  forall s, get id store = Some s ->
    exists s', get id after = Some s' /\ extends s s' /\
               (event_target Frame e <> Some id -> s' = s).
Proof.
  intros Hrt after. subst after.
  assert (Hwrap : forall target sid new old,
            addressed target store = Some (sid, old) -> extends old new ->
            map fst (set sid new store) = map fst store /\
            forall s, get id store = Some s ->
              exists s', get id (set sid new store) = Some s' /\ extends s s' /\
                         (target <> Some id -> s' = s)).
  { intros target sid new old Ha Hext.
    apply addressed_some in Ha. destruct Ha as [-> [_ Hget]].
    destruct (set_addressed sid id old new store Hget Hext) as [Hk Hs].
    split; [exact Hk|]. intros s Hg. destruct (Hs s Hg) as [s' [G [X N]]].
    exists s'. split; [exact G | split; [exact X|]].
    intros Hne. apply N. intros ->. now apply Hne. }
  destruct e as [u sec now|sid|data|data|data|sid]; try discriminate Hrt;
    cbn [step event_target].
  - unfold handle_join_assessment.
    destruct (addressed sid store) as [[i d]|]; cbn [fst]; apply unchanged_store.
  - unfold handle_video_frame.
    destruct (addressed (event_session data) store) as [[i d]|] eqn:Ha;
      [|apply unchanged_store].
    destruct (analyze_base64_frame (event_payload data)) as [[[emotion conf]|]|err];
      cbn [fst]; try apply unchanged_store.
    apply (Hwrap _ _ _ _ Ha). unfold extends, append_facial. cbn.
    repeat split; try (exists []; rewrite app_nil_r; auto; fail).
    eexists. split; [reflexivity | simpl; lia].
  - unfold handle_audio_chunk.
    destruct (addressed (event_session data) store) as [[i d]|] eqn:Ha;
      [|apply unchanged_store].
    destruct (vocal_emotion_of (event_payload data)) as [|c label] eqn:El;
      cbn [fst]; [apply unchanged_store|].
    apply (Hwrap _ _ _ _ Ha). unfold extends, append_vocal. cbn.
    repeat split; try (exists []; rewrite app_nil_r; auto; fail);
      (eexists; split; [reflexivity | simpl; lia]).
  - unfold handle_analyze_text.
    destruct (addressed (event_session data) store) as [[i d]|] eqn:Ha;
      [|apply unchanged_store].
    assert (Hx : extends d (append_text (event_payload data) d)).
    { unfold extends, append_text. cbn.
      repeat split; try (exists []; rewrite app_nil_r; auto; fail).
      eexists. split; [reflexivity | simpl; lia]. }
    destruct (event_payload data); cbn [fst]; apply (Hwrap _ _ _ _ Ha Hx).
Qed.

(** *** What holds of every stored session *)

Hypothesis vocal_emotion_lower :
  forall blob, lower (vocal_emotion_of blob) = vocal_emotion_of blob.

Lemma sessions_ok_set (id : string) (new : SessionData) (store : Store) :
  sessions_ok store ->
  session_ok new /\ Forall clean_label (vocal_timeline new) ->
  sessions_ok (set id new store).
Proof.
  intros Hs Hn other s. destruct (string_dec other id) as [->|Hne].
  - rewrite get_set_same. intros E. now injection E as <-.
  - rewrite get_set_other by exact Hne. apply Hs.
Qed.

Lemma sessions_ok_step (e : Event Frame) (store : Store) :
  sessions_ok store ->
  sessions_ok (step Frame analyze_base64_frame vocal_emotion_of
                 textblob_sentiment store e).
Proof.
  intros Hs. destruct e as [u sec now|sid|data|data|data|sid]; cbn [step].
  - cbn [create_session_data snd]. apply sessions_ok_set; [exact Hs|].
    unfold session_ok. cbn. repeat split. constructor.
  - unfold handle_join_assessment.
    now destruct (addressed sid store) as [[i d]|].
  - unfold handle_video_frame.
    destruct (addressed (event_session data) store) as [[i d]|] eqn:Ha; [|exact Hs].
    apply addressed_some in Ha. destruct Ha as [_ [_ Hg]].
    destruct (analyze_base64_frame (event_payload data)) as [[[emotion conf]|]|err];
      cbn [fst]; try exact Hs.
    apply sessions_ok_set; [exact Hs|]. apply (Hs _ _ Hg).
  - unfold handle_audio_chunk.
    destruct (addressed (event_session data) store) as [[i d]|] eqn:Ha; [|exact Hs].
    apply addressed_some in Ha. destruct Ha as [_ [_ Hg]].
    destruct (vocal_emotion_of (event_payload data)) as [|c label] eqn:El;
      cbn [fst]; [exact Hs|].
    apply sessions_ok_set; [exact Hs|].
    destruct (Hs _ _ Hg) as [[Hlen [Hv [Hc Hd]]] Hclean].
    unfold session_ok, append_vocal. cbn. repeat split; trivial.
    + rewrite !length_app, Hlen. reflexivity.
    + apply Forall_app. split; [exact Hclean|]. constructor; [|constructor].
      split; [discriminate|]. rewrite <- El. apply vocal_emotion_lower.
  - unfold handle_analyze_text.
    destruct (addressed (event_session data) store) as [[i d]|] eqn:Ha; [|exact Hs].
    apply addressed_some in Ha. destruct Ha as [_ [_ Hg]].
    assert (sessions_ok (set i (append_text (event_payload data) d) store)).
    { apply sessions_ok_set; [exact Hs|]. apply (Hs _ _ Hg). }
    now destruct (event_payload data).
  - unfold clear_session_data. destruct (get sid store) as [old|]; [|exact Hs].
    intros other s'. destruct (string_dec other sid) as [->|Hne].
    + now rewrite get_remove_same.
    + rewrite get_remove_other by exact Hne. apply Hs.
Qed.

Lemma sessions_ok_run (events : list (Event Frame)) :
  sessions_ok (run Frame analyze_base64_frame vocal_emotion_of
                 textblob_sentiment events).
Proof.
  unfold run.
  assert (H : forall store, sessions_ok store ->
            sessions_ok (fold_left (step Frame analyze_base64_frame
                                      vocal_emotion_of textblob_sentiment)
                                   events store)).
  { induction events as [|e events IH]; intros store Hs; [exact Hs|].
    cbn [fold_left]. apply IH, sessions_ok_step, Hs. }
  apply H. intros id s E. discriminate E.
Qed.

End HandlerFacts.

(** * The sessions a run of events can produce *)

Section ReachableFacts.
Import Text Cardio Audio Sessions Vocal.

Variable Frame : Type.
Variable analyze_base64_frame : Frame -> Result (option (string * Q)).
Variable Features : Type.
Variable MODEL_LOADED : bool.
Variable b64decode : string -> Result (list Z).
Variable mfcc_statistics : list Q -> Result Features.
Variable scaler_transform : Features -> Result Features.
Variable clf_predict : Features -> Result string.
Variable textblob_sentiment : string -> option Scoring.Sentiment.

(** X18. In every store reached from the empty one by creations, real-time
    events and clearings, each session has as many vocal labels as audio
    chunks, its vocal labels are non-empty and in lower case, and the fields
    no handler writes keep their first values. *)
Theorem reachable_sessions_are_consistent
        (events : list (Event Frame)) (id : string) (s : SessionData) :
  get id (run Frame analyze_base64_frame
            (analyze_audio_chunk Features MODEL_LOADED b64decode
               mfcc_statistics scaler_transform clf_predict)
            textblob_sentiment events) = Some s ->
  List.length (vocal_timeline s) = List.length (audio_chunks s) /\
  Forall clean_label (vocal_timeline s) /\
  voice_responses s = [] /\ has_cardiovascular s = false /\ cv_data s = None.
Proof.
  intros H.
  destruct (sessions_ok_run Frame analyze_base64_frame _ textblob_sentiment
              (analyze_audio_chunk_lower Features MODEL_LOADED b64decode
                 mfcc_statistics scaler_transform clf_predict)
              events id s H) as [[Hlen [Hv [Hc Hd]]] Hclean].
  auto.
Qed.

Lemma keys_fold_in (l : list string) (c : list (string * nat)) (k : string) :
  In k (map fst (fold_left (fun counts label => counter_add label counts) l c)) ->
  In k (map fst c) \/ In k l.
Proof.
  revert c; induction l as [|y l IH]; intros c H; [now left|].
  cbn [fold_left] in H. apply IH in H. destruct H as [H|H].
  - apply in_keys_counter_add in H. destruct H as [->|H]; [right; now left | now left].
  - right. now right.
Qed.

Lemma max_by_count_in (items : list (string * nat)) (best : string * nat) :
  In (max_by_count best items) (best :: items).
Proof.
  revert best; induction items as [|item rest IH]; intros best; [now left|].
  cbn [max_by_count]. destruct (snd best <? snd item)%nat.
  - right. apply IH.
  - destruct (IH best) as [H|H]; [now left | right; now right].
Qed.

Lemma aggregate_in_timeline (timeline : list string) :
  timeline <> [] ->
  exists label, aggregate_vocal_emotions timeline = Some label /\ In label timeline.
Proof.
  intros Hne. destruct (counts_of_Counter timeline) as [_ [_ Hkeys]].
  unfold aggregate_vocal_emotions, most_common_1.
  destruct timeline as [|t0 tl]; [now destruct Hne|].
  destruct (Counter (t0 :: tl)) as [|first rest] eqn:EC.
  { exfalso. apply (Hkeys t0). now left. }
  exists (fst (max_by_count first rest)). split; [reflexivity|].
  assert (Hin : In (fst (max_by_count first rest)) (map fst (Counter (t0 :: tl)))).
  { rewrite EC. apply in_map, max_by_count_in. }
  unfold Counter in Hin. apply keys_fold_in in Hin. destruct Hin as [[]|Hin].
  exact Hin.
Qed.

(** X19. The dominant vocal emotion of a reachable session with a vocal
    timeline is one of its labels, hence non-empty and in lower case, as the
    comparisons of the report with "sad", "angry" and "fear" expect. *)
Theorem reachable_vocal_summary_is_clean
        (events : list (Event Frame)) (id : string) (s : SessionData) :
  get id (run Frame analyze_base64_frame
            (analyze_audio_chunk Features MODEL_LOADED b64decode
               mfcc_statistics scaler_transform clf_predict)
            textblob_sentiment events) = Some s ->
  vocal_timeline s <> [] ->
  exists label,
    aggregate_vocal_emotions (vocal_timeline s) = Some label /\
    In label (vocal_timeline s) /\ clean_label label /\
    Report.truthy (Some label) = Some label.
Proof.
  intros H Hne.
  destruct (sessions_ok_run Frame analyze_base64_frame _ textblob_sentiment
              (analyze_audio_chunk_lower Features MODEL_LOADED b64decode
                 mfcc_statistics scaler_transform clf_predict)
              events id s H) as [_ Hclean].
  destruct (aggregate_in_timeline _ Hne) as [label [E Hin]].
  exists label. rewrite Forall_forall in Hclean. specialize (Hclean _ Hin).
  repeat split; trivial; try apply Hclean.
  destruct label; [now destruct (proj1 Hclean) | reflexivity].
Qed.

End ReachableFacts.

Lemma unknown_session_witness :
  Sessions.handle_audio_chunk Sessions.without_model
    (Sessions.mkEvent (Some "8_100") Audio.BlobOther 2)
    (Sessions.run unit Sessions.sees_happy Sessions.without_model
       Scoring.neutral_sentiment Sessions.sample_events)
  = (Sessions.run unit Sessions.sees_happy Sessions.without_model
       Scoring.neutral_sentiment Sessions.sample_events, []).
Proof.
  apply (unknown_session_is_ignored unit Sessions.sees_happy
           Sessions.without_model Scoring.neutral_sentiment (Some "8_100")).
  intros id E. injection E as <-. right. reflexivity.
Defined.

Lemma real_time_events_witness :
  exists s',
    Sessions.get "7_100"
      (Sessions.step unit Sessions.sees_happy Sessions.without_model
         Scoring.neutral_sentiment
         (Sessions.run unit Sessions.sees_happy Sessions.without_model
            Scoring.neutral_sentiment Sessions.sample_events)
         (Sessions.VideoFrame unit (Sessions.mkEvent (Some "7_100") tt 9)))
    = Some s' /\
    Sessions.extends Sessions.sample_session s' /\
    (Sessions.event_target unit
       (Sessions.VideoFrame unit (Sessions.mkEvent (Some "7_100") tt 9))
     <> Some "7_100" -> s' = Sessions.sample_session).
Proof.
  apply (real_time_events_only_append unit Sessions.sees_happy
           Sessions.without_model Scoring.neutral_sentiment
           (Sessions.VideoFrame unit (Sessions.mkEvent (Some "7_100") tt 9))
           (Sessions.run unit Sessions.sees_happy Sessions.without_model
              Scoring.neutral_sentiment Sessions.sample_events)
           "7_100"); reflexivity.
Defined.

Lemma reachable_sessions_witness :
  List.length (Sessions.vocal_timeline Sessions.sample_session)
  = List.length (Sessions.audio_chunks Sessions.sample_session) /\
  Forall Sessions.clean_label (Sessions.vocal_timeline Sessions.sample_session) /\
  Sessions.voice_responses Sessions.sample_session = [] /\
  Sessions.has_cardiovascular Sessions.sample_session = false /\
  Sessions.cv_data Sessions.sample_session = None.
Proof.
  apply (reachable_sessions_are_consistent unit Sessions.sees_happy unit false
           (fun _ => Cardio.Raise Cardio.ReadError) (fun _ => Cardio.Ok tt)
           (fun f => Cardio.Ok f) (fun _ => Cardio.Ok "Sad")
           Scoring.neutral_sentiment Sessions.sample_events "7_100").
  reflexivity.
Defined.

Lemma reachable_vocal_summary_witness :
  exists label,
    Vocal.aggregate_vocal_emotions (Sessions.vocal_timeline Sessions.sample_session)
    = Some label /\
    In label (Sessions.vocal_timeline Sessions.sample_session) /\
    Sessions.clean_label label /\ Report.truthy (Some label) = Some label.
Proof.
  apply (reachable_vocal_summary_is_clean unit Sessions.sees_happy unit false
           (fun _ => Cardio.Raise Cardio.ReadError) (fun _ => Cardio.Ok tt)
           (fun f => Cardio.Ok f) (fun _ => Cardio.Ok "Sad")
           Scoring.neutral_sentiment Sessions.sample_events "7_100").
  - reflexivity.
  - discriminate.
Defined.

(** * When the cardiovascular analysis is present *)

Section PresenceFacts.
Import Text Cardio Table.

Variable read_csv : string -> Result DataFrame.
Variable parse_number : string -> option R.














End PresenceFacts.


(** * Properties of the helpers *)

Section HelperFacts.
Import Text Helpers.

Lemma contains_dot_cons (c : ascii) (s : string) :
  contains (String c s) "." = Ascii.eqb "." c || contains s ".".
Proof. cbn [contains startswith]. now rewrite andb_true_r. Qed.

Lemma after_last_dot_none (s : string) :
  after_last_dot s = None <-> contains s "." = false.
Proof.
  induction s as [|c s IH]; [split; reflexivity|].
  rewrite contains_dot_cons. cbn [after_last_dot].
  destruct (after_last_dot s) as [e|].
  - split; [discriminate|]. intros H. apply orb_false_iff in H.
    destruct H as [_ H]. apply IH in H. discriminate H.
  - rewrite (proj1 IH eq_refl), orb_false_r, (Ascii.eqb_sym "." c).
    destruct (Ascii.eqb c "."); split; intros H; (reflexivity || discriminate H).
Qed.

Lemma after_last_dot_some (s extension : string) :
  after_last_dot s = Some extension <->
  exists stem, s = stem ++ "." ++ extension /\ contains extension "." = false.
Proof.
  revert extension; induction s as [|c s IH]; intros extension.
  - split; [discriminate|]. intros [[|x stem] [H _]]; discriminate H.
  - cbn [after_last_dot]. destruct (after_last_dot s) as [e|] eqn:E.
    + split.
      * intros H. injection H as <-. destruct (proj1 (IH e) eq_refl) as [stem [-> Hno]].
        exists (String c stem). now split.
      * intros [stem [H Hno]]. destruct stem as [|x stem]; simpl in H.
        -- injection H as _ ->. apply after_last_dot_none in Hno. congruence.
        -- injection H as _ H. apply IH. now exists stem.
    + apply after_last_dot_none in E. split.
      * destruct (Ascii.eqb_spec c ".") as [->|_]; [|discriminate].
        intros H. injection H as <-. exists "". now split.
      * intros [stem [H Hno]]. destruct stem as [|x stem]; simpl in H.
        -- injection H as -> ->. reflexivity.
        -- injection H as _ H. exfalso.
           assert (G : contains s "." = true).
           { apply contains_iff. rewrite H. now exists stem, extension. }
           congruence.
Qed.

(** X20. A file name is allowed exactly when it has a dot and the text
    after its last dot, in lower case, is one of the allowed extensions; a
    name without a dot is never allowed. *)
Theorem allowed_file_spec (filename : string) (allowed : list string) :
  (allowed_file filename allowed = true <->
     exists stem extension,
       filename = stem ++ "." ++ extension /\
       contains extension "." = false /\ In (lower extension) allowed) /\
  (contains filename "." = false -> allowed_file filename allowed = false).
Proof.
  assert (Hmem : forall e words, Report.member e words = true <-> In e words).
  { intros e words. unfold Report.member. rewrite existsb_exists. split.
    - intros [w [Hin Hw]]. apply String.eqb_eq in Hw. now subst.
    - intros Hin. exists e. split; [exact Hin | apply String.eqb_refl]. }
  unfold allowed_file. split.
  - destruct (contains filename ".") eqn:Ed.
    + destruct (after_last_dot filename) as [e|] eqn:E.
      * rewrite Hmem. apply after_last_dot_some in E. destruct E as [stem [-> Hno]].
        split.
        -- intros Hin. now exists stem, e.
        -- intros [stem' [e' [H [Hno' Hin]]]].
           assert (G : after_last_dot (stem ++ "." ++ e) = Some e')
             by (apply after_last_dot_some; now exists stem').
           assert (G' : after_last_dot (stem ++ "." ++ e) = Some e)
             by (apply after_last_dot_some; now exists stem).
           rewrite G in G'. injection G' as ->. exact Hin.
      * apply after_last_dot_none in E. congruence.
    + split; [discriminate|]. intros [stem [e [-> _]]]. exfalso.
      assert (G : contains (stem ++ "." ++ e) "." = true).
      { apply contains_iff. now exists stem, e. }
      congruence.
  - now intros ->.
Qed.

(** *** The dominant emotion of a face *)

Lemma max_by_score_ge (items : list (string * Q)) (best : string * Q) :
  (snd best <= snd (max_by_score best items))%Q.
Proof.
  revert best; induction items as [|item rest IH]; intros best; simpl.
  - apply Qle_refl.
  - destruct (Qlt_le_dec (snd best) (snd item)) as [Hlt|Hge]; [|apply IH].
    eapply Qle_trans; [apply Qlt_le_weak, Hlt | apply IH].
Qed.

Lemma max_by_score_split (items : list (string * Q)) (best : string * Q) :
  exists p q,
    best :: items = (p ++ max_by_score best items :: q)%list /\
    (forall x, In x p -> (snd x < snd (max_by_score best items))%Q) /\
    (forall x, In x q -> (snd x <= snd (max_by_score best items))%Q).
Proof.
  revert best; induction items as [|item rest IH]; intros best; simpl.
  - exists [], []. repeat split; intros x [].
  - destruct (Qlt_le_dec (snd best) (snd item)) as [Hlt|Hge].
    + destruct (IH item) as [p [q [E [Hp Hq]]]].
      exists (best :: p), q. repeat split; trivial.
      * simpl. now rewrite E.
      * intros x [<-|Hx]; [|now apply Hp].
        eapply Qlt_le_trans; [exact Hlt | apply max_by_score_ge].
    + destruct (IH best) as [p [q [E [Hp Hq]]]].
      destruct p as [|b p]; simpl in E; injection E as Eb E.
      * exists [], (item :: q). repeat split.
        -- simpl. now rewrite <- Eb, E.
        -- intros x [].
        -- intros x [<-|Hx]; [now rewrite <- Eb | now apply Hq].
      * subst b. exists (best :: item :: p), q. repeat split.
        -- simpl. now rewrite <- E.
        -- intros x [<-|[<-|Hx]].
           ++ apply Hp. now left.
           ++ eapply Qle_lt_trans; [exact Hge | apply Hp; now left].
           ++ apply Hp. now right.
        -- exact Hq.
Qed.

(** X21. For a face with at least one emotion score, [process_frame] names
    an emotion of the dict whose score no other emotion exceeds, the first
    such one in the order of the dict, and captions the face with that name
    and its score to two decimals. *)
Theorem dominant_emotion_is_first_maximum (emotions : list (string * Q)) :
  emotions <> [] ->
  exists emotion conf before after,
    dominant emotions = Some (emotion, conf) /\
    caption emotions = Some (emotion ++ ": " ++ format_2f conf) /\
    emotions = (before ++ (emotion, conf) :: after)%list /\
    (forall x, In x before -> (snd x < conf)%Q) /\
    (forall x, In x after -> (snd x <= conf)%Q).
Proof.
  intros Hne. destruct emotions as [|first rest]; [now destruct Hne|].
  destruct (max_by_score_split rest first) as [p [q [E [Hp Hq]]]].
  unfold caption. cbn [dominant].
  destruct (max_by_score first rest) as [emotion conf] eqn:Em.
  exists emotion, conf, p, q. repeat split; trivial.
Qed.

(** *** The dashboard *)

Lemma fold_add_between (totals : list Z) (lo hi : Z) :
  Forall (fun t => (lo <= t <= hi)%Z) totals ->
  (Z.of_nat (List.length totals) * lo <= fold_left Z.add totals 0
   <= Z.of_nat (List.length totals) * hi)%Z.
Proof.
  induction 1 as [|t l Ht _ IH]; [simpl; lia|].
  cbn [fold_left List.length]. rewrite fold_add_from. lia.
Qed.

(** X22. Without assessments the dashboard shows no latest total and the
    average 0; otherwise the latest total is the first of the list and the
    average lies between any two bounds of the totals, so between 0 and 27
    for totals in that range. *)
Theorem dashboard_average_between (totals : list Z) (lo hi : Z) :
  Forall (fun t => (lo <= t <= hi)%Z) totals ->
  (totals = [] -> dashboard totals = (0%nat, None, 0%Q)) /\
  (totals <> [] ->
     exists latest average,
       dashboard totals = (List.length totals, Some latest, average) /\
       hd_error totals = Some latest /\
       (inject_Z lo <= average)%Q /\ (average <= inject_Z hi)%Q).
Proof.
  intros Hb. split; [now intros ->|]. intros Hne.
  destruct totals as [|t l]; [now destruct Hne|].
  pose proof (fold_add_between _ _ _ Hb) as Hs.
  unfold dashboard. cbn [List.length Nat.ltb Nat.leb hd_error] in *.
  eexists _, _. split; [reflexivity | split; [reflexivity|]].
  set (n := Z.of_nat (S (List.length l))) in *.
  set (total := fold_left Z.add (t :: l) 0%Z) in *.
  assert (Hn : (0 < n)%Z) by (unfold n; lia).
  clearbody total n.
  unfold Qle, Qdiv, Qmult, Qinv, inject_Z. destruct n as [|p|p]; try lia.
  cbn. split; nia.
Qed.

End HelperFacts.

Lemma dominant_emotion_witness :
  exists emotion conf before after,
    Helpers.dominant [("sad", 1 # 4); ("happy", 1 # 2); ("fear", 1 # 2)]
    = Some (emotion, conf) /\
    Helpers.caption [("sad", 1 # 4); ("happy", 1 # 2); ("fear", 1 # 2)]
    = Some (emotion ++ ": " ++ Text.format_2f conf) /\
    [("sad", 1 # 4); ("happy", 1 # 2); ("fear", 1 # 2)]
    = (before ++ (emotion, conf) :: after)%list /\
    (forall x, In x before -> (snd x < conf)%Q) /\
    (forall x, In x after -> (snd x <= conf)%Q).
Proof.
  apply (dominant_emotion_is_first_maximum
           [("sad", 1 # 4); ("happy", 1 # 2); ("fear", 1 # 2)]).
  discriminate.
Defined.

Lemma dashboard_average_witness :
  exists latest average,
    Helpers.dashboard [12; 3; 27]%Z = (3%nat, Some latest, average) /\
    hd_error [12; 3; 27]%Z = Some latest /\
    (inject_Z 0 <= average)%Q /\ (average <= inject_Z 27)%Q.
Proof.
  apply (dashboard_average_between [12; 3; 27]%Z 0 27).
  - repeat constructor; lia.
  - discriminate.
Defined.

(** * Properties of the submission *)

Section SubmissionFacts.
Import Text Cardio Sessions Submission.

Variable FacialResults : Type.
Variable results_dominant_emotion : FacialResults -> string.
Variable results_confidence : FacialResults -> Q.
Variable aggregate_emotions : list FacialEvent -> Result FacialResults.
Variable textblob_sentiment : string -> option Scoring.Sentiment.
Variable json_loads : string -> Result VoiceData.
Variable unset_phq9_q9 : Result Z.
Variable db_commit : AssessmentRow FacialResults -> Result Z.

Local Notation "'submit'" :=
  (process_voice_assessment_submission FacialResults results_dominant_emotion
     aggregate_emotions textblob_sentiment json_loads unset_phq9_q9 db_commit).

Local Notation "'build'" :=
  (build_row FacialResults results_dominant_emotion aggregate_emotions
     textblob_sentiment unset_phq9_q9).

(** What a request that ends on the results page went through. *)
Lemma submit_results (user : Z) (form : option string) (w w' : World)
      (assessment_id : Z) (saved : option (AssessmentRow FacialResults)) :
  submit user form w = (Results assessment_id, w', saved) ->
  exists session_id session_data assessment_json voice_data row,
    cookie w = Some session_id /\ session_id <> "" /\
    get session_id (active_sessions w) = Some session_data /\
    form = Some assessment_json /\ assessment_json <> "" /\
    json_loads assessment_json = Ok voice_data /\
    build user voice_data session_data = Ok row /\
    db_commit row = Ok assessment_id /\ saved = Some row /\
    w' = {| active_sessions := remove session_id (active_sessions w);
            cookie := None |}.
Proof.
  unfold process_voice_assessment_submission.
  destruct (addressed (cookie w) (active_sessions w)) as [[sid sd]|] eqn:Ha;
    [|discriminate].
  apply addressed_some in Ha. destruct Ha as [Hc [Hne Hg]].
  destruct form as [[|c json]|]; try discriminate.
  destruct (json_loads (String c json)) as [vd|e] eqn:Ej; [|discriminate].
  destruct (build user vd sd) as [row|e] eqn:Eb; [|discriminate].
  destruct (db_commit row) as [aid|e] eqn:Ed; [|discriminate].
  intros H. injection H as <- <- <-.
  exists sid, sd, (String c json), vd, row.
  unfold clear_session_data. rewrite Hg.
  repeat split; trivial; discriminate.
Qed.


(** X24. Once a submission has ended on the results page, submitting again
    is answered with "session expired" and commits nothing, whether the
    client presents the emptied cookie or still the old one. *)
Theorem resubmission_is_rejected
        (user : Z) (form : option string) (w w' : World) (assessment_id : Z)
        (saved : option (AssessmentRow FacialResults)) :
  submit user form w = (Results assessment_id, w', saved) ->
  forall user' form',
    submit user' form' w' = (BackToAssessment SessionExpired, w', None) /\
    submit user' form' {| active_sessions := active_sessions w'; cookie := cookie w |}
    = (BackToAssessment SessionExpired,
       {| active_sessions := active_sessions w'; cookie := cookie w |}, None).
Proof.
  intros E user' form'.
  destruct (submit_results _ _ _ _ _ _ E)
    as [sid [sd [json [vd [row [Hc [_ [_ [_ [_ [_ [_ [_ [_ ->]]]]]]]]]]]]]].
  unfold process_voice_assessment_submission. cbn [active_sessions cookie].
  split; [reflexivity|].
  assert (Ha : addressed (cookie w) (remove sid (Submission.active_sessions w)) = None).
  { apply addressed_none. intros id Hid. right.
    rewrite Hc in Hid. injection Hid as <-. apply get_remove_same. }
  now rewrite Ha.
Qed.

Lemma recommend_severity (total : Z) (items : list Z) (facial vocal : option string)
      (polarity : option Q) (severity : Report.Severity) (text : string) :
  recommend unset_phq9_q9 total items facial vocal polarity = Ok (severity, text) ->
  severity = Report.classify total.
Proof.
  unfold recommend, Report.generate_recommendations.
  destruct (total <=? 14)%Z.
  - intros H. now injection H as <- _.
  - destruct (match nth_error items 8 with
              | Some q9 => Ok q9
              | None => unset_phq9_q9
              end); [|discriminate].
    intros H. now injection H as <- _.
Qed.

Lemma build_row_fields (user : Z) (voice_data : VoiceData)
      (session_data : SessionData) (row : AssessmentRow FacialResults) :
  build user voice_data session_data = Ok row ->
  row_user_id _ row = user /\
  phq9_items _ row = Scoring.item_scores textblob_sentiment (responses voice_data) /\
  row_phq9_total _ row
  = Scoring.phq9_total_of textblob_sentiment (responses voice_data) /\
  severity_level _ row = Report.classify (row_phq9_total _ row) /\
  (facial_results _ row = None <-> facial_timeline session_data = []) /\
  (row_vocal_dominant_emotion _ row = None <-> vocal_timeline session_data = []) /\
  (row_sentiment _ row = None <-> full_transcript_of (responses voice_data) = "") /\
  session_duration _ row = duration_of voice_data.
Proof.
  unfold build_row.
  destruct (facial_timeline session_data) as [|f fl];
    [|destruct (aggregate_emotions (f :: fl)) as [results|e]; [|discriminate]];
    (destruct (vocal_timeline session_data) as [|v vl];
     [|destruct (Vocal.aggregate_vocal_emotions (v :: vl)) as [label|];
       [|discriminate]]);
    (destruct (recommend _ _ _ _ _ _) as [[severity text]|e] eqn:Er; [|discriminate]);
    apply recommend_severity in Er;
    intros H; injection H as <-; cbn;
    destruct (full_transcript_of (responses voice_data));
    repeat split; intros; trivial; discriminate.
Qed.

Lemma full_transcript_empty (answers : list string) :
  full_transcript_of answers = "" <-> answers = [] \/ answers = [""].
Proof.
  unfold full_transcript_of. split.
  - destruct answers as [|a [|b l]]; cbn [String.concat].
    + now left.
    + intros ->. now right.
    + destruct a; simpl; discriminate.
  - intros [->| ->]; reflexivity.
Qed.

(** X25. The row a submission commits holds the item scores of the first
    nine answers, their sum as the total (between 0 and 27) and the band of
    that total; it has a facial result exactly when the session has a facial
    timeline, a vocal emotion exactly when it has a vocal timeline, and a
    sentiment unless there is no answer or a single empty one. *)
Theorem committed_row_is_consistent
        (user : Z) (form : option string) (w w' : World) (assessment_id : Z)
        (row : AssessmentRow FacialResults) :
  submit user form w = (Results assessment_id, w', Some row) ->
  exists session_id session_data assessment_json voice_data,
    cookie w = Some session_id /\
    get session_id (active_sessions w) = Some session_data /\
    form = Some assessment_json /\ json_loads assessment_json = Ok voice_data /\
    row_user_id _ row = user /\
    phq9_items _ row = Scoring.item_scores textblob_sentiment (responses voice_data) /\
    row_phq9_total _ row
    = Scoring.phq9_total_of textblob_sentiment (responses voice_data) /\
    (0 <= row_phq9_total _ row <= 27)%Z /\
    severity_level _ row = Report.classify (row_phq9_total _ row) /\
    (facial_results _ row = None <-> facial_timeline session_data = []) /\
    (row_vocal_dominant_emotion _ row = None <-> vocal_timeline session_data = []) /\
    (row_sentiment _ row = None <->
       responses voice_data = [] \/ responses voice_data = [""]).
Proof.
  intros E.
  destruct (submit_results _ _ _ _ _ _ E)
    as [sid [sd [json [vd [row' [Hc [_ [Hg [Hf [_ [Hj [Hb [_ [Hs _]]]]]]]]]]]]]].
  injection Hs as <-.
  destruct (build_row_fields _ _ _ _ Hb) as [Hu [Hi [Ht [Hsev [Hfa [Hvo [Hse _]]]]]]].
  exists sid, sd, json, vd. rewrite <- full_transcript_empty.
  repeat split; trivial; try apply Hfa; try apply Hvo; try apply Hse;
    rewrite Ht; pose proof (phq9_total_bounds textblob_sentiment (responses vd)); lia.
Qed.

End SubmissionFacts.

Lemma resubmission_witness :
  let w' := snd (fst (Submission.sample_submit 7 (Some "{}") Submission.sample_world)) in
  Submission.sample_submit 7 (Some "{}") w'
  = (Submission.BackToAssessment Submission.SessionExpired, w', None).
Proof.
  intros w'.
  apply (resubmission_is_rejected (string * Q) fst (fun _ => Cardio.Ok ("happy", 9 # 10))
           Scoring.neutral_sentiment Submission.sample_json_loads
           (Cardio.Raise Cardio.ReadError) (fun _ => Cardio.Ok 1%Z)
           7 (Some "{}") Submission.sample_world w' 1%Z
           (snd (Submission.sample_submit 7 (Some "{}") Submission.sample_world))).
  reflexivity.
Defined.

Lemma committed_row_witness :
  exists row,
    snd (Submission.sample_submit 7 (Some "{}") Submission.sample_world) = Some row /\
    Submission.row_phq9_total _ row = 2%Z /\
    Submission.severity_level _ row = Report.NoneMinimal /\
    Submission.session_duration _ row = Some 60%Z /\
    Submission.row_vocal_dominant_emotion _ row = Some "neutral".
Proof.
  eexists. split; [reflexivity|].
  match goal with
  | |- Submission.row_phq9_total _ ?r = _ /\ _ =>
      destruct (committed_row_is_consistent (string * Q) fst
                  (fun _ => Cardio.Ok ("happy", 9 # 10))
                  Scoring.neutral_sentiment Submission.sample_json_loads
                  (Cardio.Raise Cardio.ReadError) (fun _ => Cardio.Ok 1%Z)
                  7 (Some "{}") Submission.sample_world
                  (snd (fst (Submission.sample_submit 7 (Some "{}")
                               Submission.sample_world)))
                  1%Z r eq_refl)
        as [sid [sd [json [vd [_ [_ [_ [_ [_ [_ [Ht _]]]]]]]]]]]
  end.
  repeat split.
Defined.

(** * Properties of the registration form *)

Section RegexFacts.
Import Text Register.

Lemma append_empty_r (s : string) : s ++ "" = s.
Proof. induction s as [|c s IH]; simpl; [reflexivity | now rewrite IH]. Qed.












(** *** Strings of one class *)

Lemma all_chars_app (class : ascii -> bool) (a b : string) :
  all_chars class (a ++ b) = all_chars class a && all_chars class b.
Proof.
  induction a as [|c a IH]; [reflexivity|]. simpl. now rewrite IH, andb_assoc.
Qed.






(** *** Stripped strings *)






End RegexFacts.

Section RegisterFacts.
Import Text Cardio Register.

Variable username_exists : string -> bool.
Variable email_exists : string -> bool.
Variable db_commit_user : string -> string -> string -> Result unit.



(** A text of one class of ASCII characters has as many characters as
    bytes. *)
Lemma len_word (s : string) :
  all_chars word_char s = true -> len s = String.length s.
Proof.
  induction s as [|c s IH]; [reflexivity|]. cbn [all_chars len String.length].
  rewrite andb_true_iff. intros [Hc Hs]. rewrite (IH Hs).
  destruct c as [[] [] [] [] [] [] [] []]; try reflexivity; discriminate Hc.
Qed.


(** A password of seven characters is refused, whatever the number of its
    bytes. *)
Example seven_characters_are_too_few :
  len seven_characters = 7%nat /\ String.length seven_characters = 9%nat /\
  validation_errors no_user no_user short_password_form
  = ["Password must be at least 8 characters long"].
Proof. repeat split. Qed.

(** X27. A POST of the form ends on the login page exactly when the form
    raises no error and the commit succeeds, and the account then carries
    the stripped user name and the stripped, lowered e-mail; in every other
    case the register page is shown again with at least one message. *)
Theorem register_creates_only_valid_users (form : Form) :
  (forall username email,
     register username_exists email_exists db_commit_user form
     = RedirectToLogin username email <->
     validation_errors username_exists email_exists form = [] /\
     username = strip (form_username form) /\
     email = lower (strip (form_email form)) /\
     exists done, db_commit_user username email (form_password form) = Ok done) /\
  (forall flashed,
     register username_exists email_exists db_commit_user form
     = RegisterPage flashed -> flashed <> []).
Proof.
  unfold register.
  destruct (validation_errors username_exists email_exists form) as [|e errors].
  - destruct (db_commit_user (strip (form_username form))
                (lower (strip (form_email form))) (form_password form))
      as [done|err] eqn:Ed; split.
    + intros username email. split.
      * intros H. injection H as <- <-. repeat split. now exists done.
      * intros [_ [-> [-> _]]]. reflexivity.
    + intros flashed H. discriminate H.
    + intros username email. split; [discriminate|].
      intros [_ [-> [-> [done H]]]]. rewrite Ed in H. discriminate H.
    + intros flashed H. injection H as <-. discriminate.
  - split.
    + intros username email. split; [discriminate|]. intros [H _]. discriminate H.
    + intros flashed H. injection H as <-. discriminate.
Qed.

End RegisterFacts.
